(** * The import pipeline of AIChatHistory: [run_import_job]

    A shallow embedding of [backend/app/api/import_jobs.py] together with
    the parts of [models/models.py], [providers/base.py] and
    [providers/registry.py] it runs on, and the properties of one job run.

    Python's effects are made explicit:
    - the SQLAlchemy session is a record holding the committed tables, the
      view of the open transaction and the objects added but not flushed;
    - exceptions are a result type, and a raised exception keeps every
      change made to the state before it (as in Python);
    - the locals of [run_import_job] that are mutated inside the loop
      (the three counters and the error list) live in the state, so that
      an increment made before an exception survives the handler.

    Out of the model: concurrency between runs, loss of the database
    connection, and exceptions that are not subclasses of [Exception]. *)

From Stdlib Require Import String Ascii List ZArith Arith Bool Lia.
From Stdlib Require Import DecimalString.
Import ListNotations.
Local Open Scope string_scope.
Local Open Scope nat_scope.
Local Open Scope list_scope.

(** ** Basic data *)

(** [uuid.UUID] values are abstract identifiers. *)
Definition UUID := nat.

(** [datetime] values are points on a discrete time line. *)
Definition datetime := Z.

(** A JSONB blob or a [Dict[str, Any]]: keys with printed values. *)
Definition JSON := list (string * string).

(** An exception: its class name and [str(e)]. *)
Inductive Exception := Exc (cls : string) (msg : string).

Definition str (e : Exception) : string :=
  match e with Exc _ msg => msg end.

Definition exc_class (e : Exception) : string :=
  match e with Exc cls _ => cls end.

(** The outcome of a call that may raise. *)
Inductive Res (A : Type) : Type :=
| Ok (a : A)
| Raise (e : Exception).
Arguments Ok {A} a.
Arguments Raise {A} e.

(** ** models/models.py: the rows *)

Module Provider.
Record t := mk {
  id : UUID;
  name : string;
  display_name : string;
  base_api_url : option string;
  schema_version : option string;
  notes : option string }.
End Provider.

Module APIKey.
Record t := mk {
  id : UUID;
  provider_id : UUID;
  label : string;
  key_encrypted : string;
  is_active : bool;
  created_at : datetime;
  last_used_at : option datetime }.

Definition set_last_used_at (k : t) (v : option datetime) : t :=
  mk (id k) (provider_id k) (label k) (key_encrypted k) (is_active k)
     (created_at k) v.
End APIKey.

Module Conversation.
Record t := mk {
  id : UUID;
  provider_id : UUID;
  provider_conversation_id : option string;
  title : option string;
  started_at : option datetime;
  ended_at : option datetime;
  origin : string;
  import_job_id : option UUID;
  import_notes : option string;
  archived : bool;
  raw_metadata : option JSON }.
End Conversation.

Module Message.
Record t := mk {
  id : UUID;
  conversation_id : UUID;
  provider_message_id : option string;
  role : string;
  created_at : option datetime;
  sequence_index : Z;
  content : string;
  raw_metadata : option JSON }.
End Message.

Module Artifact.
Record t := mk {
  id : UUID;
  conversation_id : UUID;
  message_id : option UUID;
  artifact_type : string;
  provider_artifact_id : option string;
  filename : option string;
  mime_type : option string;
  storage_path : option string;
  download_status : string;
  download_error : option string;
  notes : option string;
  raw_metadata : option JSON }.
End Artifact.

Module ImportJob.
Record t := mk {
  id : UUID;
  provider_id : UUID;
  api_key_id : UUID;
  started_at : datetime;
  finished_at : option datetime;
  status : string;
  requested_range : option JSON;
  summary : option string;
  error_details : option string;
  conversations_imported : nat;
  messages_imported : nat;
  artifacts_imported : nat }.

(** The three assignments of every failure path:
    [job.status = "failed"; job.error_details = ...; job.finished_at = ...]. *)
Definition set_failed (j : t) (details : string) (now : datetime) : t :=
  mk (id j) (provider_id j) (api_key_id j) (started_at j)
     (Some now) "failed" (requested_range j) (summary j) (Some details)
     (conversations_imported j) (messages_imported j) (artifacts_imported j).

(** The assignments of lines 151-158; [details] is [None] when the
    error list is empty and [job.error_details] is left as it was. *)
Definition set_finished (j : t) (st : string) (c m a : nat)
    (summ : string) (details : option string) (now : datetime) : t :=
  mk (id j) (provider_id j) (api_key_id j) (started_at j)
     (Some now) st (requested_range j) (Some summ)
     (match details with Some d => Some d | None => error_details j end)
     c m a.
End ImportJob.

(** ** providers/base.py: the normalized shapes *)

Module ProviderMessage.
Record t := mk {
  provider_message_id : option string;
  role : string;
  content : string;
  created_at : option datetime;
  sequence_index : Z;
  raw_metadata : option JSON }.
End ProviderMessage.

Module ProviderArtifact.
Record t := mk {
  provider_artifact_id : option string;
  artifact_type : string;
  filename : option string;
  mime_type : option string;
  content : option string;
  download_status : string;
  download_error : option string;
  message_sequence_index : option Z;
  raw_metadata : option JSON }.
End ProviderArtifact.

Module ProviderConversationSummary.
Record t := mk {
  provider_conversation_id : string;
  title : option string;
  started_at : option datetime;
  ended_at : option datetime;
  message_count : option Z;
  raw_metadata : option JSON }.
End ProviderConversationSummary.

Module ProviderConversationDetail.
Record t := mk {
  provider_conversation_id : string;
  title : option string;
  started_at : option datetime;
  ended_at : option datetime;
  messages : list ProviderMessage.t;
  artifacts : list ProviderArtifact.t;
  raw_metadata : option JSON }.
End ProviderConversationDetail.


(** ** The database and the SQLAlchemy session *)

(** The tables [run_import_job] reads or writes. The other tables of the
    schema (projects, conversation_projects, conversation_edits) are not
    touched by it. *)
Record Database := mkDatabase {
  providers : list Provider.t;
  api_keys : list APIKey.t;
  import_jobs : list ImportJob.t;
  conversations : list Conversation.t;
  messages : list Message.t;
  artifacts : list Artifact.t }.

(** An object passed to [db.add] and not flushed yet. Its primary key is
    the column default [uuid.uuid4], drawn when the INSERT is emitted, so
    a pending object is a row that waits for its key. *)
Inductive Pending :=
| NewImportJob (row : UUID -> ImportJob.t)
| NewConversation (row : UUID -> Conversation.t)
| NewMessage (row : UUID -> Message.t)
| NewArtifact (row : UUID -> Artifact.t).

(** [committed] is what every other session sees; [txn] is what this
    session sees inside its open transaction; [pending] are the added
    objects in the order of the [db.add] calls. *)
Record Session := mkSession {
  committed : Database;
  txn : Database;
  pending : list Pending }.

(** [SessionLocal()]: a new session on the database. *)
Definition SessionLocal (d : Database) : Session := mkSession d d [].

(** A call made to a provider adapter, as the remote side logs it. *)
Inductive Request :=
| ListConversations (api_key : string) (options : JSON)
| FetchConversation (api_key : string) (conversation_id : string).

(** What lies outside the process: the wall clock, the source of fresh
    UUIDs, the state of the provider's remote service, which the adapter
    calls read and change, and the log of the adapter calls made. *)
Record World := mkWorld {
  clock : datetime;
  next_uuid : UUID;
  remote : nat;
  requests : list Request }.

(** The locals of [run_import_job] assigned inside the loop. *)
Record Locals := mkLocals {
  conversations_count : nat;
  messages_count : nat;
  artifacts_count : nat;
  errors : list string }.

Record St := mkSt {
  world : World;
  db : Session;
  frame : Locals }.

(** The state at the first line of [run_import_job]. *)
Definition start (d : Database) (w : World) : St :=
  mkSt w (SessionLocal d) (mkLocals 0 0 0 []).

(** ** A state and exception monad *)

Definition M (A : Type) : Type := St -> Res A * St.

Definition ret {A} (a : A) : M A := fun st => (Ok a, st).

Definition bind {A B} (m : M A) (k : A -> M B) : M B :=
  fun st =>
    match m st with
    | (Ok a, st1) => k a st1
    | (Raise e, st1) => (Raise e, st1)
    end.

Definition raise {A} (e : Exception) : M A := fun st => (Raise e, st).

(** [try: body except Exception as e: handler e]. *)
Definition try_except {A} (body : M A) (handler : Exception -> M A) : M A :=
  fun st =>
    match body st with
    | (Ok a, st1) => (Ok a, st1)
    | (Raise e, st1) => handler e st1
    end.

(** [try: body except cls as e: handler e]: other classes propagate. *)
Definition try_except_class {A} (cls : string) (body : M A)
    (handler : Exception -> M A) : M A :=
  fun st =>
    match body st with
    | (Ok a, st1) => (Ok a, st1)
    | (Raise e, st1) =>
        if String.eqb (exc_class e) cls then handler e st1 else (Raise e, st1)
    end.

(** [try: body finally: cleanup]. *)
Definition try_finally {A} (body : M A) (cleanup : M unit) : M A :=
  fun st =>
    match body st with
    | (r, st1) =>
        match cleanup st1 with
        | (Ok _, st2) => (r, st2)
        | (Raise e, st2) => (Raise e, st2)
        end
    end.

(** A pure call that may raise. *)
Definition lift {A} (r : Res A) : M A := fun st => (r, st).

Declare Scope py_scope.
Delimit Scope py_scope with py.
Notation "x <- c1 ;; c2" := (bind c1 (fun x => c2))
  (at level 100, c1 at next level, right associativity) : py_scope.
Notation "c1 ;; c2" := (bind c1 (fun _ => c2))
  (at level 100, right associativity) : py_scope.
Local Open Scope py_scope.

(** [for x in xs: body x]: an exception leaving the body ends the loop. *)
Fixpoint for_each {A} (xs : list A) (body : A -> M unit) : M unit :=
  match xs with
  | [] => ret tt
  | x :: rest => body x ;; for_each rest body
  end.

(** ** State access *)

Definition set_world (st : St) (w : World) : St := mkSt w (db st) (frame st).
Definition set_db (st : St) (s : Session) : St := mkSt (world st) s (frame st).
Definition set_frame (st : St) (f : Locals) : St := mkSt (world st) (db st) f.

(** [datetime.now()]: reads the clock; time moves on. *)
Definition datetime_now : M datetime := fun st =>
  let w := world st in
  (Ok (clock w),
   set_world st (mkWorld (clock w + 1)%Z (next_uuid w) (remote w) (requests w))).

(** An awaited adapter call: it sees the remote service and the clock,
    may change the remote service, and is logged. *)
Definition await {A} (req : Request) (call : nat -> datetime -> Res A * nat)
    : M A := fun st =>
  let w := world st in
  match call (remote w) (clock w) with
  | (r, remote') =>
      (r, set_world st
            (mkWorld (clock w) (next_uuid w) remote' (requests w ++ [req])))
  end.

Definition modify_frame (f : Locals -> Locals) : M unit := fun st =>
  (Ok tt, set_frame st (f (frame st))).

Definition get_frame : M Locals := fun st => (Ok (frame st), st).

(** ** The constraints of the schema (models/models.py) *)

(** The database of the model refuses a row only for what models.py
    declares: the length of a [String(n)], the range of an [Integer],
    the foreign keys and the unique constraint. A string stands for its
    sequence of characters, one [ascii] each. What else PostgreSQL or
    its driver refuses (a NUL character in a text value, say) is not
    modelled, and the texts carried by [IntegrityError] and [DataError]
    are the model's own. The theorems on a turn and on a run are stated
    through the outcome of the flush, whichever rows it refuses and in
    whatever words. *)

(** [String(n)]: PostgreSQL refuses a longer value. *)
Definition varchar_ok (n : nat) (s : string) : bool := String.length s <=? n.

Definition varchar_opt_ok (n : nat) (s : option string) : bool :=
  match s with Some v => varchar_ok n v | None => true end.

(** [Integer]: a 32-bit signed column. *)
Definition int4_ok (z : Z) : bool :=
  ((- 2147483648 <=? z) && (z <=? 2147483647))%Z.

Definition has_provider (d : Database) (pid : UUID) : bool :=
  existsb (fun p => Provider.id p =? pid) (providers d).

Definition has_api_key (d : Database) (kid : UUID) : bool :=
  existsb (fun k => APIKey.id k =? kid) (api_keys d).

Definition has_import_job (d : Database) (jid : UUID) : bool :=
  existsb (fun j => ImportJob.id j =? jid) (import_jobs d).

Definition has_conversation (d : Database) (cid : UUID) : bool :=
  existsb (fun c => Conversation.id c =? cid) (conversations d).

Definition has_message (d : Database) (mid : UUID) : bool :=
  existsb (fun m => Message.id m =? mid) (messages d).

(** The filter of the dedup query, which is also the equality that
    [uq_provider_conversation] forbids: same provider and same,
    non-null, provider conversation id. *)
Definition same_conversation (pid : UUID) (pcid : string)
    (c : Conversation.t) : bool :=
  (Conversation.provider_id c =? pid) &&
  match Conversation.provider_conversation_id c with
  | Some x => String.eqb x pcid
  | None => false
  end.

(** [UniqueConstraint('provider_id', 'provider_conversation_id')]:
    rows with a NULL id never conflict. *)
Definition uq_provider_conversation (d : Database) (c : Conversation.t) : bool :=
  match Conversation.provider_conversation_id c with
  | Some pcid =>
      negb (existsb (same_conversation (Conversation.provider_id c) pcid)
                    (conversations d))
  | None => true
  end.

Definition IntegrityError (msg : string) : Exception := Exc "IntegrityError" msg.
Definition DataError (msg : string) : Exception := Exc "DataError" msg.

(** The INSERT of one row into the transaction view, table by table. *)
Definition insert_import_job (d : Database) (j : ImportJob.t) : Res Database :=
  if negb (has_provider d (ImportJob.provider_id j)) then
    Raise (IntegrityError "import_jobs.provider_id: no such provider")
  else if negb (has_api_key d (ImportJob.api_key_id j)) then
    Raise (IntegrityError "import_jobs.api_key_id: no such api key")
  else if negb (varchar_ok 50 (ImportJob.status j)) then
    Raise (DataError "import_jobs.status: value too long")
  else
    Ok (mkDatabase (providers d) (api_keys d) (import_jobs d ++ [j])
          (conversations d) (messages d) (artifacts d)).

Definition insert_conversation (d : Database) (c : Conversation.t)
    : Res Database :=
  if negb (has_provider d (Conversation.provider_id c)) then
    Raise (IntegrityError "conversations.provider_id: no such provider")
  else if negb (match Conversation.import_job_id c with
                | Some j => has_import_job d j
                | None => true
                end) then
    Raise (IntegrityError "conversations.import_job_id: no such import job")
  else if negb (uq_provider_conversation d c) then
    Raise (IntegrityError "duplicate key: uq_provider_conversation")
  else if negb (varchar_ok 50 (Conversation.origin c)) then
    Raise (DataError "conversations.origin: value too long")
  else
    Ok (mkDatabase (providers d) (api_keys d) (import_jobs d)
          (conversations d ++ [c]) (messages d) (artifacts d)).

Definition insert_message (d : Database) (m : Message.t) : Res Database :=
  if negb (has_conversation d (Message.conversation_id m)) then
    Raise (IntegrityError "messages.conversation_id: no such conversation")
  else if negb (varchar_ok 50 (Message.role m)) then
    Raise (DataError "messages.role: value too long")
  else if negb (int4_ok (Message.sequence_index m)) then
    Raise (DataError "messages.sequence_index: integer out of range")
  else
    Ok (mkDatabase (providers d) (api_keys d) (import_jobs d)
          (conversations d) (messages d ++ [m]) (artifacts d)).

Definition insert_artifact (d : Database) (a : Artifact.t) : Res Database :=
  if negb (has_conversation d (Artifact.conversation_id a)) then
    Raise (IntegrityError "artifacts.conversation_id: no such conversation")
  else if negb (match Artifact.message_id a with
                | Some m => has_message d m
                | None => true
                end) then
    Raise (IntegrityError "artifacts.message_id: no such message")
  else if negb (varchar_ok 50 (Artifact.artifact_type a)) then
    Raise (DataError "artifacts.artifact_type: value too long")
  else if negb (varchar_opt_ok 200 (Artifact.mime_type a)) then
    Raise (DataError "artifacts.mime_type: value too long")
  else if negb (varchar_ok 50 (Artifact.download_status a)) then
    Raise (DataError "artifacts.download_status: value too long")
  else
    Ok (mkDatabase (providers d) (api_keys d) (import_jobs d)
          (conversations d) (messages d) (artifacts d ++ [a])).

Definition insert_pending (d : Database) (key : UUID) (p : Pending)
    : Res Database :=
  match p with
  | NewImportJob row => insert_import_job d (row key)
  | NewConversation row => insert_conversation d (row key)
  | NewMessage row => insert_message d (row key)
  | NewArtifact row => insert_artifact d (row key)
  end.

(** The INSERTs of a flush, in the order of the [db.add] calls (which in
    [run_import_job] is also the order of the foreign keys). Returns the
    keys given out. The rows inserted before a failing one stay in the
    transaction view until the rollback. *)
Fixpoint flush_rows (ps : list Pending) (d : Database) (key : UUID)
    : Res (list UUID) * Database * UUID :=
  match ps with
  | [] => (Ok [], d, key)
  | p :: rest =>
      match insert_pending d key p with
      | Raise e => (Raise e, d, S key)
      | Ok d1 =>
          match flush_rows rest d1 (S key) with
          | (Ok keys, d2, key2) => (Ok (key :: keys), d2, key2)
          | (Raise e, d2, key2) => (Raise e, d2, key2)
          end
      end
  end.

(** ** Session operations *)

(** [db.add(obj)]. *)
Definition db_add (p : Pending) : M unit := fun st =>
  let s := db st in
  (Ok tt, set_db st (mkSession (committed s) (txn s) (pending s ++ [p]))).

(** [db.flush()]. The keys of the flushed objects are returned, which is
    how the model reads [conversation.id] afterwards. *)
Definition db_flush : M (list UUID) := fun st =>
  let s := db st in
  let w := world st in
  match flush_rows (pending s) (txn s) (next_uuid w) with
  | (r, d, key) =>
      (r, mkSt (mkWorld (clock w) key (remote w) (requests w))
               (mkSession (committed s) d []) (frame st))
  end.

(** [db.commit()]: flush, then make the transaction view durable.
    [db_commit_keys] also hands back the keys given out by its flush. *)
Definition db_commit_keys : M (list UUID) := fun st =>
  match db_flush st with
  | (Ok keys, st1) =>
      let s := db st1 in
      (Ok keys, set_db st1 (mkSession (txn s) (txn s) []))
  | (Raise e, st1) => (Raise e, st1)
  end.

Definition db_commit : M unit := fun st =>
  match db_commit_keys st with
  | (Ok _, st1) => (Ok tt, st1)
  | (Raise e, st1) => (Raise e, st1)
  end.

(** [db.rollback()]: drop the open transaction and the pending objects. *)
Definition db_rollback : M unit := fun st =>
  let s := db st in
  (Ok tt, set_db st (mkSession (committed s) (committed s) [])).

(** [db.close()]: releases the connection; an open transaction is
    rolled back. *)
Definition db_close : M unit := db_rollback.

(** [db.query(T).filter(...).first()] on each of the four tables queried.
    Nothing is pending when [run_import_job] queries, so autoflush has
    nothing to emit. *)
Definition query_import_job (job_id : UUID) : M (option ImportJob.t) :=
  fun st => (Ok (find (fun j => ImportJob.id j =? job_id)
                      (import_jobs (txn (db st)))), st).

Definition query_api_key (key_id : UUID) : M (option APIKey.t) :=
  fun st => (Ok (find (fun k => APIKey.id k =? key_id)
                      (api_keys (txn (db st)))), st).

Definition query_provider (provider_id : UUID) : M (option Provider.t) :=
  fun st => (Ok (find (fun p => Provider.id p =? provider_id)
                      (providers (txn (db st)))), st).

Definition query_conversation (provider_id : UUID) (pcid : string)
    : M (option Conversation.t) :=
  fun st => (Ok (find (same_conversation provider_id pcid)
                      (conversations (txn (db st)))), st).

(** Assignments to the attributes of a persistent object reach the
    database as one UPDATE of its row, by primary key, at the next flush.
    The model writes the row into the transaction view at once: only a
    commit or a rollback can tell the difference, and both agree. *)
Definition replace_job (j : ImportJob.t) (rows : list ImportJob.t)
    : list ImportJob.t :=
  map (fun r => if ImportJob.id r =? ImportJob.id j then j else r) rows.

Definition replace_api_key (k : APIKey.t) (rows : list APIKey.t)
    : list APIKey.t :=
  map (fun r => if APIKey.id r =? APIKey.id k then k else r) rows.

Definition update_job (j : ImportJob.t) : M unit := fun st =>
  let s := db st in
  let d := txn s in
  (Ok tt, set_db st (mkSession (committed s)
     (mkDatabase (providers d) (api_keys d) (replace_job j (import_jobs d))
        (conversations d) (messages d) (artifacts d))
     (pending s))).

Definition update_api_key (k : APIKey.t) : M unit := fun st =>
  let s := db st in
  let d := txn s in
  (Ok tt, set_db st (mkSession (committed s)
     (mkDatabase (providers d) (replace_api_key k (api_keys d)) (import_jobs d)
        (conversations d) (messages d) (artifacts d))
     (pending s))).

(** ** providers/base.py, providers/registry.py: adapters *)

(** The interface [ConversationProviderAdapter]. Each method is an
    awaited call: besides its Python arguments it is given the state of
    the remote service and the clock, and returns the new remote state. *)
Record ConversationProviderAdapter := mkAdapter {
  provider_name : string;
  list_conversations :
    string -> JSON -> nat -> datetime ->
    Res (list ProviderConversationSummary.t) * nat;
  fetch_conversation :
    string -> string -> nat -> datetime ->
    Res ProviderConversationDetail.t * nat;
  fetch_artifacts :
    string -> ProviderConversationDetail.t -> nat -> datetime ->
    Res (list ProviderArtifact.t) * nat }.

(** providers/openai_adapter.py: the placeholder adapter. *)
Definition OpenAIAdapter : ConversationProviderAdapter :=
  mkAdapter "openai"
    (fun _ _ r _ => (Ok [], r))
    (fun _ conversation_id r now =>
       (Ok (ProviderConversationDetail.mk conversation_id
              (Some "Placeholder Conversation") (Some now) None [] []
              (Some [])), r))
    (fun _ _ r _ => (Ok [], r)).

(** providers/anthropic_adapter.py: the placeholder adapter. *)
Definition AnthropicAdapter : ConversationProviderAdapter :=
  mkAdapter "anthropic"
    (fun _ _ r _ => (Ok [], r))
    (fun _ conversation_id r now =>
       (Ok (ProviderConversationDetail.mk conversation_id
              (Some "Placeholder Claude Conversation") (Some now) None [] []
              (Some [])), r))
    (fun _ _ r _ => (Ok [], r)).

(** [ProviderRegistry._adapters], a dict keyed by provider name. *)
Definition ProviderRegistry := list (string * ConversationProviderAdapter).

(** [self._adapters[adapter.provider_name] = adapter]. *)
Fixpoint register (adapter : ConversationProviderAdapter)
    (reg : ProviderRegistry) : ProviderRegistry :=
  match reg with
  | [] => [(provider_name adapter, adapter)]
  | (n, a) :: rest =>
      if String.eqb n (provider_name adapter)
      then (n, adapter) :: rest
      else (n, a) :: register adapter rest
  end.

Fixpoint lookup_adapter (name : string) (reg : ProviderRegistry)
    : option ConversationProviderAdapter :=
  match reg with
  | [] => None
  | (n, a) :: rest => if String.eqb n name then Some a else lookup_adapter name rest
  end.

Definition ValueError (msg : string) : Exception := Exc "ValueError" msg.

Definition get_adapter (reg : ProviderRegistry) (name : string)
    : Res ConversationProviderAdapter :=
  match lookup_adapter name reg with
  | None => Raise (ValueError (String.append "Unknown provider: " name))
  | Some a => Ok a
  end.

(** [_register_default_providers]. *)
Definition default_registry : ProviderRegistry :=
  register AnthropicAdapter (register OpenAIAdapter []).

(** What api/import_jobs.py takes from outside: [decrypt_api_key], whose
    Fernet cipher is a library call keyed by the settings, the global
    [provider_registry], and [datetime.isoformat]. *)
Record Env := mkEnv {
  decrypt_api_key : string -> Res string;
  provider_registry : ProviderRegistry;
  isoformat : datetime -> string }.

(** ** api/import_jobs.py: [run_import_job] *)

Definition newline : string := String (ascii_of_nat 10) EmptyString.

(** [str(n)] for a counter. *)
Definition str_nat (n : nat) : string := NilEmpty.string_of_uint (Nat.to_uint n).

(** [f"Error importing conversation {id}: {str(e)}"]. *)
Definition item_error (pcid : string) (e : Exception) : string :=
  String.append "Error importing conversation "
    (String.append pcid (String.append ": " (str e))).

(** [f"Imported {c} conversations, {m} messages, {a} artifacts"]. *)
Definition job_summary (c m a : nat) : string :=
  String.append "Imported "
    (String.append (str_nat c) (String.append " conversations, "
      (String.append (str_nat m) (String.append " messages, "
        (String.append (str_nat a) " artifacts"))))).

(** [options = dict(job.requested_range)] when the range is truthy. *)
Definition build_options (requested_range : option JSON) : JSON :=
  match requested_range with
  | Some (kv :: rest) => kv :: rest
  | _ => []
  end.

(** The block repeated on every failure path:
    [job.status = "failed"; job.error_details = details;
     job.finished_at = datetime.now(); db.commit()]. *)
Definition fail_job (job : ImportJob.t) (details : string) : M unit :=
  now <- datetime_now ;;
  update_job (ImportJob.set_failed job details now) ;;
  db_commit.

Definition incr_conversations (f : Locals) : Locals :=
  mkLocals (S (conversations_count f)) (messages_count f) (artifacts_count f)
           (errors f).

Definition incr_messages (f : Locals) : Locals :=
  mkLocals (conversations_count f) (S (messages_count f)) (artifacts_count f)
           (errors f).

Definition incr_artifacts (f : Locals) : Locals :=
  mkLocals (conversations_count f) (messages_count f) (S (artifacts_count f))
           (errors f).

Definition append_error (msg : string) (f : Locals) : Locals :=
  mkLocals (conversations_count f) (messages_count f) (artifacts_count f)
           (errors f ++ [msg]).

(** Lines 100-108: [Conversation(...)]; [origin], [archived] and
    [import_notes] take their column defaults. The row is shown as it
    is once the flush has drawn its key. *)
Definition conversation_row (provider : Provider.t) (job : ImportJob.t)
    (conv_detail : ProviderConversationDetail.t) (key : UUID)
    : Conversation.t :=
  Conversation.mk key (Provider.id provider)
    (Some (ProviderConversationDetail.provider_conversation_id conv_detail))
    (ProviderConversationDetail.title conv_detail)
    (ProviderConversationDetail.started_at conv_detail)
    (ProviderConversationDetail.ended_at conv_detail)
    "api" (Some (ImportJob.id job)) None false
    (ProviderConversationDetail.raw_metadata conv_detail).

Definition new_conversation (provider : Provider.t) (job : ImportJob.t)
    (conv_detail : ProviderConversationDetail.t) : Pending :=
  NewConversation (conversation_row provider job conv_detail).

(** Lines 116-124: [Message(...)]. *)
Definition message_row (conversation_id : UUID) (key : UUID)
    (msg : ProviderMessage.t) : Message.t :=
  Message.mk key conversation_id
    (ProviderMessage.provider_message_id msg)
    (ProviderMessage.role msg)
    (ProviderMessage.created_at msg)
    (ProviderMessage.sequence_index msg)
    (ProviderMessage.content msg)
    (ProviderMessage.raw_metadata msg).

Definition new_message (conversation_id : UUID) (msg : ProviderMessage.t)
    : Pending :=
  NewMessage (fun key => message_row conversation_id key msg).

(** Lines 130-139: [Artifact(...)]. The constructor is given neither
    [message_id] nor [storage_path] nor [notes]; they stay NULL, and
    [art.message_sequence_index] and [art.content] are not read. *)
Definition artifact_row (conversation_id : UUID) (key : UUID)
    (art : ProviderArtifact.t) : Artifact.t :=
  Artifact.mk key conversation_id None
    (ProviderArtifact.artifact_type art)
    (ProviderArtifact.provider_artifact_id art)
    (ProviderArtifact.filename art)
    (ProviderArtifact.mime_type art)
    None
    (ProviderArtifact.download_status art)
    (ProviderArtifact.download_error art)
    None
    (ProviderArtifact.raw_metadata art).

Definition new_artifact (conversation_id : UUID) (art : ProviderArtifact.t)
    : Pending :=
  NewArtifact (fun key => artifact_row conversation_id key art).

(** Lines 115-126: the loop over [conv_detail.messages]. *)
Definition add_messages (conversation_id : UUID)
    (msgs : list ProviderMessage.t) : M unit :=
  for_each msgs
    (fun msg =>
       db_add (new_message conversation_id msg) ;;
       modify_frame incr_messages).

(** Lines 129-141: the loop over [conv_detail.artifacts]. *)
Definition add_artifacts (conversation_id : UUID)
    (arts : list ProviderArtifact.t) : M unit :=
  for_each arts
    (fun art =>
       db_add (new_artifact conversation_id art) ;;
       modify_frame incr_artifacts).

(** Lines 83-143: the body of the inner [try]. *)
Definition import_conversation_body (adapter : ConversationProviderAdapter)
    (api_key : string) (provider : Provider.t) (job : ImportJob.t)
    (summary : ProviderConversationSummary.t) : M unit :=
  conv_detail <- await
    (FetchConversation api_key
       (ProviderConversationSummary.provider_conversation_id summary))
    (fetch_conversation adapter api_key
       (ProviderConversationSummary.provider_conversation_id summary)) ;;
  existing <- query_conversation (Provider.id provider)
    (ProviderConversationDetail.provider_conversation_id conv_detail) ;;
  match existing with
  | Some _ => ret tt
  | None =>
      db_add (new_conversation provider job conv_detail) ;;
      keys <- db_flush ;;
      match keys with
      | [] => raise (IntegrityError "conversation.id is None")
      | conversation_id :: _ =>
          modify_frame incr_conversations ;;
          add_messages conversation_id
            (ProviderConversationDetail.messages conv_detail) ;;
          add_artifacts conversation_id
            (ProviderConversationDetail.artifacts conv_detail) ;;
          db_commit
      end
  end.

(** Lines 82-148: one turn of the loop over the summaries. *)
Definition import_conversation (adapter : ConversationProviderAdapter)
    (api_key : string) (provider : Provider.t) (job : ImportJob.t)
    (summary : ProviderConversationSummary.t) : M unit :=
  try_except
    (import_conversation_body adapter api_key provider job summary)
    (fun e =>
       modify_frame (append_error
         (item_error
            (ProviderConversationSummary.provider_conversation_id summary) e)) ;;
       db_rollback).

(** Lines 151-158: the job row after the assignments, from the locals. *)
Definition finished_job (job : ImportJob.t) (f : Locals) (now : datetime)
    : ImportJob.t :=
  ImportJob.set_finished job
    (match errors f with [] => "success" | _ => "partial" end)
    (conversations_count f) (messages_count f) (artifacts_count f)
    (job_summary (conversations_count f) (messages_count f)
                 (artifacts_count f))
    (match errors f with
     | [] => None
     | _ => Some (String.concat newline (firstn 10 (errors f)))
     end)
    now.

(** Lines 150-163: the job row, the key's [last_used_at], the commit. *)
Definition finish_job (job : ImportJob.t) (api_key_record : APIKey.t)
    : M unit :=
  f <- get_frame ;;
  now <- datetime_now ;;
  update_job (finished_job job f now) ;;
  now' <- datetime_now ;;
  update_api_key (APIKey.set_last_used_at api_key_record (Some now')) ;;
  db_commit.

(** Lines 72-169: the counters, the outer [try] and its handler. *)
Definition import_all (adapter : ConversationProviderAdapter)
    (api_key : string) (options : JSON) (provider : Provider.t)
    (job : ImportJob.t) (api_key_record : APIKey.t) : M unit :=
  modify_frame (fun _ => mkLocals 0 0 0 []) ;;
  try_except
    (conv_summaries <- await (ListConversations api_key options)
                         (list_conversations adapter api_key options) ;;
     for_each conv_summaries
       (import_conversation adapter api_key provider job) ;;
     finish_job job api_key_record)
    (fun e => fail_job job (str e)).

(** Lines 31-172. The session is the one [start] opened. *)
Definition run_import_job (env : Env) (job_id : UUID) : M unit :=
  try_finally
    (job_row <- query_import_job job_id ;;
     match job_row with
     | None => ret tt
     | Some job =>
         key_row <- query_api_key (ImportJob.api_key_id job) ;;
         match key_row with
         | None => fail_job job "API key not found"
         | Some api_key_record =>
             api_key <- lift (decrypt_api_key env
                                (APIKey.key_encrypted api_key_record)) ;;
             provider_row <- query_provider (ImportJob.provider_id job) ;;
             match provider_row with
             | None => fail_job job "Provider not found"
             | Some provider =>
                 (* [None] stands for the [return] of the handler *)
                 found <- try_except_class "ValueError"
                   (adapter <- lift (get_adapter (provider_registry env)
                                       (Provider.name provider)) ;;
                    ret (Some adapter))
                   (fun e => fail_job job (str e) ;; ret None) ;;
                 match found with
                 | None => ret tt
                 | Some adapter =>
                     import_all adapter api_key
                       (build_options (ImportJob.requested_range job))
                       provider job api_key_record
                 end
             end
         end
     end)
    db_close.

(** ** api/import_jobs.py: [create_import_job] *)

Module ImportJobCreate.
Record t := mk {
  provider_id : UUID;
  api_key_id : UUID;
  from_date : option datetime;
  to_date : option datetime }.
End ImportJobCreate.

(** [str(HTTPException(status_code, detail))]. *)
Definition HTTPException (status_code : nat) (detail : string) : Exception :=
  Exc "HTTPException"
    (String.append (str_nat status_code) (String.append ": " detail)).

(** Lines 226-230. *)
Definition build_requested_range (env : Env) (job_data : ImportJobCreate.t)
    : JSON :=
  (match ImportJobCreate.from_date job_data with
   | Some d => [("from_date", isoformat env d)]
   | None => []
   end) ++
  (match ImportJobCreate.to_date job_data with
   | Some d => [("to_date", isoformat env d)]
   | None => []
   end).

(** Lines 203-249. [started_at] is the server default [now()]; the
    background task is queued and the caller of the model runs
    [run_import_job] on the returned job's id afterwards. *)
Definition create_import_job (env : Env) (job_data : ImportJobCreate.t)
    : M ImportJob.t :=
  key_row <- query_api_key (ImportJobCreate.api_key_id job_data) ;;
  match key_row with
  | None => raise (HTTPException 404 "API key not found")
  | Some api_key =>
      if negb (APIKey.is_active api_key) then
        raise (HTTPException 400 "API key is not active")
      else
        provider_row <- query_provider (ImportJobCreate.provider_id job_data) ;;
        match provider_row with
        | None => raise (HTTPException 404 "Provider not found")
        | Some _ =>
            let requested_range := build_requested_range env job_data in
            now <- datetime_now ;;
            db_add (NewImportJob (fun key =>
              ImportJob.mk key
                (ImportJobCreate.provider_id job_data)
                (ImportJobCreate.api_key_id job_data)
                now None "running"
                (match requested_range with
                 | [] => None
                 | _ => Some requested_range
                 end)
                None None 0 0 0)) ;;
            keys <- db_commit_keys ;;
            (* db.refresh(job) *)
            job_row <- query_import_job (hd 0 keys) ;;
            match job_row with
            | Some job => ret job
            | None => raise (Exc "InvalidRequestError" "Could not refresh instance")
            end
        end
  end.

(** ** What one turn of the loop can do *)

(** Rows numbered with consecutive keys from [key] on. *)
Fixpoint keyed {A B} (row : UUID -> A -> B) (key : UUID) (xs : list A)
    : list B :=
  match xs with
  | [] => []
  | x :: rest => row key x :: keyed row (S key) rest
  end.

(** The objects the two inner loops add for one conversation. *)
Definition children (conversation_id : UUID)
    (conv_detail : ProviderConversationDetail.t) : list Pending :=
  map (new_message conversation_id)
      (ProviderConversationDetail.messages conv_detail) ++
  map (new_artifact conversation_id)
      (ProviderConversationDetail.artifacts conv_detail).

(** How one summary ends, read off the adapter's answer and the tables:
    the fetch raised; the conversation is already stored; the INSERT of
    the conversation row was refused; a later INSERT of the same
    transaction was refused; everything was committed. *)
Inductive Outcome :=
| FetchFailed (e : Exception)
| Duplicate
| InsertFailed (e : Exception)
| CommitFailed (conv_detail : ProviderConversationDetail.t) (e : Exception)
| Persisted (conv_detail : ProviderConversationDetail.t).

Definition item_outcome (adapter : ConversationProviderAdapter)
    (api_key : string) (provider : Provider.t) (job : ImportJob.t)
    (summary : ProviderConversationSummary.t) (st : St) : Outcome :=
  let w := world st in
  match fetch_conversation adapter api_key
          (ProviderConversationSummary.provider_conversation_id summary)
          (remote w) (clock w) with
  | (Raise e, _) => FetchFailed e
  | (Ok conv_detail, _) =>
      match find (same_conversation (Provider.id provider)
                    (ProviderConversationDetail.provider_conversation_id
                       conv_detail))
                 (conversations (txn (db st))) with
      | Some _ => Duplicate
      | None =>
          let key := next_uuid w in
          match insert_conversation (txn (db st))
                  (conversation_row provider job conv_detail key) with
          | Raise e => InsertFailed e
          | Ok d1 =>
              match flush_rows (children key conv_detail) d1 (S key) with
              | (Raise e, _, _) => CommitFailed conv_detail e
              | (Ok _, _, _) => Persisted conv_detail
              end
          end
      end
  end.

(** The exception a turn's handler catches, if any. *)
Definition outcome_error (o : Outcome) : option Exception :=
  match o with
  | FetchFailed e | InsertFailed e | CommitFailed _ e => Some e
  | Duplicate | Persisted _ => None
  end.

(** Whether [conversations_count += 1] was reached. *)
Definition outcome_counted (o : Outcome) : bool :=
  match o with
  | CommitFailed _ _ | Persisted _ => true
  | _ => false
  end.

Definition is_duplicate (o : Outcome) : bool :=
  match o with Duplicate => true | _ => false end.

Definition is_failure (o : Outcome) : bool :=
  match outcome_error o with Some _ => true | None => false end.

Definition is_failure_after_insert (o : Outcome) : bool :=
  match o with CommitFailed _ _ => true | _ => false end.

(** The outcomes of the summaries of one run, in order, each read in the
    state the previous turns left. *)
Fixpoint outcomes (adapter : ConversationProviderAdapter)
    (api_key : string) (provider : Provider.t) (job : ImportJob.t)
    (summaries : list ProviderConversationSummary.t) (st : St)
    : list Outcome :=
  match summaries with
  | [] => []
  | summary :: rest =>
      item_outcome adapter api_key provider job summary st ::
      outcomes adapter api_key provider job rest
        (snd (import_conversation adapter api_key provider job summary st))
  end.

(** The entries the handler appends for a list of outcomes. *)
Fixpoint error_entries (summaries : list ProviderConversationSummary.t)
    (os : list Outcome) : list string :=
  match summaries, os with
  | summary :: rest, o :: os' =>
      match outcome_error o with
      | Some e =>
          item_error
            (ProviderConversationSummary.provider_conversation_id summary) e
          :: error_entries rest os'
      | None => error_entries rest os'
      end
  | _, _ => []
  end.

(** The state in which the loop over the summaries starts. *)
Definition after_list (api_key : string) (options : JSON) (remote' : nat)
    (d : Database) (w : World) : St :=
  mkSt (mkWorld (clock w) (next_uuid w) remote'
          (requests w ++ [ListConversations api_key options]))
       (SessionLocal d) (mkLocals 0 0 0 []).

(** Steps 1 to 4 of a run all succeed, with these results. *)
Definition Resolved (env : Env) (d : Database) (job_id : UUID)
    (job : ImportJob.t) (api_key_record : APIKey.t) (api_key : string)
    (provider : Provider.t) (adapter : ConversationProviderAdapter) : Prop :=
  find (fun j => ImportJob.id j =? job_id) (import_jobs d) = Some job /\
  find (fun k => APIKey.id k =? ImportJob.api_key_id job) (api_keys d)
    = Some api_key_record /\
  decrypt_api_key env (APIKey.key_encrypted api_key_record) = Ok api_key /\
  find (fun p => Provider.id p =? ImportJob.provider_id job) (providers d)
    = Some provider /\
  get_adapter (provider_registry env) (Provider.name provider) = Ok adapter.

(** The job row a finished run leaves, if the job exists. *)
Definition job_after (st : St) (job_id : UUID) : option ImportJob.t :=
  find (fun j => ImportJob.id j =? job_id) (import_jobs (committed (db st))).

(** A session with nothing in flight. *)
Definition clean (s : Session) : Prop :=
  txn s = committed s /\ pending s = [].

(** The counters after the conversation row and all its children were
    added: what lines 112, 126 and 141 do to the frame. *)
Definition add_counts (f : Locals) (conv_detail : ProviderConversationDetail.t)
    : Locals :=
  mkLocals (S (conversations_count f))
    (messages_count f + length (ProviderConversationDetail.messages conv_detail))
    (artifacts_count f + length (ProviderConversationDetail.artifacts conv_detail))
    (errors f).


(** The world after the fetch call of a turn; [key] is the next key. *)
Definition fetched (api_key pcid : string) (w : World) (remote' : nat)
    (key : UUID) : World :=
  mkWorld (clock w) key remote'
    (requests w ++ [FetchConversation api_key pcid]).

(** The tables once one conversation, its messages and its artifacts
    are stored, the conversation under [key] and its children under the
    keys that follow. *)
Definition stored (provider : Provider.t) (job : ImportJob.t)
    (conv_detail : ProviderConversationDetail.t) (key : UUID)
    (d : Database) : Database :=
  mkDatabase (providers d) (api_keys d) (import_jobs d)
    (conversations d ++ [conversation_row provider job conv_detail key])
    (messages d ++
     keyed (message_row key) (S key)
       (ProviderConversationDetail.messages conv_detail))
    (artifacts d ++
     keyed (artifact_row key)
       (S key + length (ProviderConversationDetail.messages conv_detail))
       (ProviderConversationDetail.artifacts conv_detail)).

(** What a turn with outcome [o] does to the committed tables and to
    the frame. *)
Definition turn_effect (provider : Provider.t) (job : ImportJob.t)
    (pcid : string) (o : Outcome) (st st' : St) : Prop :=
  match o with
  | FetchFailed e | InsertFailed e =>
      committed (db st') = committed (db st) /\
      frame st' = append_error (item_error pcid e) (frame st)
  | CommitFailed conv_detail e =>
      committed (db st') = committed (db st) /\
      frame st' =
        append_error (item_error pcid e) (add_counts (frame st) conv_detail)
  | Duplicate =>
      committed (db st') = committed (db st) /\ frame st' = frame st
  | Persisted conv_detail =>
      committed (db st') =
        stored provider job conv_detail (next_uuid (world st))
          (committed (db st)) /\
      frame st' = add_counts (frame st) conv_detail
  end.

(** The state the turns over [summaries] lead to from [st]. *)
Fixpoint after_turns (adapter : ConversationProviderAdapter)
    (api_key : string) (provider : Provider.t) (job : ImportJob.t)
    (summaries : list ProviderConversationSummary.t) (st : St) : St :=
  match summaries with
  | [] => st
  | summary :: rest =>
      after_turns adapter api_key provider job rest
        (snd (import_conversation adapter api_key provider job summary st))
  end.

(** The tables after the failure block has run on [d] at time [now]. *)
Definition failed_tables (job : ImportJob.t) (details : string)
    (now : datetime) (d : Database) : Database :=
  mkDatabase (providers d) (api_keys d)
    (replace_job (ImportJob.set_failed job details now) (import_jobs d))
    (conversations d) (messages d) (artifacts d).

(** The tables after lines 150-163 have run on [d], the clock showing
    [now] at line 158. *)
Definition finished_tables (job : ImportJob.t) (api_key_record : APIKey.t)
    (f : Locals) (now : datetime) (d : Database) : Database :=
  mkDatabase (providers d)
    (replace_api_key
       (APIKey.set_last_used_at api_key_record (Some (now + 1)%Z))
       (api_keys d))
    (replace_job (finished_job job f now) (import_jobs d))
    (conversations d) (messages d) (artifacts d).

Definition tick (n : Z) (w : World) : World :=
  mkWorld (clock w + n)%Z (next_uuid w) (remote w) (requests w).

(** The state a failure block leaves: the job row marked, one clock
    reading taken, nothing else written. *)
Definition failed_state (job : ImportJob.t) (details : string) (w : World)
    (d : Database) : St :=
  mkSt (tick 1 w) (SessionLocal (failed_tables job details (clock w) d))
       (mkLocals 0 0 0 []).

(** The ways through [run_import_job], each with the result and the
    state it ends in. *)
Inductive RunPath (env : Env) (d : Database) (w : World) (job_id : UUID)
    : Res unit * St -> Prop :=
| PathNoJob :
    find (fun j => ImportJob.id j =? job_id) (import_jobs d) = None ->
    RunPath env d w job_id (Ok tt, start d w)
| PathNoKey job :
    find (fun j => ImportJob.id j =? job_id) (import_jobs d) = Some job ->
    find (fun k => APIKey.id k =? ImportJob.api_key_id job) (api_keys d)
      = None ->
    RunPath env d w job_id (Ok tt, failed_state job "API key not found" w d)
| PathDecryptRaises job api_key_record e :
    find (fun j => ImportJob.id j =? job_id) (import_jobs d) = Some job ->
    find (fun k => APIKey.id k =? ImportJob.api_key_id job) (api_keys d)
      = Some api_key_record ->
    decrypt_api_key env (APIKey.key_encrypted api_key_record) = Raise e ->
    RunPath env d w job_id (Raise e, start d w)
| PathNoProvider job api_key_record api_key :
    find (fun j => ImportJob.id j =? job_id) (import_jobs d) = Some job ->
    find (fun k => APIKey.id k =? ImportJob.api_key_id job) (api_keys d)
      = Some api_key_record ->
    decrypt_api_key env (APIKey.key_encrypted api_key_record) = Ok api_key ->
    find (fun p => Provider.id p =? ImportJob.provider_id job) (providers d)
      = None ->
    RunPath env d w job_id (Ok tt, failed_state job "Provider not found" w d)
| PathNoAdapter job api_key_record api_key provider e :
    find (fun j => ImportJob.id j =? job_id) (import_jobs d) = Some job ->
    find (fun k => APIKey.id k =? ImportJob.api_key_id job) (api_keys d)
      = Some api_key_record ->
    decrypt_api_key env (APIKey.key_encrypted api_key_record) = Ok api_key ->
    find (fun p => Provider.id p =? ImportJob.provider_id job) (providers d)
      = Some provider ->
    get_adapter (provider_registry env) (Provider.name provider) = Raise e ->
    RunPath env d w job_id (Ok tt, failed_state job (str e) w d)
| PathListRaises job api_key_record api_key provider adapter e remote' :
    Resolved env d job_id job api_key_record api_key provider adapter ->
    list_conversations adapter api_key
      (build_options (ImportJob.requested_range job)) (remote w) (clock w)
      = (Raise e, remote') ->
    RunPath env d w job_id
      (Ok tt,
       failed_state job (str e)
         (world (after_list api_key
                   (build_options (ImportJob.requested_range job))
                   remote' d w)) d)
| PathListOk job api_key_record api_key provider adapter summaries remote' :
    Resolved env d job_id job api_key_record api_key provider adapter ->
    list_conversations adapter api_key
      (build_options (ImportJob.requested_range job)) (remote w) (clock w)
      = (Ok summaries, remote') ->
    RunPath env d w job_id
      (Ok tt,
       let st2 := after_turns adapter api_key provider job summaries
                    (after_list api_key
                       (build_options (ImportJob.requested_range job))
                       remote' d w) in
       mkSt (tick 2 (world st2))
         (SessionLocal
            (finished_tables job api_key_record (frame st2) (clock w)
               (committed (db st2))))
         (frame st2)).

(** A key's [last_used_at] as the database has it. *)
Definition last_used (d : Database) (key_id : UUID)
    : option (option datetime) :=
  option_map APIKey.last_used_at
    (find (fun k => APIKey.id k =? key_id) (api_keys d)).

(** A run has a final status once it has written one of the three. *)
Definition terminal (j : ImportJob.t) : Prop :=
  (ImportJob.status j = "failed" \/ ImportJob.status j = "success" \/
   ImportJob.status j = "partial") /\
  ImportJob.finished_at j <> None.

(** The rows stored since the run began, none of them for the pair
    [(pid, pcid)]. *)
Definition only_other_pairs (d : Database) (pid : UUID) (pcid : string)
    (st : St) : Prop :=
  exists cs,
    conversations (committed (db st)) = conversations d ++ cs /\
    forallb (fun c => negb (same_conversation pid pcid c)) cs = true.

(** ** Sample data *)

Module Sample.

Definition acme_provider : Provider.t :=
  Provider.mk 1 "acme" "Acme Chat" None None None.

Definition openai_provider : Provider.t :=
  Provider.mk 4 "openai" "ChatGPT" None None None.

Definition key (active : bool) : APIKey.t :=
  APIKey.mk 2 1 "main" "gAAAAAB-ciphertext" active 5%Z None.

Definition job : ImportJob.t :=
  ImportJob.mk 3 1 2 10%Z None "running" None None None 0 0 0.

Definition tables : Database :=
  mkDatabase [acme_provider; openai_provider] [key true] [job] [] [] [].

Definition tables_inactive_key : Database :=
  mkDatabase [acme_provider; openai_provider] [key false] [job] [] [] [].

Definition tables_no_key : Database :=
  mkDatabase [acme_provider; openai_provider] [] [job] [] [] [].

(** Conversation [a] of provider 1 is already stored. *)
Definition stored_a : Conversation.t :=
  Conversation.mk 50 1 (Some "a") (Some "first import") None None "api"
    None None false None.

Definition tables_with_a : Database :=
  mkDatabase [acme_provider; openai_provider] [key true] [job] [stored_a]
    [] [].

Definition world0 : World := mkWorld 100%Z 1000 0 [].

Definition message (role : string) (i : Z) : ProviderMessage.t :=
  ProviderMessage.mk None role "hello" None i None.

(** An attachment of the message with sequence index 0. *)
Definition attachment : ProviderArtifact.t :=
  ProviderArtifact.mk (Some "file-1") "file" (Some "notes.txt")
    (Some "text/plain") None "pending" None (Some 0%Z) None.

Definition summary (pcid : string) : ProviderConversationSummary.t :=
  ProviderConversationSummary.mk pcid None None None None None.

Definition detail (pcid : string) (role : string)
    : ProviderConversationDetail.t :=
  ProviderConversationDetail.mk pcid (Some "A title") None None
    [message role 0; message "assistant" 1; message "user" 2]
    [attachment] None.

(** The scenario of the specification: two summaries, [a] and [b];
    fetching [a] gives three messages and one artifact, fetching [b]
    times out. *)
Definition acme : ConversationProviderAdapter :=
  mkAdapter "acme"
    (fun _ _ r _ => (Ok [summary "a"; summary "b"], r))
    (fun _ pcid r _ =>
       if String.eqb pcid "b"
       then (Raise (Exc "TimeoutError" "timed out"), r)
       else (Ok (detail pcid "user"), r))
    (fun _ _ r _ => (Ok [], r)).

(** The same, but the first message of [a] has a role of 51 characters,
    one more than [String(50)] takes. *)
Definition long_role : string :=
  "a-role-name-that-is-exactly-fifty-one-characters-ok".

Definition acme_long_role : ConversationProviderAdapter :=
  mkAdapter "acme"
    (fun _ _ r _ => (Ok [summary "a"; summary "b"], r))
    (fun _ pcid r _ =>
       if String.eqb pcid "b"
       then (Raise (Exc "TimeoutError" "timed out"), r)
       else (Ok (detail pcid long_role), r))
    (fun _ _ r _ => (Ok [], r)).

Definition env : Env :=
  mkEnv (fun _ => Ok "sk-plain") (register acme default_registry)
        (fun _ => "2025-01-14T00:00:00").

Definition env_long_role : Env :=
  mkEnv (fun _ => Ok "sk-plain") (register acme_long_role default_registry)
        (fun _ => "2025-01-14T00:00:00").

(** The encryption key of the settings is not the one the stored
    ciphertext was made with: Fernet raises [InvalidToken]. *)
Definition env_wrong_key : Env :=
  mkEnv (fun _ => Raise (Exc "InvalidToken" ""))
        (register acme default_registry)
        (fun _ => "2025-01-14T00:00:00").

Definition job_data : ImportJobCreate.t :=
  ImportJobCreate.mk 1 2 None None.

(** Twelve summaries: [a], then [b] eleven times; every fetch of [b]
    times out. *)
Definition acme_flaky : ConversationProviderAdapter :=
  mkAdapter "acme"
    (fun _ _ r _ => (Ok (summary "a" :: repeat (summary "b") 11), r))
    (fun _ pcid r _ =>
       if String.eqb pcid "b"
       then (Raise (Exc "TimeoutError" "timed out"), r)
       else (Ok (detail pcid "user"), r))
    (fun _ _ r _ => (Ok [], r)).

Definition env_flaky : Env :=
  mkEnv (fun _ => Ok "sk-plain") (register acme_flaky default_registry)
        (fun _ => "2025-01-14T00:00:00").

End Sample.

From Stdlib Require Import Permutation Sorted.

(** ** Further notions for the properties of a run *)

(** The (provider, provider conversation id) pairs of the rows that
    have the id, in table order: the keys of [uq_provider_conversation]. *)
Fixpoint pairs (cs : list Conversation.t) : list (UUID * string) :=
  match cs with
  | [] => []
  | c :: rest =>
      match Conversation.provider_conversation_id c with
      | Some pcid => (Conversation.provider_id c, pcid) :: pairs rest
      | None => pairs rest
      end
  end.

(** Every message and every artifact belongs to a stored conversation. *)
Definition children_have_parents (d : Database) : Prop :=
  (forall m, In m (messages d) ->
     has_conversation d (Message.conversation_id m) = true) /\
  (forall a, In a (artifacts d) ->
     has_conversation d (Artifact.conversation_id a) = true).

(** A run only appends to the three content tables. *)
Definition appended (d d' : Database) (cs : list Conversation.t)
    (ms : list Message.t) (ars : list Artifact.t) : Prop :=
  conversations d' = conversations d ++ cs /\
  messages d' = messages d ++ ms /\
  artifacts d' = artifacts d ++ ars.

(** A conversation row as the run of [job] creates it. *)
Definition created_by (job : ImportJob.t) (c : Conversation.t) : Prop :=
  Conversation.provider_id c = ImportJob.provider_id job /\
  Conversation.import_job_id c = Some (ImportJob.id job) /\
  Conversation.origin c = "api" /\
  Conversation.archived c = false /\
  Conversation.provider_conversation_id c <> None.

Definition is_persisted (o : Outcome) : bool :=
  match o with Persisted _ => true | _ => false end.

(** ** More sample data *)

Module Fixture.

(** An adapter whose list call fails. *)
Definition acme_down : ConversationProviderAdapter :=
  mkAdapter "acme"
    (fun _ _ r _ => (Raise (Exc "ConnectError" "connection refused"), S r))
    (fun _ pcid r _ => (Ok (Sample.detail pcid "user"), r))
    (fun _ _ r _ => (Ok [], r)).

Definition env_down : Env :=
  mkEnv (fun _ => Ok "sk-plain") (register acme_down default_registry)
        (fun _ => "2025-01-14T00:00:00").

(** Only the built-in adapters are registered. *)
Definition env_builtin : Env :=
  mkEnv (fun _ => Ok "sk-plain") default_registry
        (fun _ => "2025-01-14T00:00:00").

(** The provider of the sample job is gone. *)
Definition tables_no_provider : Database :=
  mkDatabase [Sample.openai_provider] [Sample.key true] [Sample.job] [] [] [].

(** A job of the built-in provider [openai]. *)
Definition openai_job : ImportJob.t :=
  ImportJob.mk 6 4 2 10%Z None "running" None None None 0 0 0.

Definition tables_openai : Database :=
  mkDatabase [Sample.acme_provider; Sample.openai_provider]
    [Sample.key true] [Sample.job; openai_job] [Sample.stored_a] [] [].

(** Three summaries, all new, all well formed. *)
Definition acme_three : ConversationProviderAdapter :=
  mkAdapter "acme"
    (fun _ _ r _ =>
       (Ok [Sample.summary "x"; Sample.summary "y"; Sample.summary "x"], r))
    (fun _ pcid r _ => (Ok (Sample.detail pcid "user"), r))
    (fun _ _ r _ => (Ok [], r)).

Definition env_three : Env :=
  mkEnv (fun _ => Ok "sk-plain") (register acme_three default_registry)
        (fun _ => "2025-01-14T00:00:00").

(** A second job of the sample provider, with the same credential. *)
Definition second_job : ImportJob.t :=
  ImportJob.mk 7 1 2 20%Z None "running" None None None 0 0 0.

Definition tables_two_jobs : Database :=
  mkDatabase [Sample.acme_provider; Sample.openai_provider]
    [Sample.key true] [Sample.job; second_job] [] [] [].

End Fixture.

(** ** providers/registry.py: [list_providers] *)

(** [list(self._adapters.keys())]. *)
Definition list_registered (reg : ProviderRegistry) : list string :=
  map fst reg.

(** ** Ordering rows *)

(** A stable sort: [sorted(rows, key=...)], and the order an
    [ORDER BY] gives when ties keep the order of the table. *)
Fixpoint insert_sorted {A} (le : A -> A -> bool) (x : A) (l : list A)
    : list A :=
  match l with
  | [] => [x]
  | y :: rest =>
      if le x y then x :: y :: rest else y :: insert_sorted le x rest
  end.

Fixpoint sort_by {A} (le : A -> A -> bool) (l : list A) : list A :=
  match l with
  | [] => []
  | x :: rest => insert_sorted le x (sort_by le rest)
  end.

(** ** api/import_jobs.py: [get_import_job], [list_import_jobs] *)

(** Lines 190-199. *)
Definition get_import_job (job_id : UUID) : M ImportJob.t :=
  job_row <- query_import_job job_id ;;
  match job_row with
  | None => raise (HTTPException 404 "Import job not found")
  | Some job => ret job
  end.

(** [ImportJob.started_at.desc()]. *)
Definition started_later (a b : ImportJob.t) : bool :=
  (ImportJob.started_at b <=? ImportJob.started_at a)%Z.

(** Lines 175-187. A [UUID] is always truthy, so the filter applies
    whenever a provider id is given. *)
Definition list_import_jobs (provider_id : option UUID)
    : M (list ImportJob.t) := fun st =>
  let query := import_jobs (txn (db st)) in
  let query :=
    match provider_id with
    | Some pid => filter (fun j => ImportJob.provider_id j =? pid) query
    | None => query
    end in
  (Ok (sort_by started_later query), st).

(** The row [create_import_job] stores for [job_data], under [key] and
    with the server clock at [now]: lines 233-238. *)
Definition created_job (env : Env) (job_data : ImportJobCreate.t)
    (key : UUID) (now : datetime) : ImportJob.t :=
  ImportJob.mk key
    (ImportJobCreate.provider_id job_data)
    (ImportJobCreate.api_key_id job_data)
    now None "running"
    (match build_requested_range env job_data with
     | [] => None
     | _ :: _ => Some (build_requested_range env job_data)
     end)
    None None 0 0 0.

Definition with_import_job (d : Database) (j : ImportJob.t) : Database :=
  mkDatabase (providers d) (api_keys d) (import_jobs d ++ [j])
    (conversations d) (messages d) (artifacts d).

(** ** The database's answer to a write *)

(** What the database answers when a commit sends it a row: [None]
    when it takes the row, the exception it raises otherwise. Which
    values PostgreSQL and its driver refuse (lengths in characters,
    encodings, ...) and in what words is theirs to say, not the code's:
    the endpoints below are given the answer, and what is proved of them
    holds whatever it is. *)
Definition Verdict (Row : Type) : Type := Row -> option Exception.

(** ** api/api_keys.py *)

Module APIKeyUpdate.
Record t := mk {
  label : option string;
  is_active : option bool }.
End APIKeyUpdate.

(** [api_key.label = ...] and [api_key.is_active = ...]. *)
Definition with_label (k : APIKey.t) (v : string) : APIKey.t :=
  APIKey.mk (APIKey.id k) (APIKey.provider_id k) v (APIKey.key_encrypted k)
    (APIKey.is_active k) (APIKey.created_at k) (APIKey.last_used_at k).

Definition with_is_active (k : APIKey.t) (v : bool) : APIKey.t :=
  APIKey.mk (APIKey.id k) (APIKey.provider_id k) (APIKey.label k)
    (APIKey.key_encrypted k) v (APIKey.created_at k) (APIKey.last_used_at k).

(** Lines 60-63: the two optional assignments. *)
Definition apply_update (k : APIKey.t) (update_data : APIKeyUpdate.t)
    : APIKey.t :=
  let k1 := match APIKeyUpdate.label update_data with
            | Some v => with_label k v
            | None => k
            end in
  match APIKeyUpdate.is_active update_data with
  | Some v => with_is_active k1 v
  | None => k1
  end.

Module ApiKeys.

(** Lines 14-18: [list_api_keys]. *)
Definition list_api_keys : M (list APIKey.t) :=
  fun st => (Ok (api_keys (txn (db st))), st).

(** Lines 49-68: [update_api_key]. [verdict] is the answer of the
    database to the UPDATE that the commit flushes. *)
Definition update_api_key (verdict : Verdict APIKey.t) (api_key_id : UUID)
    (update_data : APIKeyUpdate.t) : M APIKey.t :=
  key_row <- query_api_key api_key_id ;;
  match key_row with
  | None => raise (HTTPException 404 "API key not found")
  | Some api_key =>
      let api_key' := apply_update api_key update_data in
      update_api_key api_key' ;;
      match verdict api_key' with
      | None => db_commit
      | Some e => raise e
      end ;;
      (* db.refresh(api_key) *)
      refreshed <- query_api_key api_key_id ;;
      match refreshed with
      | Some row => ret row
      | None => raise (Exc "InvalidRequestError" "Could not refresh instance")
      end
  end.

End ApiKeys.

Definition with_api_keys (d : Database) (rows : list APIKey.t) : Database :=
  mkDatabase (providers d) rows (import_jobs d) (conversations d)
    (messages d) (artifacts d).

(** A sample database: it refuses a label of more than 200 characters,
    as the [String(200)] of models.py has it. *)
Definition too_long : Exception :=
  Exc "DataError" "value too long for type character varying(200)".

Definition label_verdict : Verdict APIKey.t := fun k =>
  if 200 <? String.length (APIKey.label k) then Some too_long else None.

Definition long_label : string :=
  string_of_list_ascii (repeat "x"%char 201).

(** ** providers/anthropic_adapter.py: [import_manual_conversation] *)

(** A message dict of the manual import, read through [msg.get]: a
    field is [None] when the dict has no such key. *)
Module ManualMessage.
Record t := mk {
  role : option string;
  content : option string;
  metadata : option JSON }.
End ManualMessage.

(** Lines 119-129, one element of the comprehension. *)
Definition manual_message (idx : nat) (msg : ManualMessage.t)
    : ProviderMessage.t :=
  ProviderMessage.mk None
    (match ManualMessage.role msg with Some r => r | None => "user" end)
    (match ManualMessage.content msg with Some c => c | None => "" end)
    None (Z.of_nat idx) (ManualMessage.metadata msg).

(** Lines 99-139. [timestamp] prints [datetime.timestamp()]; the clock
    is read twice, for the id and for [started_at]. *)
Definition import_manual_conversation (timestamp : datetime -> string)
    (title : string) (msgs : list ManualMessage.t) (metadata : option JSON)
    : M ProviderConversationDetail.t :=
  let provider_messages := keyed manual_message 0 msgs in
  now <- datetime_now ;;
  now' <- datetime_now ;;
  ret (ProviderConversationDetail.mk
         (String.append "manual_" (timestamp now))
         (Some title) (Some now') None provider_messages []
         (Some (match metadata with Some m => m | None => [] end))).

(** ** models/models.py: projects *)

Module Project.
Record t := mk {
  id : UUID;
  name : string;
  description : option string;
  created_at : datetime }.
End Project.

Module ConversationProject.
Record t := mk {
  conversation_id : UUID;
  project_id : UUID }.
End ConversationProject.

(** The two tables of the schema that [run_import_job] never reads. *)
Record ProjectTables := mkProjectTables {
  projects : list Project.t;
  conversation_projects : list ConversationProject.t }.

(** ** api/schemas.py: the responses of [get_conversation] *)

Module MessageResponse.
Record t := mk {
  id : UUID;
  provider_message_id : option string;
  role : string;
  created_at : option datetime;
  sequence_index : Z;
  content : string;
  raw_metadata : option JSON }.

(** [MessageResponse.model_validate(m)]. *)
Definition model_validate (m : Message.t) : t :=
  mk (Message.id m) (Message.provider_message_id m) (Message.role m)
     (Message.created_at m) (Message.sequence_index m) (Message.content m)
     (Message.raw_metadata m).
End MessageResponse.

Module ArtifactResponse.
Record t := mk {
  id : UUID;
  artifact_type : string;
  provider_artifact_id : option string;
  filename : option string;
  mime_type : option string;
  storage_path : option string;
  download_status : string;
  download_error : option string;
  notes : option string }.

Definition model_validate (a : Artifact.t) : t :=
  mk (Artifact.id a) (Artifact.artifact_type a)
     (Artifact.provider_artifact_id a) (Artifact.filename a)
     (Artifact.mime_type a) (Artifact.storage_path a)
     (Artifact.download_status a) (Artifact.download_error a)
     (Artifact.notes a).
End ArtifactResponse.

(** [ProjectResponse] has the four fields of [Project], so a validated
    project is shown as the row itself. *)
Module ConversationDetail.
Record t := mk {
  id : UUID;
  provider_id : UUID;
  provider_conversation_id : option string;
  title : option string;
  started_at : option datetime;
  ended_at : option datetime;
  origin : string;
  archived : bool;
  messages : list MessageResponse.t;
  artifacts : list ArtifactResponse.t;
  projects : list Project.t }.
End ConversationDetail.

(** ** api/conversations.py: [get_conversation] *)

(** [conversation.messages] and [conversation.artifacts]: the rows of
    the relationship, in table order. *)
Definition messages_of (d : Database) (conversation_id : UUID)
    : list Message.t :=
  filter (fun m => Message.conversation_id m =? conversation_id) (messages d).

Definition artifacts_of (d : Database) (conversation_id : UUID)
    : list Artifact.t :=
  filter (fun a => Artifact.conversation_id a =? conversation_id)
         (artifacts d).

(** [key=lambda m: m.sequence_index]. *)
Definition by_sequence_index (a b : Message.t) : bool :=
  (Message.sequence_index a <=? Message.sequence_index b)%Z.

(** [[cp.project for cp in conversation.conversation_projects]]; a
    dangling assignment gives [None], which
    [ProjectResponse.model_validate] refuses. *)
Fixpoint projects_of (pt : ProjectTables)
    (cps : list ConversationProject.t) : Res (list Project.t) :=
  match cps with
  | [] => Ok []
  | cp :: rest =>
      match find (fun p => Project.id p =? ConversationProject.project_id cp)
                 (projects pt) with
      | None => Raise (Exc "ValidationError" "ProjectResponse: input is None")
      | Some p =>
          match projects_of pt rest with
          | Ok ps => Ok (p :: ps)
          | Raise e => Raise e
          end
      end
  end.

(** Lines 112-145. The endpoint only reads. *)
Definition get_conversation (d : Database) (pt : ProjectTables)
    (conversation_id : UUID) : Res ConversationDetail.t :=
  match find (fun c => Conversation.id c =? conversation_id)
             (conversations d) with
  | None => Raise (HTTPException 404 "Conversation not found")
  | Some conversation =>
      let msgs :=
        sort_by by_sequence_index
          (messages_of d (Conversation.id conversation)) in
      match projects_of pt
              (filter (fun cp =>
                         ConversationProject.conversation_id cp
                         =? Conversation.id conversation)
                      (conversation_projects pt)) with
      | Raise e => Raise e
      | Ok projects =>
          Ok (ConversationDetail.mk
                (Conversation.id conversation)
                (Conversation.provider_id conversation)
                (Conversation.provider_conversation_id conversation)
                (Conversation.title conversation)
                (Conversation.started_at conversation)
                (Conversation.ended_at conversation)
                (Conversation.origin conversation)
                (Conversation.archived conversation)
                (map MessageResponse.model_validate msgs)
                (map ArtifactResponse.model_validate
                     (artifacts_of d (Conversation.id conversation)))
                projects)
      end
  end.

(** Project tables whose assignments all point at stored projects. *)
Definition assignments_have_projects (pt : ProjectTables) : Prop :=
  forall cp, In cp (conversation_projects pt) ->
    find (fun p => Project.id p =? ConversationProject.project_id cp)
         (projects pt) <> None.

(** The adapter's view of a message that is read back. *)
Definition as_provider_message (r : MessageResponse.t) : ProviderMessage.t :=
  ProviderMessage.mk (MessageResponse.provider_message_id r)
    (MessageResponse.role r) (MessageResponse.content r)
    (MessageResponse.created_at r) (MessageResponse.sequence_index r)
    (MessageResponse.raw_metadata r).

Definition no_projects : ProjectTables := mkProjectTables [] [].

(** An adapter that gives the messages of a conversation out of order:
    sequence indices 2, 0, 1. *)
Definition shuffled_detail (pcid : string) : ProviderConversationDetail.t :=
  ProviderConversationDetail.mk pcid (Some "Shuffled") None None
    [Sample.message "assistant" 2; Sample.message "user" 0;
     Sample.message "assistant" 1]
    [Sample.attachment] None.

Definition acme_shuffled : ConversationProviderAdapter :=
  mkAdapter "acme"
    (fun _ _ r _ => (Ok [Sample.summary "s"], r))
    (fun _ pcid r _ => (Ok (shuffled_detail pcid), r))
    (fun _ _ r _ => (Ok [], r)).

(** ** Running an import again *)

(** [conv_detail] is stored in [d] as a conversation of [provider]. *)
Definition is_stored (provider : Provider.t) (d : Database)
    (conv_detail : ProviderConversationDetail.t) : bool :=
  existsb (same_conversation (Provider.id provider)
             (ProviderConversationDetail.provider_conversation_id
                conv_detail))
          (conversations d).

(** The flush of the rows of [conv_detail]'s messages and artifacts is
    refused, in some tables where their conversation is stored. *)
Definition children_refused (conv_detail : ProviderConversationDetail.t)
    : Prop :=
  exists d conversation_id key e d2 key2,
    has_conversation d conversation_id = true /\
    flush_rows (children conversation_id conv_detail) d key
    = (Raise e, d2, key2).

(** Nothing is left to store for a summary whose fetch answers
    [answer]: the fetch raises, the conversation is stored, or the flush
    of its rows is refused. *)
Definition settled (provider : Provider.t) (d : Database)
    (answer : Res ProviderConversationDetail.t) : Prop :=
  match answer with
  | Raise _ => True
  | Ok conv_detail =>
      is_stored provider d conv_detail = true \/
      children_refused conv_detail
  end.

(** The state a run leaves, and the state the next background task
    starts in: a new session on the committed tables, the world as it
    then is. *)
Definition after_run (env : Env) (job_id : UUID) (d : Database) (w : World)
    : St :=
  snd (run_import_job env job_id (start d w)).

Definition next_session (st : St) : St :=
  start (committed (db st)) (world st).

(** ** api/projects.py *)

Module ProjectCreate.
Record t := mk {
  name : string;
  description : option string }.
End ProjectCreate.

Module ProjectUpdate.
Record t := mk {
  name : option string;
  description : option string }.
End ProjectUpdate.

(** An endpoint of the project tables: its answer and the tables its
    request leaves committed. An endpoint that raises has committed
    nothing; its session is closed by [get_db]. *)
Definition Endpoint (A : Type) : Type :=
  ProjectTables -> Res A * ProjectTables.

(** Lines 13-17. *)
Definition list_projects : Endpoint (list Project.t) :=
  fun pt => (Ok (projects pt), pt).

(** The INSERT of a project row: the database's answer for its values,
    and [name] is [unique]. *)
Definition insert_project (verdict : Verdict Project.t) (pt : ProjectTables)
    (p : Project.t) : Res ProjectTables :=
  match verdict p with
  | Some e => Raise e
  | None =>
      if existsb (fun r => String.eqb (Project.name r) (Project.name p))
                 (projects pt) then
        Raise (IntegrityError "duplicate key: projects_name_key")
      else
        Ok (mkProjectTables (projects pt ++ [p]) (conversation_projects pt))
  end.

(** Lines 20-40. [key] is the id that [uuid4] draws and [now] the
    clock of the server, which fills [created_at]. *)
Definition create_project (verdict : Verdict Project.t)
    (project_data : ProjectCreate.t) (key : UUID) (now : datetime)
    : Endpoint Project.t := fun pt =>
  match find (fun p => String.eqb (Project.name p)
                         (ProjectCreate.name project_data))
             (projects pt) with
  | Some _ =>
      (Raise (HTTPException 400 "Project with this name already exists"), pt)
  | None =>
      let project :=
        Project.mk key (ProjectCreate.name project_data)
          (ProjectCreate.description project_data) now in
      match insert_project verdict pt project with
      | Raise e => (Raise e, pt)
      | Ok pt' => (Ok project, pt')
      end
  end.

Definition with_name (p : Project.t) (v : string) : Project.t :=
  Project.mk (Project.id p) v (Project.description p) (Project.created_at p).

Definition with_description (p : Project.t) (v : string) : Project.t :=
  Project.mk (Project.id p) (Project.name p) (Some v) (Project.created_at p).

Definition replace_project (p : Project.t) (rows : list Project.t)
    : list Project.t :=
  map (fun r => if Project.id r =? Project.id p then p else r) rows.

(** The UPDATE of a project row, by its primary key: the database's
    answer for its values, and [name] is [unique]. *)
Definition update_project_row (verdict : Verdict Project.t)
    (pt : ProjectTables) (p : Project.t) : Res ProjectTables :=
  match verdict p with
  | Some e => Raise e
  | None =>
      if existsb (fun r => String.eqb (Project.name r) (Project.name p) &&
                           negb (Project.id r =? Project.id p))
                 (projects pt) then
        Raise (IntegrityError "duplicate key: projects_name_key")
      else
        Ok (mkProjectTables (replace_project p (projects pt))
              (conversation_projects pt))
  end.

(** Lines 64-65: the optional assignment of the description. *)
Definition describe (project : Project.t) (update_data : ProjectUpdate.t)
    : Project.t :=
  match ProjectUpdate.description update_data with
  | Some v => with_description project v
  | None => project
  end.

(** Lines 67-70: the commit, and what is returned. *)
Definition commit_project (verdict : Verdict Project.t) (project : Project.t)
    : Endpoint Project.t := fun pt =>
  match update_project_row verdict pt project with
  | Raise e => (Raise e, pt)
  | Ok pt' => (Ok project, pt')
  end.

(** Lines 43-70. *)
Definition update_project (verdict : Verdict Project.t) (project_id : UUID)
    (update_data : ProjectUpdate.t) : Endpoint Project.t := fun pt =>
  match find (fun p => Project.id p =? project_id) (projects pt) with
  | None => (Raise (HTTPException 404 "Project not found"), pt)
  | Some project =>
      match ProjectUpdate.name update_data with
      | Some v =>
          match find (fun p => String.eqb (Project.name p) v &&
                               negb (Project.id p =? project_id))
                     (projects pt) with
          | Some _ =>
              (Raise (HTTPException 400
                        "Project with this name already exists"), pt)
          | None =>
              commit_project verdict
                (describe (with_name project v) update_data) pt
          end
      | None => commit_project verdict (describe project update_data) pt
      end
  end.

(** ** api/conversations.py: assigning projects *)

(** The filter of the two queries for an assignment, which is also the
    primary key of [conversation_projects]. *)
Definition same_assignment (conversation_id project_id : UUID)
    (cp : ConversationProject.t) : bool :=
  (ConversationProject.conversation_id cp =? conversation_id) &&
  (ConversationProject.project_id cp =? project_id).

(** The INSERT of an assignment: two foreign keys and the primary key. *)
Definition insert_conversation_project (d : Database) (pt : ProjectTables)
    (cp : ConversationProject.t) : Res ProjectTables :=
  if negb (has_conversation d (ConversationProject.conversation_id cp)) then
    Raise (IntegrityError
             "conversation_projects.conversation_id: no such conversation")
  else if negb (existsb (fun p => Project.id p
                                  =? ConversationProject.project_id cp)
                        (projects pt)) then
    Raise (IntegrityError "conversation_projects.project_id: no such project")
  else if existsb (same_assignment (ConversationProject.conversation_id cp)
                     (ConversationProject.project_id cp))
                  (conversation_projects pt) then
    Raise (IntegrityError "duplicate key: conversation_projects_pkey")
  else
    Ok (mkProjectTables (projects pt) (conversation_projects pt ++ [cp])).

(** Lines 148-182; [d] holds the conversations, which the endpoint only
    reads. *)
Definition assign_project_to_conversation (d : Database)
    (conversation_id project_id : UUID) : Endpoint string := fun pt =>
  match find (fun c => Conversation.id c =? conversation_id)
             (conversations d) with
  | None => (Raise (HTTPException 404 "Conversation not found"), pt)
  | Some _ =>
      match find (fun p => Project.id p =? project_id) (projects pt) with
      | None => (Raise (HTTPException 404 "Project not found"), pt)
      | Some _ =>
          match find (same_assignment conversation_id project_id)
                     (conversation_projects pt) with
          | Some _ => (Ok "Project already assigned to conversation", pt)
          | None =>
              match insert_conversation_project d pt
                      (ConversationProject.mk conversation_id project_id)
              with
              | Raise e => (Raise e, pt)
              | Ok pt' => (Ok "Project assigned successfully", pt')
              end
          end
      end
  end.

(** Lines 185-203: the DELETE is by primary key. *)
Definition remove_project_from_conversation
    (conversation_id project_id : UUID) : Endpoint string := fun pt =>
  match find (same_assignment conversation_id project_id)
             (conversation_projects pt) with
  | None => (Raise (HTTPException 404 "Project assignment not found"), pt)
  | Some _ =>
      (Ok "Project removed from conversation",
       mkProjectTables (projects pt)
         (filter (fun cp =>
                    negb (same_assignment conversation_id project_id cp))
                 (conversation_projects pt)))
  end.

(** Sample project tables. *)
Definition research : Project.t := Project.mk 60 "research" None 30%Z.

Definition archive : Project.t :=
  Project.mk 61 "archive" (Some "old chats") 31%Z.

Definition two_projects : ProjectTables :=
  mkProjectTables [research; archive] [ConversationProject.mk 50 61].

(** A sample database for the projects: it refuses a name of more than
    200 characters. *)
Definition name_verdict : Verdict Project.t := fun p =>
  if 200 <? String.length (Project.name p) then Some too_long else None.

(** * Properties *)

(** ** The session and the flush *)

Lemma flush_rows_app ps1 : forall ps2 d key,
  flush_rows (ps1 ++ ps2) d key =
  match flush_rows ps1 d key with
  | (Ok keys1, d1, key1) =>
      match flush_rows ps2 d1 key1 with
      | (Ok keys2, d2, key2) => (Ok (keys1 ++ keys2), d2, key2)
      | (Raise e, d2, key2) => (Raise e, d2, key2)
      end
  | (Raise e, d1, key1) => (Raise e, d1, key1)
  end.
Proof.
  induction ps1 as [|p ps1 IH]; intros ps2 d key; simpl.
  - destruct (flush_rows ps2 d key) as [[[keys|e] d2] key2]; reflexivity.
  - destruct (insert_pending d key p) as [d1|e]; [|reflexivity].
    rewrite IH.
    destruct (flush_rows ps1 d1 (S key)) as [[[keys1|e] d1'] key1]; [|reflexivity].
    destruct (flush_rows ps2 d1' key1) as [[[keys2|e] d2] key2]; reflexivity.
Qed.

(** A table the flushed objects do not belong to is left alone. *)
Lemma insert_pending_static p d key d1 :
  insert_pending d key p = Ok d1 ->
  providers d1 = providers d /\ api_keys d1 = api_keys d.
Proof.
  destruct p; simpl;
    [unfold insert_import_job | unfold insert_conversation
    | unfold insert_message | unfold insert_artifact];
    repeat match goal with
           | |- context [if ?b then _ else _] => destruct b
           end;
    intros H; inversion H; subst; simpl; auto.
Qed.

Lemma flush_messages cid msgs : forall d key,
  match flush_rows (map (new_message cid) msgs) d key with
  | (Ok keys, d2, key2) =>
      d2 = mkDatabase (providers d) (api_keys d) (import_jobs d)
             (conversations d)
             (messages d ++ keyed (message_row cid) key msgs) (artifacts d)
      /\ key2 = key + length msgs
  | (Raise _, _, _) => True
  end.
Proof.
  induction msgs as [|m msgs IH]; intros d key; simpl.
  - rewrite app_nil_r, Nat.add_0_r. destruct d; auto.
  - unfold insert_message.
    repeat match goal with
           | |- context [if ?b then _ else _] => destruct b; simpl; auto
           end.
    match goal with
    | |- context [flush_rows _ ?d1 ?k] => specialize (IH d1 k)
    end.
    destruct (flush_rows _ _ _) as [[[keys|e] d2] key2]; auto.
    destruct IH as [-> ->]; simpl. split; [|lia].
    rewrite <- app_assoc. reflexivity.
Qed.

Lemma flush_artifacts cid arts : forall d key,
  match flush_rows (map (new_artifact cid) arts) d key with
  | (Ok keys, d2, key2) =>
      d2 = mkDatabase (providers d) (api_keys d) (import_jobs d)
             (conversations d) (messages d)
             (artifacts d ++ keyed (artifact_row cid) key arts)
      /\ key2 = key + length arts
  | (Raise _, _, _) => True
  end.
Proof.
  induction arts as [|a arts IH]; intros d key; simpl.
  - rewrite app_nil_r, Nat.add_0_r. destruct d; auto.
  - unfold insert_artifact.
    repeat match goal with
           | |- context [if ?b then _ else _] => destruct b; simpl; auto
           end.
    match goal with
    | |- context [flush_rows _ ?d1 ?k] => specialize (IH d1 k)
    end.
    destruct (flush_rows _ _ _) as [[[keys|e] d2] key2]; auto.
    destruct IH as [-> ->]; simpl. split; [|lia].
    rewrite <- app_assoc. reflexivity.
Qed.

(** The rows a successful flush of one conversation's children adds. *)
Lemma flush_children cid conv_detail d key keys d2 key2 :
  flush_rows (children cid conv_detail) d key = (Ok keys, d2, key2) ->
  d2 = mkDatabase (providers d) (api_keys d) (import_jobs d) (conversations d)
         (messages d ++
          keyed (message_row cid) key
            (ProviderConversationDetail.messages conv_detail))
         (artifacts d ++
          keyed (artifact_row cid)
            (key + length (ProviderConversationDetail.messages conv_detail))
            (ProviderConversationDetail.artifacts conv_detail)).
Proof.
  unfold children. rewrite flush_rows_app.
  pose proof (flush_messages cid
                (ProviderConversationDetail.messages conv_detail) d key) as Hm.
  destruct (flush_rows (map (new_message cid) _) d key)
    as [[[keys1|e] d1] key1]; [|discriminate].
  destruct Hm as [-> ->].
  match goal with
  | |- context [flush_rows _ ?d1 ?k] =>
      pose proof (flush_artifacts cid
        (ProviderConversationDetail.artifacts conv_detail) d1 k) as Ha
  end.
  destruct (flush_rows (map (new_artifact cid) _) _ _)
    as [[[keys2|e] d2'] key2']; [|discriminate].
  destruct Ha as [-> ->]. simpl. intros H; inversion H; reflexivity.
Qed.

(** ** The two inner loops *)

Lemma add_messages_loop cid msgs : forall st,
  add_messages cid msgs st =
  (Ok tt,
   mkSt (world st)
     (mkSession (committed (db st)) (txn (db st))
        (pending (db st) ++ map (new_message cid) msgs))
     (mkLocals (conversations_count (frame st))
        (messages_count (frame st) + length msgs)
        (artifacts_count (frame st)) (errors (frame st)))).
Proof.
  unfold add_messages.
  induction msgs as [|m msgs IH]; intros [w [c t p] [cc mc ac er]]; simpl.
  - rewrite app_nil_r, Nat.add_0_r. reflexivity.
  - unfold bind at 1. unfold bind at 1. simpl. rewrite IH. simpl.
    rewrite <- app_assoc, Nat.add_succ_r. reflexivity.
Qed.

Lemma add_artifacts_loop cid arts : forall st,
  add_artifacts cid arts st =
  (Ok tt,
   mkSt (world st)
     (mkSession (committed (db st)) (txn (db st))
        (pending (db st) ++ map (new_artifact cid) arts))
     (mkLocals (conversations_count (frame st)) (messages_count (frame st))
        (artifacts_count (frame st) + length arts) (errors (frame st)))).
Proof.
  unfold add_artifacts.
  induction arts as [|a arts IH]; intros [w [c t p] [cc mc ac er]]; simpl.
  - rewrite app_nil_r, Nat.add_0_r. reflexivity.
  - unfold bind at 1. unfold bind at 1. simpl. rewrite IH. simpl.
    rewrite <- app_assoc, Nat.add_succ_r. reflexivity.
Qed.

(** ** One turn of the loop *)

Section Turn.

Variable adapter : ConversationProviderAdapter.
Variable api_key : string.
Variable provider : Provider.t.
Variable job : ImportJob.t.
Variable summary : ProviderConversationSummary.t.

Let pcid := ProviderConversationSummary.provider_conversation_id summary.

(** What the body of the inner [try] does, case by case. *)
Lemma import_conversation_body_cases st :
  pending (db st) = [] ->
  let w := world st in
  let s := db st in
  let key := next_uuid w in
  match fetch_conversation adapter api_key pcid (remote w) (clock w) with
  | (Raise e, r') =>
      import_conversation_body adapter api_key provider job summary st =
      (Raise e, mkSt (fetched api_key pcid w r' key) s (frame st))
  | (Ok conv_detail, r') =>
      match find (same_conversation (Provider.id provider)
                    (ProviderConversationDetail.provider_conversation_id
                       conv_detail))
                 (conversations (txn s)) with
      | Some _ =>
          import_conversation_body adapter api_key provider job summary st =
          (Ok tt, mkSt (fetched api_key pcid w r' key) s (frame st))
      | None =>
          match insert_conversation (txn s)
                  (conversation_row provider job conv_detail key) with
          | Raise e =>
              import_conversation_body adapter api_key provider job summary st =
              (Raise e, mkSt (fetched api_key pcid w r' (S key))
                          (mkSession (committed s) (txn s) []) (frame st))
          | Ok d1 =>
              match flush_rows (children key conv_detail) d1 (S key) with
              | (Raise e, d2, key2) =>
                  import_conversation_body adapter api_key provider job
                    summary st =
                  (Raise e, mkSt (fetched api_key pcid w r' key2)
                              (mkSession (committed s) d2 [])
                              (add_counts (frame st) conv_detail))
              | (Ok _, d2, key2) =>
                  import_conversation_body adapter api_key provider job
                    summary st =
                  (Ok tt, mkSt (fetched api_key pcid w r' key2) (mkSession d2 d2 [])
                            (add_counts (frame st) conv_detail))
              end
          end
      end
  end.
Proof.
  destruct st as [w [c t p] f]. simpl. intros ->.
  unfold import_conversation_body. fold pcid.
  unfold bind, await, query_conversation, db_add, db_flush, modify_frame,
    new_conversation, fetched, set_world, set_db, set_frame.
  simpl.
  destruct (fetch_conversation adapter api_key pcid (remote w) (clock w))
    as [[conv_detail|e] r']; [|reflexivity].
  simpl.
  destruct (find _ (conversations t)) as [c0|]; [reflexivity|].
  simpl. unfold insert_pending.
  destruct (insert_conversation t
              (conversation_row provider job conv_detail (next_uuid w)))
    as [d1|e]; [|reflexivity].
  simpl.
  rewrite add_messages_loop. simpl.
  rewrite add_artifacts_loop. simpl.
  unfold db_commit, db_commit_keys, db_flush, set_db. simpl.
  fold (children (next_uuid w) conv_detail).
  unfold add_counts, incr_conversations. simpl.
  destruct (flush_rows (children (next_uuid w) conv_detail) d1 (S (next_uuid w)))
    as [[[keys|e] d2] key2]; reflexivity.
Qed.

Lemma insert_conversation_rows d c d1 :
  insert_conversation d c = Ok d1 ->
  d1 = mkDatabase (providers d) (api_keys d) (import_jobs d)
         (conversations d ++ [c]) (messages d) (artifacts d).
Proof.
  unfold insert_conversation.
  repeat match goal with
         | |- context [if ?b then _ else _] => destruct b
         end;
    intros H; inversion H; reflexivity.
Qed.

(** One turn never raises; it logs one fetch, leaves the session clean,
    and does what its outcome says. *)
Lemma import_conversation_spec st :
  clean (db st) ->
  exists st',
    import_conversation adapter api_key provider job summary st = (Ok tt, st')
    /\ clock (world st') = clock (world st)
    /\ requests (world st') =
       requests (world st) ++ [FetchConversation api_key pcid]
    /\ clean (db st')
    /\ turn_effect provider job pcid
         (item_outcome adapter api_key provider job summary st) st st'.
Proof.
  intros [Htxn Hpend].
  pose proof (import_conversation_body_cases st Hpend) as Hbody.
  unfold import_conversation, try_except, item_outcome. fold pcid.
  cbv zeta in Hbody.
  destruct (fetch_conversation adapter api_key pcid (remote (world st))
              (clock (world st))) as [[conv_detail|e] r'].
  2:{ rewrite Hbody. eexists; split; [reflexivity|].
      destruct st as [w [c t p] f]; simpl in *; subst.
      repeat split. }
  destruct (find _ (conversations (txn (db st)))) as [c0|].
  { rewrite Hbody. eexists; split; [reflexivity|].
    destruct st as [w [c t p] f]; simpl in *; subst. repeat split. }
  destruct (insert_conversation (txn (db st)) _) as [d1|e] eqn:Hins.
  2:{ rewrite Hbody. eexists; split; [reflexivity|].
      destruct st as [w [c t p] f]; simpl in *; subst. repeat split. }
  destruct (flush_rows (children (next_uuid (world st)) conv_detail) d1 _)
    as [[[keys|e] d2] key2] eqn:Hflush.
  2:{ rewrite Hbody. eexists; split; [reflexivity|].
      destruct st as [w [c t p] f]; simpl in *; subst. repeat split. }
  rewrite Hbody. eexists; split; [reflexivity|].
  apply flush_children in Hflush. apply insert_conversation_rows in Hins.
  destruct st as [w [c t p] f]; simpl in *; subst. repeat split.
Qed.

End Turn.

(** ** The loop over the summaries *)

Section Loop.

Variable adapter : ConversationProviderAdapter.
Variable api_key : string.
Variable provider : Provider.t.
Variable job : ImportJob.t.

Let turn := import_conversation adapter api_key provider job.
Let fetch_of (summary : ProviderConversationSummary.t) : Request :=
  FetchConversation api_key
    (ProviderConversationSummary.provider_conversation_id summary).

(** No turn ends the loop: every summary gets its turn. *)
Lemma for_each_turns summaries : forall st,
  clean (db st) ->
  for_each summaries turn st =
    (Ok tt, after_turns adapter api_key provider job summaries st)
  /\ clean (db (after_turns adapter api_key provider job summaries st)).
Proof.
  induction summaries as [|summary rest IH]; intros st Hclean; simpl.
  - split; [reflexivity|assumption].
  - destruct (import_conversation_spec adapter api_key provider job summary
                st Hclean) as (st' & Hrun & _ & _ & Hclean' & _).
    unfold bind, turn. rewrite Hrun. simpl.
    apply IH. assumption.
Qed.

(** A property every turn keeps is kept by the loop. *)
Lemma after_turns_invariant (Inv : St -> Prop) :
  (forall summary st, clean (db st) -> Inv st ->
     Inv (snd (turn summary st))) ->
  forall summaries st, clean (db st) -> Inv st ->
    Inv (after_turns adapter api_key provider job summaries st).
Proof.
  intros Hstep summaries.
  induction summaries as [|summary rest IH]; intros st Hclean Hinv; simpl.
  - assumption.
  - destruct (import_conversation_spec adapter api_key provider job summary
                st Hclean) as (st' & Hrun & _ & _ & Hclean' & _).
    apply IH.
    + rewrite Hrun. assumption.
    + apply Hstep; assumption.
Qed.

(** The adapter is asked for every summary, in the order of the list. *)
Lemma after_turns_requests summaries : forall st,
  clean (db st) ->
  requests (world (after_turns adapter api_key provider job summaries st)) =
  requests (world st) ++ map fetch_of summaries.
Proof.
  induction summaries as [|summary rest IH]; intros st Hclean; simpl.
  - rewrite app_nil_r. reflexivity.
  - destruct (import_conversation_spec adapter api_key provider job summary
                st Hclean) as (st' & Hrun & _ & Hreq & Hclean' & _).
    rewrite Hrun. simpl. rewrite IH by assumption.
    rewrite Hreq, <- app_assoc. reflexivity.
Qed.

Lemma after_turns_clock summaries : forall st,
  clean (db st) ->
  clock (world (after_turns adapter api_key provider job summaries st)) =
  clock (world st).
Proof.
  induction summaries as [|summary rest IH]; intros st Hclean; simpl.
  - reflexivity.
  - destruct (import_conversation_spec adapter api_key provider job summary
                st Hclean) as (st' & Hrun & Hclock & _ & Hclean' & _).
    rewrite Hrun. simpl. rewrite IH by assumption. assumption.
Qed.

Lemma outcomes_length summaries : forall st,
  length (outcomes adapter api_key provider job summaries st) =
  length summaries.
Proof.
  induction summaries as [|summary rest IH]; intros st; simpl; auto.
Qed.

Lemma turn_effect_static pcid o st st' :
  turn_effect provider job pcid o st st' ->
  providers (committed (db st')) = providers (committed (db st)) /\
  api_keys (committed (db st')) = api_keys (committed (db st)) /\
  import_jobs (committed (db st')) = import_jobs (committed (db st)).
Proof.
  destruct o; simpl; intros [-> _]; auto.
Qed.

Lemma turn_effect_errors pcid o st st' :
  turn_effect provider job pcid o st st' ->
  errors (frame st') =
  errors (frame st) ++
  match outcome_error o with
  | Some e => [item_error pcid e]
  | None => []
  end.
Proof.
  destruct o; simpl; intros [_ ->]; simpl;
    rewrite ?app_nil_r; reflexivity.
Qed.

Lemma turn_effect_count pcid o st st' :
  turn_effect provider job pcid o st st' ->
  conversations_count (frame st') =
  conversations_count (frame st) + (if outcome_counted o then 1 else 0).
Proof.
  destruct o; simpl; intros [_ ->]; simpl; lia.
Qed.

(** The tables the loop never writes. *)
Lemma after_turns_static summaries : forall st,
  clean (db st) ->
  let st' := after_turns adapter api_key provider job summaries st in
  providers (committed (db st')) = providers (committed (db st)) /\
  api_keys (committed (db st')) = api_keys (committed (db st)) /\
  import_jobs (committed (db st')) = import_jobs (committed (db st)).
Proof.
  induction summaries as [|summary rest IH]; intros st Hclean; simpl.
  - auto.
  - destruct (import_conversation_spec adapter api_key provider job summary
                st Hclean) as (st' & Hrun & _ & _ & Hclean' & Heff).
    rewrite Hrun. simpl.
    destruct (IH st' Hclean') as (-> & -> & ->).
    eapply turn_effect_static; eassumption.
Qed.

(** The error list grows by one entry per failed turn, in order. *)
Lemma after_turns_errors summaries : forall st,
  clean (db st) ->
  errors (frame (after_turns adapter api_key provider job summaries st)) =
  errors (frame st) ++
  error_entries summaries (outcomes adapter api_key provider job summaries st).
Proof.
  induction summaries as [|summary rest IH]; intros st Hclean; simpl.
  - rewrite app_nil_r. reflexivity.
  - destruct (import_conversation_spec adapter api_key provider job summary
                st Hclean) as (st' & Hrun & _ & _ & Hclean' & Heff).
    rewrite Hrun. simpl. rewrite IH by assumption.
    rewrite (turn_effect_errors _ _ _ _ Heff).
    destruct (outcome_error _); simpl; rewrite <- app_assoc; reflexivity.
Qed.

(** [conversations_count] counts the turns that got past the INSERT of
    the conversation row. *)
Lemma after_turns_count summaries : forall st,
  clean (db st) ->
  conversations_count
    (frame (after_turns adapter api_key provider job summaries st)) =
  conversations_count (frame st) +
  length (filter outcome_counted
            (outcomes adapter api_key provider job summaries st)).
Proof.
  induction summaries as [|summary rest IH]; intros st Hclean; simpl.
  - lia.
  - destruct (import_conversation_spec adapter api_key provider job summary
                st Hclean) as (st' & Hrun & _ & _ & Hclean' & Heff).
    rewrite Hrun. simpl. rewrite IH by assumption.
    rewrite (turn_effect_count _ _ _ _ Heff).
    destruct (outcome_counted _); simpl; lia.
Qed.

Lemma error_entries_length summaries : forall os,
  length os = length summaries ->
  length (error_entries summaries os) = length (filter is_failure os).
Proof.
  induction summaries as [|summary rest IH]; intros [|o os] Hlen;
    simpl in *; try discriminate; auto.
  unfold is_failure at 1.
  destruct (outcome_error o); simpl; rewrite IH by lia; reflexivity.
Qed.

End Loop.

(** ** The two ways a run writes its job row *)

Lemma fail_job_spec job details st :
  pending (db st) = [] ->
  fail_job job details st =
  (Ok tt,
   mkSt (tick 1 (world st))
     (SessionLocal
        (failed_tables job details (clock (world st)) (txn (db st))))
     (frame st)).
Proof.
  destruct st as [w [c t p] f]. simpl. intros ->. reflexivity.
Qed.

Lemma finish_job_spec job api_key_record st :
  pending (db st) = [] ->
  finish_job job api_key_record st =
  (Ok tt,
   mkSt (tick 2 (world st))
     (SessionLocal
        (finished_tables job api_key_record (frame st) (clock (world st))
           (txn (db st))))
     (frame st)).
Proof.
  destruct st as [w [c t p] f]. simpl. intros ->.
  unfold finish_job, bind, get_frame, datetime_now, update_job,
    update_api_key, db_commit, db_commit_keys, db_flush, set_world, set_db,
    tick, SessionLocal, finished_tables.
  simpl.
  replace (clock w + 1 + 1)%Z with (clock w + 2)%Z by lia.
  reflexivity.
Qed.

Lemma get_adapter_class reg name e :
  get_adapter reg name = Raise e -> exc_class e = "ValueError".
Proof.
  unfold get_adapter. destruct (lookup_adapter name reg); [discriminate|].
  intros H; inversion H; reflexivity.
Qed.

(** ** The seven ways through [run_import_job] *)

Section Paths.

Variable env : Env.
Variable d : Database.
Variable w : World.
Variable job_id : UUID.

Let find_job := find (fun j => ImportJob.id j =? job_id) (import_jobs d).
Let find_key (job : ImportJob.t) :=
  find (fun k => APIKey.id k =? ImportJob.api_key_id job) (api_keys d).
Let find_provider (job : ImportJob.t) :=
  find (fun p => Provider.id p =? ImportJob.provider_id job) (providers d).

Lemma run_no_job :
  find_job = None ->
  run_import_job env job_id (start d w) = (Ok tt, start d w).
Proof.
  unfold find_job. intros H.
  unfold run_import_job, try_finally, bind, query_import_job. simpl.
  rewrite H. reflexivity.
Qed.

Lemma run_no_key job :
  find_job = Some job ->
  find_key job = None ->
  run_import_job env job_id (start d w) =
  (Ok tt,
   mkSt (tick 1 w)
     (SessionLocal (failed_tables job "API key not found" (clock w) d))
     (mkLocals 0 0 0 [])).
Proof.
  unfold find_job, find_key. intros Hj Hk.
  unfold run_import_job, try_finally, bind, query_import_job, query_api_key.
  simpl. rewrite Hj. simpl. rewrite Hk.
  rewrite fail_job_spec by reflexivity. reflexivity.
Qed.

Lemma run_decrypt_raises job api_key_record e :
  find_job = Some job ->
  find_key job = Some api_key_record ->
  decrypt_api_key env (APIKey.key_encrypted api_key_record) = Raise e ->
  run_import_job env job_id (start d w) = (Raise e, start d w).
Proof.
  unfold find_job, find_key. intros Hj Hk Hd.
  unfold run_import_job, try_finally, bind, query_import_job, query_api_key,
    lift.
  simpl. rewrite Hj. simpl. rewrite Hk. rewrite Hd. reflexivity.
Qed.

Lemma run_no_provider job api_key_record api_key :
  find_job = Some job ->
  find_key job = Some api_key_record ->
  decrypt_api_key env (APIKey.key_encrypted api_key_record) = Ok api_key ->
  find_provider job = None ->
  run_import_job env job_id (start d w) =
  (Ok tt,
   mkSt (tick 1 w)
     (SessionLocal (failed_tables job "Provider not found" (clock w) d))
     (mkLocals 0 0 0 [])).
Proof.
  unfold find_job, find_key, find_provider. intros Hj Hk Hd Hp.
  unfold run_import_job, try_finally, bind, query_import_job, query_api_key,
    query_provider, lift.
  simpl. rewrite Hj. simpl. rewrite Hk. rewrite Hd. simpl. rewrite Hp.
  rewrite fail_job_spec by reflexivity. reflexivity.
Qed.

Lemma run_no_adapter job api_key_record api_key provider e :
  find_job = Some job ->
  find_key job = Some api_key_record ->
  decrypt_api_key env (APIKey.key_encrypted api_key_record) = Ok api_key ->
  find_provider job = Some provider ->
  get_adapter (provider_registry env) (Provider.name provider) = Raise e ->
  run_import_job env job_id (start d w) =
  (Ok tt,
   mkSt (tick 1 w)
     (SessionLocal (failed_tables job (str e) (clock w) d))
     (mkLocals 0 0 0 [])).
Proof.
  unfold find_job, find_key, find_provider. intros Hj Hk Hd Hp Ha.
  pose proof (get_adapter_class _ _ _ Ha) as Hcls.
  unfold run_import_job, try_finally, bind, query_import_job, query_api_key,
    query_provider, lift, try_except_class.
  simpl. rewrite Hj. simpl. rewrite Hk. rewrite Hd. simpl. rewrite Hp.
  rewrite Ha, Hcls, String.eqb_refl.
  rewrite fail_job_spec by reflexivity. reflexivity.
Qed.

Lemma run_list_raises job api_key_record api_key provider adapter e remote' :
  Resolved env d job_id job api_key_record api_key provider adapter ->
  list_conversations adapter api_key
    (build_options (ImportJob.requested_range job)) (remote w) (clock w)
    = (Raise e, remote') ->
  run_import_job env job_id (start d w) =
  (Ok tt,
   let st1 := after_list api_key
                (build_options (ImportJob.requested_range job)) remote' d w in
   mkSt (tick 1 (world st1))
     (SessionLocal (failed_tables job (str e) (clock w) d))
     (mkLocals 0 0 0 [])).
Proof.
  intros (Hj & Hk & Hd & Hp & Ha) Hl.
  unfold run_import_job, try_finally, bind, query_import_job, query_api_key,
    query_provider, lift, try_except_class.
  simpl. rewrite Hj. simpl. rewrite Hk. rewrite Hd. simpl. rewrite Hp.
  rewrite Ha. simpl.
  unfold import_all, bind, modify_frame, try_except, await. simpl.
  rewrite Hl. cbv beta iota zeta.
  rewrite fail_job_spec by reflexivity. reflexivity.
Qed.

Lemma run_list_ok job api_key_record api_key provider adapter summaries
    remote' :
  Resolved env d job_id job api_key_record api_key provider adapter ->
  list_conversations adapter api_key
    (build_options (ImportJob.requested_range job)) (remote w) (clock w)
    = (Ok summaries, remote') ->
  run_import_job env job_id (start d w) =
  (Ok tt,
   let st2 := after_turns adapter api_key provider job summaries
                (after_list api_key
                   (build_options (ImportJob.requested_range job))
                   remote' d w) in
   mkSt (tick 2 (world st2))
     (SessionLocal
        (finished_tables job api_key_record (frame st2) (clock w)
           (committed (db st2))))
     (frame st2)).
Proof.
  intros (Hj & Hk & Hd & Hp & Ha) Hl.
  unfold run_import_job, try_finally, bind, query_import_job, query_api_key,
    query_provider, lift, try_except_class.
  simpl. rewrite Hj. simpl. rewrite Hk. rewrite Hd. simpl. rewrite Hp.
  rewrite Ha. simpl.
  unfold import_all, bind, modify_frame, try_except, await. simpl.
  rewrite Hl. cbv beta iota zeta.
  set (st1 := after_list api_key
                (build_options (ImportJob.requested_range job)) remote' d w).
  assert (Hclean : clean (db st1)) by (split; reflexivity).
  destruct (for_each_turns adapter api_key provider job summaries st1 Hclean)
    as [Hloop [Htxn Hpend]].
  change (set_world (set_frame (start d w) _) _) with st1.
  rewrite Hloop.
  rewrite finish_job_spec by assumption.
  rewrite Htxn.
  rewrite (after_turns_clock adapter api_key provider job summaries st1 Hclean).
  reflexivity.
Qed.

End Paths.

(** ** Every run takes one of the seven paths *)

Lemma run_path env d w job_id :
  RunPath env d w job_id (run_import_job env job_id (start d w)).
Proof.
  destruct (find (fun j => ImportJob.id j =? job_id) (import_jobs d))
    as [job|] eqn:Hj.
  2:{ rewrite run_no_job by assumption. constructor; assumption. }
  destruct (find (fun k => APIKey.id k =? ImportJob.api_key_id job)
              (api_keys d)) as [api_key_record|] eqn:Hk.
  2:{ rewrite (run_no_key _ _ _ _ job) by assumption.
      apply PathNoKey; assumption. }
  destruct (decrypt_api_key env (APIKey.key_encrypted api_key_record))
    as [api_key|e] eqn:Hd.
  2:{ rewrite (run_decrypt_raises _ _ _ _ job api_key_record e) by assumption.
      eapply PathDecryptRaises; eassumption. }
  destruct (find (fun p => Provider.id p =? ImportJob.provider_id job)
              (providers d)) as [provider|] eqn:Hp.
  2:{ rewrite (run_no_provider _ _ _ _ job api_key_record api_key)
        by assumption.
      eapply PathNoProvider; eassumption. }
  destruct (get_adapter (provider_registry env) (Provider.name provider))
    as [adapter|e] eqn:Ha.
  2:{ rewrite (run_no_adapter _ _ _ _ job api_key_record api_key provider e)
        by assumption.
      eapply PathNoAdapter; eassumption. }
  assert (Hres : Resolved env d job_id job api_key_record api_key provider
                   adapter) by (repeat split; assumption).
  destruct (list_conversations adapter api_key
              (build_options (ImportJob.requested_range job)) (remote w)
              (clock w)) as [[summaries|e] remote'] eqn:Hl.
  - rewrite (run_list_ok _ _ _ _ _ _ _ _ _ _ _ Hres Hl).
    eapply PathListOk; eassumption.
  - rewrite (run_list_raises _ _ _ _ _ _ _ _ _ _ _ Hres Hl).
    eapply PathListRaises; eassumption.
Qed.

(** ** Reading a row back after it was written *)

Lemma find_replace_job rows job job' job_id :
  find (fun j => ImportJob.id j =? job_id) rows = Some job ->
  ImportJob.id job' = ImportJob.id job ->
  find (fun j => ImportJob.id j =? job_id) (replace_job job' rows) = Some job'.
Proof.
  intros Hfind Hid.
  assert (Hjob : ImportJob.id job = job_id).
  { apply find_some in Hfind. destruct Hfind as [_ H].
    apply Nat.eqb_eq in H. exact H. }
  induction rows as [|r rows IH]; simpl in *; [discriminate|].
  destruct (ImportJob.id r =? job_id) eqn:Hr.
  - apply Nat.eqb_eq in Hr.
    replace (ImportJob.id r =? ImportJob.id job') with true
      by (symmetry; apply Nat.eqb_eq; congruence).
    replace (ImportJob.id job' =? job_id) with true
      by (symmetry; apply Nat.eqb_eq; congruence).
    reflexivity.
  - replace (ImportJob.id r =? ImportJob.id job') with false
      by (rewrite Hid, Hjob; symmetry; exact Hr).
    rewrite Hr. apply IH. assumption.
Qed.

Lemma find_replace_api_key rows k k' key_id :
  find (fun r => APIKey.id r =? key_id) rows = Some k ->
  APIKey.id k' = APIKey.id k ->
  find (fun r => APIKey.id r =? key_id) (replace_api_key k' rows) = Some k'.
Proof.
  intros Hfind Hid.
  assert (Hk : APIKey.id k = key_id).
  { apply find_some in Hfind. destruct Hfind as [_ H].
    apply Nat.eqb_eq in H. exact H. }
  induction rows as [|r rows IH]; simpl in *; [discriminate|].
  destruct (APIKey.id r =? key_id) eqn:Hr.
  - apply Nat.eqb_eq in Hr.
    replace (APIKey.id r =? APIKey.id k') with true
      by (symmetry; apply Nat.eqb_eq; congruence).
    replace (APIKey.id k' =? key_id) with true
      by (symmetry; apply Nat.eqb_eq; congruence).
    reflexivity.
  - replace (APIKey.id r =? APIKey.id k') with false
      by (rewrite Hid, Hk; symmetry; exact Hr).
    rewrite Hr. apply IH. assumption.
Qed.

Lemma find_replace_api_key_other rows k' key_id :
  APIKey.id k' <> key_id ->
  find (fun r => APIKey.id r =? key_id) (replace_api_key k' rows) =
  find (fun r => APIKey.id r =? key_id) rows.
Proof.
  intros Hne.
  induction rows as [|r rows IH]; simpl; [reflexivity|].
  destruct (APIKey.id r =? APIKey.id k') eqn:Hr.
  - apply Nat.eqb_eq in Hr.
    replace (APIKey.id k' =? key_id) with false
      by (symmetry; apply Nat.eqb_neq; assumption).
    replace (APIKey.id r =? key_id) with false
      by (symmetry; apply Nat.eqb_neq; congruence).
    assumption.
  - destruct (APIKey.id r =? key_id); [reflexivity|assumption].
Qed.

(** The job row a failure block leaves. *)
Lemma job_after_failed d w job_id job details :
  find (fun j => ImportJob.id j =? job_id) (import_jobs d) = Some job ->
  job_after (failed_state job details w d) job_id =
  Some (ImportJob.set_failed job details (clock w)).
Proof.
  intros Hj. unfold job_after, failed_state. simpl.
  apply find_replace_job with (job := job); [assumption|reflexivity].
Qed.

(** ** Counting the outcomes *)

(** Each summary ends in exactly one way. *)
Lemma outcomes_partition os :
  length os + length (filter is_failure_after_insert os) =
  length (filter outcome_counted os) + length (filter is_duplicate os) +
  length (filter is_failure os).
Proof.
  induction os as [|o os IH]; simpl; [reflexivity|].
  destruct o; simpl; lia.
Qed.

Lemma error_entries_nil summaries : forall os,
  length os = length summaries ->
  (error_entries summaries os = [] <-> filter is_failure os = []).
Proof.
  intros os Hlen.
  pose proof (error_entries_length summaries os Hlen) as H.
  split; intros E; rewrite E in H; simpl in H.
  - destruct (filter is_failure os); [reflexivity|discriminate].
  - destruct (error_entries summaries os); [reflexivity|discriminate].
Qed.

(** ** A run that gets past the list call *)

Section Finished.

Variable env : Env.
Variable d : Database.
Variable w : World.
Variable job_id : UUID.
Variable job : ImportJob.t.
Variable api_key_record : APIKey.t.
Variable api_key : string.
Variable provider : Provider.t.
Variable adapter : ConversationProviderAdapter.
Variable summaries : list ProviderConversationSummary.t.
Variable remote' : nat.

Let options := build_options (ImportJob.requested_range job).
Let st1 := after_list api_key options remote' d w.
Let st2 := after_turns adapter api_key provider job summaries st1.
Let os := outcomes adapter api_key provider job summaries st1.

Hypothesis Hres :
  Resolved env d job_id job api_key_record api_key provider adapter.
Hypothesis Hlist :
  list_conversations adapter api_key options (remote w) (clock w)
  = (Ok summaries, remote').

Lemma st1_clean : clean (db st1).
Proof. split; reflexivity. Qed.

(** The run returns, and its final state is read off the loop's. *)
Lemma run_finished :
  exists st',
    run_import_job env job_id (start d w) = (Ok tt, st') /\
    frame st' = frame st2 /\
    requests (world st') =
      requests w ++
      ListConversations api_key options ::
      map (fun s =>
             FetchConversation api_key
               (ProviderConversationSummary.provider_conversation_id s))
          summaries /\
    errors (frame st') = error_entries summaries os /\
    conversations_count (frame st') = length (filter outcome_counted os) /\
    job_after st' job_id = Some (finished_job job (frame st') (clock w)) /\
    api_keys (committed (db st')) =
      replace_api_key
        (APIKey.set_last_used_at api_key_record (Some (clock w + 1)%Z))
        (api_keys d) /\
    conversations (committed (db st')) = conversations (committed (db st2)) /\
    messages (committed (db st')) = messages (committed (db st2)) /\
    artifacts (committed (db st')) = artifacts (committed (db st2)).
Proof.
  pose proof st1_clean as Hclean.
  eexists. split; [apply (run_list_ok _ _ _ _ _ _ _ _ _ _ _ Hres Hlist)|].
  fold options. fold st1. fold st2. cbv zeta.
  destruct (after_turns_static adapter api_key provider job summaries st1
              Hclean) as (Hprov & Hkeys & Hjobs).
  fold st2 in Hprov, Hkeys, Hjobs. simpl in Hprov, Hkeys, Hjobs.
  repeat split.
  - simpl.
    fold st2.
    unfold st2.
    rewrite after_turns_requests by assumption.
    simpl. rewrite <- app_assoc. reflexivity.
  - simpl. unfold st2.
    rewrite after_turns_errors by assumption. reflexivity.
  - simpl. unfold st2.
    rewrite after_turns_count by assumption. reflexivity.
  - unfold job_after. simpl. rewrite Hjobs.
    destruct Hres as (Hj & _).
    apply find_replace_job with (job := job); [assumption|reflexivity].
  - simpl. rewrite Hkeys. reflexivity.
Qed.

End Finished.

(** * The claims *)

(** C1. In every run whose list call succeeds, no turn of the loop ends
    the run: the adapter is asked to fetch every summary, in order; a turn
    whose fetch or persist raised leaves exactly one entry in the error
    list, of which [error_details] keeps the first ten; the run returns
    with [finished_at] set and with status ["success"] when the error
    list is empty and ["partial"] when it is not. *)
Theorem item_failures_never_abort_the_run
    env d w job_id job api_key_record api_key provider adapter summaries
    remote' :
  Resolved env d job_id job api_key_record api_key provider adapter ->
  list_conversations adapter api_key
    (build_options (ImportJob.requested_range job)) (remote w) (clock w)
    = (Ok summaries, remote') ->
  let options := build_options (ImportJob.requested_range job) in
  let os := outcomes adapter api_key provider job summaries
              (after_list api_key options remote' d w) in
  exists st' job',
    run_import_job env job_id (start d w) = (Ok tt, st') /\
    requests (world st') =
      requests w ++
      ListConversations api_key options ::
      map (fun s =>
             FetchConversation api_key
               (ProviderConversationSummary.provider_conversation_id s))
          summaries /\
    length os = length summaries /\
    errors (frame st') = error_entries summaries os /\
    length (errors (frame st')) = length (filter is_failure os) /\
    job_after st' job_id = Some job' /\
    ImportJob.finished_at job' <> None /\
    (errors (frame st') = [] -> ImportJob.status job' = "success") /\
    (errors (frame st') <> [] ->
       ImportJob.status job' = "partial" /\
       ImportJob.error_details job' =
         Some (String.concat newline (firstn 10 (errors (frame st'))))).
Proof.
  intros Hres Hlist options os.
  destruct (run_finished env d w job_id job api_key_record api_key provider
              adapter summaries remote' Hres Hlist)
    as (st' & Hrun & _ & Hreq & Herr & _ & Hjob & _).
  fold options in Hreq, Herr. fold os in Herr.
  assert (Hlen : length os = length summaries) by apply outcomes_length.
  exists st', (finished_job job (frame st') (clock w)).
  repeat split; try assumption.
  - rewrite Herr. apply error_entries_length. assumption.
  - discriminate.
  - intros E. simpl. rewrite E. reflexivity.
  - simpl. destruct (errors (frame st')); [contradiction|reflexivity].
  - simpl. destruct (errors (frame st')); [contradiction|reflexivity].
Qed.

Lemma item_failures_never_abort_the_run_witness :
  Resolved Sample.env Sample.tables 3 Sample.job (Sample.key true) "sk-plain"
    Sample.acme_provider Sample.acme /\
  exists st' job',
    run_import_job Sample.env 3 (start Sample.tables Sample.world0)
      = (Ok tt, st') /\
    requests (world st') =
      [ListConversations "sk-plain" []; FetchConversation "sk-plain" "a";
       FetchConversation "sk-plain" "b"] /\
    errors (frame st') = ["Error importing conversation b: timed out"] /\
    job_after st' 3 = Some job' /\
    ImportJob.status job' = "partial".
Proof.
  assert (Hres : Resolved Sample.env Sample.tables 3 Sample.job
                   (Sample.key true) "sk-plain" Sample.acme_provider
                   Sample.acme) by (repeat split; reflexivity).
  split; [exact Hres|].
  destruct (item_failures_never_abort_the_run Sample.env Sample.tables
              Sample.world0 3 Sample.job (Sample.key true) "sk-plain"
              Sample.acme_provider Sample.acme
              [Sample.summary "a"; Sample.summary "b"] 0 Hres eq_refl)
    as (st' & job' & Hrun & Hreq & _ & Herr & _ & Hjob & _ & _ & Hpartial).
  exists st', job'.
  split; [exact Hrun|]. split; [exact Hreq|]. split; [exact Herr|].
  split; [exact Hjob|].
  apply (proj1 (Hpartial ltac:(rewrite Herr; discriminate))).
Defined.

(** C10. When no import job has the given id, [run_import_job] returns
    and changes nothing: the tables, the clock and the log of adapter calls
    are as they were. *)
Theorem missing_job_changes_nothing env d w job_id :
  find (fun j => ImportJob.id j =? job_id) (import_jobs d) = None ->
  run_import_job env job_id (start d w) = (Ok tt, start d w) /\
  committed (db (snd (run_import_job env job_id (start d w)))) = d.
Proof.
  intros H. rewrite (run_no_job env d w job_id H). split; reflexivity.
Qed.

Lemma missing_job_changes_nothing_witness :
  find (fun j => ImportJob.id j =? 7) (import_jobs Sample.tables) = None /\
  run_import_job Sample.env 7 (start Sample.tables Sample.world0)
    = (Ok tt, start Sample.tables Sample.world0) /\
  committed (db (snd (run_import_job Sample.env 7
                        (start Sample.tables Sample.world0))))
    = Sample.tables.
Proof.
  split; [reflexivity|].
  apply (missing_job_changes_nothing Sample.env Sample.tables Sample.world0 7).
  reflexivity.
Defined.

(** Every path but two writes a final status: the run of a missing job
    has no row to write, and a decryption that raises leaves the row as
    it was. *)
Lemma run_terminal_unless_decrypt_raises env d w job_id job :
  find (fun j => ImportJob.id j =? job_id) (import_jobs d) = Some job ->
  (forall api_key_record e,
     find (fun k => APIKey.id k =? ImportJob.api_key_id job) (api_keys d)
       = Some api_key_record ->
     decrypt_api_key env (APIKey.key_encrypted api_key_record) <> Raise e) ->
  exists job',
    job_after (snd (run_import_job env job_id (start d w))) job_id
      = Some job' /\
    terminal job'.
Proof.
  intros Hj Hdec.
  destruct (run_path env d w job_id)
    as [H0 | j H0 H1 | j k e H0 H1 H2 | j k a H0 H1 H2 H3
        | j k a p e H0 H1 H2 H3 H4 | j k a p ad e r Hres Hl
        | j k a p ad ss r Hres Hl].
  - congruence.
  - assert (j = job) by congruence. subst j.
    eexists. split; [apply job_after_failed; assumption|].
    split; [left; reflexivity|discriminate].
  - assert (j = job) by congruence. subst j.
    exfalso. exact (Hdec k e H1 H2).
  - assert (j = job) by congruence. subst j.
    eexists. split; [apply job_after_failed; assumption|].
    split; [left; reflexivity|discriminate].
  - assert (j = job) by congruence. subst j.
    eexists. split; [apply job_after_failed; assumption|].
    split; [left; reflexivity|discriminate].
  - assert (j = job) by (destruct Hres as (H & _); congruence). subst j.
    eexists. split; [apply job_after_failed; assumption|].
    split; [left; reflexivity|discriminate].
  - assert (j = job) by (destruct Hres as (H & _); congruence). subst j.
    destruct (run_finished env d w job_id job k a p ad ss r Hres Hl)
      as (st' & Hrun & _ & _ & _ & _ & Hjob & _).
    rewrite (run_list_ok _ _ _ _ _ _ _ _ _ _ _ Hres Hl) in Hrun.
    inversion Hrun as [Hst]. clear Hrun.
    simpl snd. rewrite Hst.
    eexists. split; [exact Hjob|].
    split; [|discriminate].
    simpl. destruct (errors (frame st')); [right; left|right; right];
      reflexivity.
Qed.

(** C2. The run of an existing job whose stored key does not decrypt
    (the settings hold another encryption key, and Fernet raises
    [InvalidToken]) does not reach a final status: the exception leaves
    [run_import_job] and the job row stays ["running"] with no
    [finished_at]. *)
Theorem undecryptable_key_leaves_run_running :
  let st' := snd (run_import_job Sample.env_wrong_key 3
                    (start Sample.tables Sample.world0)) in
  find (fun j => ImportJob.id j =? 3) (import_jobs Sample.tables)
    = Some Sample.job /\
  exists job',
    job_after st' 3 = Some job' /\
    ImportJob.status job' = "running" /\
    ImportJob.finished_at job' = None /\
    ~ terminal job'.
Proof.
  split; [reflexivity|].
  exists Sample.job. repeat split.
  intros [_ H]. apply H. reflexivity.
Qed.

(** C3. When decrypting the credential raises, the run is not marked
    failed: the exception propagates out of [run_import_job], nothing is
    committed, and the job's [error_details] stay empty. *)
Theorem decryption_failure_is_not_recorded :
  run_import_job Sample.env_wrong_key 3 (start Sample.tables Sample.world0)
    = (Raise (Exc "InvalidToken" ""), start Sample.tables Sample.world0) /\
  job_after (start Sample.tables Sample.world0) 3 = Some Sample.job /\
  ImportJob.status Sample.job <> "failed" /\
  ImportJob.error_details Sample.job = None.
Proof.
  repeat split. discriminate.
Qed.

(** C5. An artifact whose [message_sequence_index] is that of a message
    stored with it is stored without the link: in the run of the sample
    adapter the attachment of message 0 of conversation [a] gets a NULL
    [message_id], though the message is there. *)
Theorem artifact_is_stored_unlinked :
  let st' := snd (run_import_job Sample.env 3
                    (start Sample.tables Sample.world0)) in
  exists m a,
    In m (messages (committed (db st'))) /\
    In a (artifacts (committed (db st'))) /\
    Artifact.conversation_id a = Message.conversation_id m /\
    Artifact.provider_artifact_id a =
      ProviderArtifact.provider_artifact_id Sample.attachment /\
    ProviderArtifact.message_sequence_index Sample.attachment =
      Some (Message.sequence_index m) /\
    Artifact.message_id a = None.
Proof.
  vm_compute.
  eexists. eexists.
  split; [left; reflexivity|].
  split; [left; reflexivity|].
  repeat split.
Qed.

(** No artifact written by the loop is ever linked to a message. *)
Lemma artifact_row_unlinked conversation_id key art :
  Artifact.message_id (artifact_row conversation_id key art) = None.
Proof. reflexivity. Qed.

(** ** The credential check *)

Lemma create_import_job_inactive env d w job_data api_key :
  find (fun k => APIKey.id k =? ImportJobCreate.api_key_id job_data)
       (api_keys d) = Some api_key ->
  APIKey.is_active api_key = false ->
  create_import_job env job_data (start d w) =
  (Raise (HTTPException 400 "API key is not active"), start d w).
Proof.
  intros Hk Hact.
  unfold create_import_job, bind, query_api_key. simpl.
  rewrite Hk. rewrite Hact. reflexivity.
Qed.

(** C7, as the code has it. A run whose credential is missing when the
    body executes ends ["failed"] with the error ["API key not found"],
    [finished_at] set, no adapter call made and no conversation, message
    or artifact written. An inactive credential is turned away earlier, by
    [create_import_job], which raises 400 and creates no job; the body of
    the run does not look at the flag. *)
Theorem missing_credential_fails_the_run env d w :
  (forall job_id job,
     find (fun j => ImportJob.id j =? job_id) (import_jobs d) = Some job ->
     find (fun k => APIKey.id k =? ImportJob.api_key_id job) (api_keys d)
       = None ->
     exists st',
       run_import_job env job_id (start d w) = (Ok tt, st') /\
       job_after st' job_id =
         Some (ImportJob.set_failed job "API key not found" (clock w)) /\
       requests (world st') = requests w /\
       conversations (committed (db st')) = conversations d /\
       messages (committed (db st')) = messages d /\
       artifacts (committed (db st')) = artifacts d) /\
  (forall job_data api_key,
     find (fun k => APIKey.id k =? ImportJobCreate.api_key_id job_data)
          (api_keys d) = Some api_key ->
     APIKey.is_active api_key = false ->
     create_import_job env job_data (start d w) =
       (Raise (HTTPException 400 "API key is not active"), start d w)).
Proof.
  split.
  - intros job_id job Hj Hk.
    eexists. split; [apply (run_no_key env d w job_id job Hj Hk)|].
    split; [apply (job_after_failed d w job_id job _ Hj)|].
    repeat split.
  - intros job_data api_key. apply create_import_job_inactive.
Qed.

Lemma missing_credential_fails_the_run_witness :
  (find (fun j => ImportJob.id j =? 3) (import_jobs Sample.tables_no_key)
     = Some Sample.job /\
   find (fun k => APIKey.id k =? ImportJob.api_key_id Sample.job)
        (api_keys Sample.tables_no_key) = None /\
   exists st',
     run_import_job Sample.env 3 (start Sample.tables_no_key Sample.world0)
       = (Ok tt, st') /\
     job_after st' 3 =
       Some (ImportJob.set_failed Sample.job "API key not found" 100%Z) /\
     requests (world st') = []) /\
  (find (fun k => APIKey.id k =? ImportJobCreate.api_key_id Sample.job_data)
        (api_keys Sample.tables_inactive_key) = Some (Sample.key false) /\
   APIKey.is_active (Sample.key false) = false /\
   create_import_job Sample.env Sample.job_data
     (start Sample.tables_inactive_key Sample.world0) =
     (Raise (HTTPException 400 "API key is not active"),
      start Sample.tables_inactive_key Sample.world0)).
Proof.
  split.
  - split; [reflexivity|]. split; [reflexivity|].
    destruct (proj1 (missing_credential_fails_the_run Sample.env
                       Sample.tables_no_key Sample.world0)
                3 Sample.job eq_refl eq_refl)
      as (st' & Hrun & Hjob & Hreq & _).
    exists st'. split; [exact Hrun|]. split; [exact Hjob|exact Hreq].
  - split; [reflexivity|]. split; [reflexivity|].
    exact (proj2 (missing_credential_fails_the_run Sample.env
                    Sample.tables_inactive_key Sample.world0)
             Sample.job_data (Sample.key false) eq_refl eq_refl).
Defined.

(** C7 as stated fails: with the credential inactive when the body
    executes, the run calls the adapter, stores conversation [a] and
    ends ["partial"], not ["failed"]. *)
Lemma inactive_credential_run_is_not_failed :
  let d := Sample.tables_inactive_key in
  let st' := snd (run_import_job Sample.env 3 (start d Sample.world0)) in
  (exists k,
     find (fun k => APIKey.id k =? ImportJob.api_key_id Sample.job)
          (api_keys d) = Some k /\
     APIKey.is_active k = false) /\
  exists job',
    job_after st' 3 = Some job' /\
    ImportJob.status job' = "partial" /\
    ImportJob.status job' <> "failed" /\
    ImportJob.conversations_imported job' = 1 /\
    requests (world st') =
      [ListConversations "sk-plain" []; FetchConversation "sk-plain" "a";
       FetchConversation "sk-plain" "b"].
Proof.
  split.
  - exists (Sample.key false). split; reflexivity.
  - vm_compute. eexists. split; [reflexivity|].
    repeat split. discriminate.
Qed.

(** ** The counters of a finished run *)

(** C4, as the code has it. When the list call returns N summaries of
    which K fail (0 < K < N), each before its conversation row is
    inserted, and D are skipped as already stored, the run ends
    ["partial"] with [conversations_imported = N - K - D], and
    [error_details] is the first 10 of the K error entries, in the order
    of the summaries, joined by newlines: K entries when K <= 10, and 10
    when K > 10. *)
Theorem partial_run_counts
    env d w job_id job api_key_record api_key provider adapter summaries
    remote' :
  Resolved env d job_id job api_key_record api_key provider adapter ->
  list_conversations adapter api_key
    (build_options (ImportJob.requested_range job)) (remote w) (clock w)
    = (Ok summaries, remote') ->
  let os := outcomes adapter api_key provider job summaries
              (after_list api_key
                 (build_options (ImportJob.requested_range job))
                 remote' d w) in
  let N := length summaries in
  let K := length (filter is_failure os) in
  let D := length (filter is_duplicate os) in
  0 < K -> K < N ->
  filter is_failure_after_insert os = [] ->
  exists st' job',
    run_import_job env job_id (start d w) = (Ok tt, st') /\
    job_after st' job_id = Some job' /\
    ImportJob.status job' = "partial" /\
    ImportJob.conversations_imported job' = N - K - D /\
    ImportJob.error_details job' =
      Some (String.concat newline
              (firstn 10 (error_entries summaries os))) /\
    length (error_entries summaries os) = K /\
    length (firstn 10 (error_entries summaries os)) = Nat.min 10 K.
Proof.
  intros Hres Hlist os N K D HK HKN Hafter.
  destruct (run_finished env d w job_id job api_key_record api_key provider
              adapter summaries remote' Hres Hlist)
    as (st' & Hrun & _ & _ & Herr & Hcount & Hjob & _).
  fold os in Herr, Hcount.
  assert (Hlen : length os = N) by apply outcomes_length.
  assert (Hne : length (errors (frame st')) = K).
  { rewrite Herr. apply error_entries_length. assumption. }
  exists st', (finished_job job (frame st') (clock w)).
  split; [assumption|]. split; [assumption|].
  pose proof (outcomes_partition os) as Hpart.
  rewrite Hafter in Hpart. simpl in Hpart.
  fold K D in Hpart.
  destruct (errors (frame st')) as [|msg rest] eqn:E;
    [simpl in Hne; lia|].
  split; [simpl; rewrite E; reflexivity|].
  split; [simpl; lia|].
  split; [simpl; rewrite E, <- Herr; reflexivity|].
  rewrite <- Herr, length_firstn, Hne. split; reflexivity.
Qed.

Lemma partial_run_counts_witness :
  let summaries := Sample.summary "a" :: repeat (Sample.summary "b") 11 in
  let os := outcomes Sample.acme_flaky "sk-plain" Sample.acme_provider
              Sample.job summaries
              (after_list "sk-plain" [] 0 Sample.tables_with_a
                 Sample.world0) in
  (length summaries = 12 /\
   length (filter is_failure os) = 11 /\
   length (filter is_duplicate os) = 1 /\
   filter is_failure_after_insert os = []) /\
  exists st' job',
    run_import_job Sample.env_flaky 3
      (start Sample.tables_with_a Sample.world0) = (Ok tt, st') /\
    job_after st' 3 = Some job' /\
    ImportJob.status job' = "partial" /\
    ImportJob.conversations_imported job' = 12 - 11 - 1 /\
    ImportJob.error_details job' =
      Some (String.concat newline
              (repeat (item_error "b" (Exc "TimeoutError" "timed out")) 10)).
Proof.
  split.
  - vm_compute. repeat split; auto.
  - assert (Hres : Resolved Sample.env_flaky Sample.tables_with_a 3
                     Sample.job (Sample.key true) "sk-plain"
                     Sample.acme_provider Sample.acme_flaky)
      by (repeat split; reflexivity).
    destruct (partial_run_counts Sample.env_flaky Sample.tables_with_a
                Sample.world0 3 Sample.job (Sample.key true) "sk-plain"
                Sample.acme_provider Sample.acme_flaky
                (Sample.summary "a" :: repeat (Sample.summary "b") 11) 0
                Hres eq_refl)
      as (st' & job' & Hrun & Hjob & Hstatus & Hcount & Hdetails & _).
    + vm_compute. lia.
    + vm_compute. lia.
    + reflexivity.
    + exists st', job'.
      split; [exact Hrun|]. split; [exact Hjob|]. split; [exact Hstatus|].
      split; [exact Hcount|]. exact Hdetails.
Defined.

(** C4 as stated fails: of N = 2 summaries, K = 1 raises in its fetch and
    the other is already stored; the run ends ["partial"] with
    [conversations_imported = 0], not N - K = 1. *)
Lemma skipped_duplicate_is_not_counted :
  let summaries := [Sample.summary "a"; Sample.summary "b"] in
  let os := outcomes Sample.acme "sk-plain" Sample.acme_provider Sample.job
              summaries
              (after_list "sk-plain" [] 0 Sample.tables_with_a
                 Sample.world0) in
  let st' := snd (run_import_job Sample.env 3
                    (start Sample.tables_with_a Sample.world0)) in
  list_conversations Sample.acme "sk-plain" [] 0 100%Z = (Ok summaries, 0) /\
  os = [Duplicate; FetchFailed (Exc "TimeoutError" "timed out")] /\
  length summaries = 2 /\
  length (filter is_failure os) = 1 /\
  exists job',
    job_after st' 3 = Some job' /\
    ImportJob.status job' = "partial" /\
    ImportJob.conversations_imported job' = 0 /\
    ImportJob.conversations_imported job' <>
      length summaries - length (filter is_failure os).
Proof.
  vm_compute.
  repeat split.
  eexists. split; [reflexivity|].
  repeat split. discriminate.
Qed.

(** The counter is not taken back when a later INSERT of the same
    conversation is refused: with a role of 51 characters in [a] the
    commit raises, nothing of [a] is stored, and the run still reports
    one conversation imported. *)
Lemma refused_conversation_is_still_counted :
  let st' := snd (run_import_job Sample.env_long_role 3
                    (start Sample.tables Sample.world0)) in
  conversations (committed (db st')) = [] /\
  messages (committed (db st')) = [] /\
  exists job',
    job_after st' 3 = Some job' /\
    ImportJob.status job' = "partial" /\
    ImportJob.conversations_imported job' = 1 /\
    ImportJob.messages_imported job' = 3.
Proof.
  vm_compute. repeat split.
  eexists. split; [reflexivity|]. repeat split.
Qed.

(** ** Atomicity of one conversation *)

(** C8. One turn of the loop, from a session with nothing in flight,
    either stores the conversation with all its messages and artifacts,
    after the rows already committed, or leaves the committed tables as
    they were: a failure at any INSERT is rolled back whole and leaves one
    error entry; a conversation already stored is skipped with no change
    to the session and no error entry. In every case the session ends
    with nothing in flight. *)
Theorem conversation_insert_is_atomic
    adapter api_key provider job summary st :
  clean (db st) ->
  let st' := snd (import_conversation adapter api_key provider job summary st) in
  let o := item_outcome adapter api_key provider job summary st in
  clean (db st') /\
  (is_failure o = true ->
     committed (db st') = committed (db st) /\
     length (errors (frame st')) = S (length (errors (frame st)))) /\
  (o = Duplicate ->
     db st' = db st /\ errors (frame st') = errors (frame st)) /\
  (forall conv_detail, o = Persisted conv_detail ->
     committed (db st') =
       stored provider job conv_detail (next_uuid (world st))
         (committed (db st)) /\
     errors (frame st') = errors (frame st)) /\
  (exists cs ms ars,
     conversations (committed (db st')) =
       conversations (committed (db st)) ++ cs /\
     messages (committed (db st')) = messages (committed (db st)) ++ ms /\
     artifacts (committed (db st')) = artifacts (committed (db st)) ++ ars /\
     (cs = [] -> ms = [] /\ ars = [])).
Proof.
  intros Hclean st' o.
  destruct (import_conversation_spec adapter api_key provider job summary st
              Hclean) as (st1 & Hrun & _ & _ & Hclean' & Heff).
  assert (Hst : st' = st1) by (unfold st'; rewrite Hrun; reflexivity).
  rewrite Hst. clear Hst st'.
  fold o in Heff.
  split; [assumption|].
  split.
  { intros Hfail. destruct o; simpl in Hfail; try discriminate;
      destruct Heff as [Hc Hf]; rewrite Hf; simpl;
      (split; [assumption|rewrite length_app; simpl; lia]). }
  split.
  { intros E. rewrite E in Heff. destruct Heff as [Hc Hf].
    rewrite Hf. split; [|reflexivity].
    destruct Hclean as [Ht Hp]. destruct Hclean' as [Ht' Hp'].
    destruct (db st1) as [c1 t1 p1]. destruct (db st) as [c0 t0 p0].
    simpl in *. congruence. }
  split.
  { intros conv_detail E. rewrite E in Heff. destruct Heff as [Hc Hf].
    rewrite Hf. split; [assumption|reflexivity]. }
  destruct o; simpl in Heff; destruct Heff as [Hc _]; rewrite Hc;
    try solve [exists [], [], []; rewrite !app_nil_r; auto].
  unfold stored. simpl.
  eexists. eexists. eexists.
  split; [reflexivity|]. split; [reflexivity|]. split; [reflexivity|].
  intros H. apply (f_equal (@length _)) in H. discriminate.
Qed.

Lemma conversation_insert_is_atomic_witness :
  let st := after_list "sk-plain" [] 0 Sample.tables Sample.world0 in
  let st' := snd (import_conversation Sample.acme "sk-plain"
                    Sample.acme_provider Sample.job (Sample.summary "a")
                    st) in
  clean (db st) /\
  clean (db st') /\
  committed (db st') =
    stored Sample.acme_provider Sample.job (Sample.detail "a" "user") 1000
      Sample.tables.
Proof.
  assert (Hclean : clean (db (after_list "sk-plain" [] 0 Sample.tables
                                Sample.world0))) by (split; reflexivity).
  split; [exact Hclean|].
  destruct (conversation_insert_is_atomic Sample.acme "sk-plain"
              Sample.acme_provider Sample.job (Sample.summary "a") _ Hclean)
    as (Hc & _ & _ & Hstored & _).
  split; [exact Hc|].
  exact (proj1 (Hstored (Sample.detail "a" "user") eq_refl)).
Defined.

(** ** Dedup *)

Lemma persisted_not_stored adapter api_key provider job summary st conv_detail :
  item_outcome adapter api_key provider job summary st = Persisted conv_detail ->
  find (same_conversation (Provider.id provider)
          (ProviderConversationDetail.provider_conversation_id conv_detail))
       (conversations (txn (db st))) = None.
Proof.
  unfold item_outcome.
  destruct (fetch_conversation _ _ _ _ _) as [[cd|e] r']; [|discriminate].
  destruct (find _ (conversations (txn (db st)))) eqn:Hfind; [discriminate|].
  destruct (insert_conversation _ _); [|discriminate].
  destruct (flush_rows _ _ _) as [[[keys|e] d2] key2]; [|discriminate].
  intros H. inversion H. subst. assumption.
Qed.

Lemma turn_keeps_other_pairs d pid pcid adapter api_key provider job :
  existsb (same_conversation pid pcid) (conversations d) = true ->
  forall summary st, clean (db st) ->
    only_other_pairs d pid pcid st ->
    only_other_pairs d pid pcid
      (snd (import_conversation adapter api_key provider job summary st)).
Proof.
  intros Hex summary st Hclean (cs & Hcs & Hall).
  destruct (import_conversation_spec adapter api_key provider job summary st
              Hclean) as (st' & Hrun & _ & _ & _ & Heff).
  rewrite Hrun. simpl.
  destruct (item_outcome adapter api_key provider job summary st)
    as [e| |e|cd e|cd] eqn:Ho; simpl in Heff; destruct Heff as [Hc _];
    try (exists cs; rewrite Hc; split; assumption).
  exists (cs ++ [conversation_row provider job cd (next_uuid (world st))]).
  rewrite Hc. unfold stored. simpl. rewrite Hcs, <- app_assoc.
  split; [reflexivity|].
  rewrite forallb_app, Hall. simpl. rewrite andb_true_r.
  apply negb_true_iff.
  destruct (same_conversation pid pcid
              (conversation_row provider job cd (next_uuid (world st))))
    eqn:Hsame; [exfalso|reflexivity].
  unfold same_conversation in Hsame. simpl in Hsame.
  apply andb_true_iff in Hsame. destruct Hsame as [Hp Hs].
  apply Nat.eqb_eq in Hp. apply String.eqb_eq in Hs.
  apply persisted_not_stored in Ho.
  destruct Hclean as [Htxn _]. rewrite Htxn, Hcs, Hp, Hs in Ho.
  apply existsb_exists in Hex. destruct Hex as (c0 & Hin & Hc0).
  pose proof (find_none _ _ Ho c0 (in_or_app _ _ _ (or_introl Hin))) as Hno.
  congruence.
Qed.

(** C9. If a conversation of provider [pid] with provider-native id
    [pcid] is stored when a run starts, then after the run the
    conversations table is the old one followed by rows that are all for
    other pairs: the existing row is as it was and no second row for the
    pair exists, whatever the job, the adapter and the outcome of the
    run. *)
Theorem reimport_never_duplicates env d w job_id pid pcid :
  existsb (same_conversation pid pcid) (conversations d) = true ->
  let d' := committed (db (snd (run_import_job env job_id (start d w)))) in
  (exists cs,
     conversations d' = conversations d ++ cs /\
     forallb (fun c => negb (same_conversation pid pcid c)) cs = true) /\
  filter (same_conversation pid pcid) (conversations d') =
  filter (same_conversation pid pcid) (conversations d).
Proof.
  intros Hex d'.
  assert (H : only_other_pairs d pid pcid
                (snd (run_import_job env job_id (start d w)))).
  { destruct (run_path env d w job_id)
      as [H0 | j H0 H1 | j k e H0 H1 H2 | j k a H0 H1 H2 H3
          | j k a p e H0 H1 H2 H3 H4 | j k a p ad e r Hres Hl
          | j k a p ad ss r Hres Hl];
      try (exists []; simpl; rewrite app_nil_r; split; reflexivity).
    simpl.
    assert (Hclean : clean (db (after_list a
                       (build_options (ImportJob.requested_range j)) r d w)))
      by (split; reflexivity).
    pose proof (after_turns_invariant ad a p j (only_other_pairs d pid pcid)
                  (turn_keeps_other_pairs d pid pcid ad a p j Hex) ss _ Hclean)
      as Hinv.
    destruct Hinv as (cs & Hcs & Hall).
    { exists []. simpl. rewrite app_nil_r. split; reflexivity. }
    exists cs. split; assumption. }
  split; [exact H|].
  destruct H as (cs & Hcs & Hall).
  unfold d'. rewrite Hcs, filter_app.
  assert (Hnil : filter (same_conversation pid pcid) cs = []).
  { clear Hcs. induction cs as [|c cs IH]; simpl in *; [reflexivity|].
    apply andb_true_iff in Hall. destruct Hall as [Hc Hrest].
    apply negb_true_iff in Hc. rewrite Hc. apply IH. assumption. }
  rewrite Hnil, app_nil_r. reflexivity.
Qed.

Lemma reimport_never_duplicates_witness :
  existsb (same_conversation 1 "a") (conversations Sample.tables_with_a)
    = true /\
  let d' := committed (db (snd (run_import_job Sample.env 3
              (start Sample.tables_with_a Sample.world0)))) in
  filter (same_conversation 1 "a") (conversations d') = [Sample.stored_a].
Proof.
  split; [reflexivity|].
  exact (proj2 (reimport_never_duplicates Sample.env Sample.tables_with_a
                  Sample.world0 3 1 "a" eq_refl)).
Defined.

(** ** The credential's [last_used_at] *)

(** C6. In the run of an existing job, with every stored [last_used_at]
    earlier than the clock, a credential's [last_used_at] changes if and
    only if it is the job's credential and the run reaches the final
    block: steps 1 to 4 succeed (job's credential and provider found, key
    decrypted, adapter resolved) and the list call returns. *)
Theorem last_used_at_updated_iff_finalized env d w job_id job :
  find (fun j => ImportJob.id j =? job_id) (import_jobs d) = Some job ->
  (forall k t, In k (api_keys d) -> APIKey.last_used_at k = Some t ->
               (t < clock w)%Z) ->
  let d' := committed (db (snd (run_import_job env job_id (start d w)))) in
  forall key_id,
    last_used d' key_id <> last_used d key_id <->
    (key_id = ImportJob.api_key_id job /\
     exists api_key_record api_key provider adapter summaries remote',
       Resolved env d job_id job api_key_record api_key provider adapter /\
       list_conversations adapter api_key
         (build_options (ImportJob.requested_range job)) (remote w) (clock w)
         = (Ok summaries, remote')).
Proof.
  intros Hj Hpast d' key_id. unfold d'. clear d'.
  destruct (run_path env d w job_id)
    as [H0 | j H0 H1 | j k e H0 H1 H2 | j k a H0 H1 H2 H3
        | j k a p e H0 H1 H2 H3 H4 | j k a p ad e r Hres Hl
        | j k a p ad ss r Hres Hl];
    try (assert (j = job) by congruence; subst j);
    try (assert (j = job) by (destruct Hres as (H & _); congruence); subst j).
  - congruence.
  - split; [intros H; exfalso; apply H; reflexivity|].
    intros (_ & k' & a' & p' & ad' & ss' & r' & (_ & Hk & _) & _). congruence.
  - split; [intros H; exfalso; apply H; reflexivity|].
    intros (_ & k' & a' & p' & ad' & ss' & r' & (_ & Hk & Hd & _) & _).
    congruence.
  - split; [intros H; exfalso; apply H; reflexivity|].
    intros (_ & k' & a' & p' & ad' & ss' & r' & (_ & Hk & Hd & Hp & _) & _).
    congruence.
  - split; [intros H; exfalso; apply H; reflexivity|].
    intros (_ & k' & a' & p' & ad' & ss' & r' & (_ & Hk & Hd & Hp & Ha) & _).
    assert (p' = p) by congruence. subst p'. congruence.
  - split; [intros H; exfalso; apply H; reflexivity|].
    intros (_ & k' & a' & p' & ad' & ss' & r' & (_ & Hk & Hd & Hp & Ha) & Hl').
    destruct Hres as (_ & Hk0 & Hd0 & Hp0 & Ha0).
    assert (k' = k) by congruence. subst k'.
    assert (a' = a) by congruence. subst a'.
    assert (p' = p) by congruence. subst p'.
    assert (ad' = ad) by congruence. subst ad'.
    congruence.
  - destruct (run_finished env d w job_id job k a p ad ss r Hres Hl)
      as (st' & Hrun & _ & _ & _ & _ & _ & Hkeys & _).
    rewrite (run_list_ok _ _ _ _ _ _ _ _ _ _ _ Hres Hl) in Hrun.
    inversion Hrun as [Hst]. clear Hrun. simpl snd. rewrite Hst.
    unfold last_used. rewrite Hkeys.
    pose proof Hres as (_ & Hk & _).
    assert (Hid : APIKey.id k = ImportJob.api_key_id job).
    { apply find_some in Hk. destruct Hk as [_ H]. apply Nat.eqb_eq. exact H. }
    split.
    + intros Hneq. split.
      * destruct (Nat.eq_dec key_id (ImportJob.api_key_id job)) as [E|E];
          [exact E|].
        exfalso. apply Hneq.
        rewrite find_replace_api_key_other; [reflexivity|].
        simpl. congruence.
      * exists k, a, p, ad, ss, r. split; assumption.
    + intros (-> & _).
      rewrite (find_replace_api_key _ k _ _ Hk) by reflexivity.
      rewrite Hk. simpl.
      intros Heq. inversion Heq as [Hlast].
      apply find_some in Hk. destruct Hk as [Hin _].
      specialize (Hpast k (clock w + 1)%Z Hin (eq_sym Hlast)). lia.
Qed.

Lemma last_used_at_updated_iff_finalized_witness :
  (find (fun j => ImportJob.id j =? 3) (import_jobs Sample.tables)
     = Some Sample.job /\
   forall k t, In k (api_keys Sample.tables) ->
               APIKey.last_used_at k = Some t -> (t < clock Sample.world0)%Z) /\
  let d' := committed (db (snd (run_import_job Sample.env 3
              (start Sample.tables Sample.world0)))) in
  last_used d' 2 <> last_used Sample.tables 2.
Proof.
  assert (Hpast : forall k t, In k (api_keys Sample.tables) ->
            APIKey.last_used_at k = Some t -> (t < clock Sample.world0)%Z).
  { intros k t [<-|[]] H. discriminate. }
  split; [split; [reflexivity|exact Hpast]|].
  apply (proj2 (last_used_at_updated_iff_finalized Sample.env Sample.tables
                  Sample.world0 3 Sample.job eq_refl Hpast 2)).
  split; [reflexivity|].
  exists (Sample.key true), "sk-plain", Sample.acme_provider, Sample.acme,
    [Sample.summary "a"; Sample.summary "b"], 0.
  split; [repeat split; reflexivity|reflexivity].
Defined.

(** * Further properties of [run_import_job] *)

Ltac run_cases env d w job_id :=
  destruct (run_path env d w job_id)
    as [H0 | j H0 H1 | j k e H0 H1 H2 | j k a H0 H1 H2 H3
        | j k a p e H0 H1 H2 H3 H4 | j k a p ad e r Hres Hl
        | j k a p ad ss r Hres Hl].

Lemma find_replace_job_other rows job' job_id :
  ImportJob.id job' <> job_id ->
  find (fun j => ImportJob.id j =? job_id) (replace_job job' rows) =
  find (fun j => ImportJob.id j =? job_id) rows.
Proof.
  intros Hne.
  induction rows as [|r rows IH]; simpl; [reflexivity|].
  destruct (ImportJob.id r =? ImportJob.id job') eqn:Hr.
  - apply Nat.eqb_eq in Hr.
    replace (ImportJob.id job' =? job_id) with false
      by (symmetry; apply Nat.eqb_neq; assumption).
    replace (ImportJob.id r =? job_id) with false
      by (symmetry; apply Nat.eqb_neq; congruence).
    assumption.
  - destruct (ImportJob.id r =? job_id); [reflexivity|assumption].
Qed.

Lemma replace_job_ids job' rows :
  map ImportJob.id (replace_job job' rows) = map ImportJob.id rows.
Proof.
  induction rows as [|r rows IH]; simpl; [reflexivity|].
  rewrite IH. destruct (ImportJob.id r =? ImportJob.id job') eqn:Hr;
    [apply Nat.eqb_eq in Hr; rewrite Hr|]; reflexivity.
Qed.

Lemma find_job_id rows job_id job :
  find (fun j => ImportJob.id j =? job_id) rows = Some job ->
  ImportJob.id job = job_id.
Proof.
  intros H. apply find_some in H. destruct H as [_ H].
  apply Nat.eqb_eq. exact H.
Qed.

Lemma find_provider_id rows pid provider :
  find (fun p => Provider.id p =? pid) rows = Some provider ->
  Provider.id provider = pid.
Proof.
  intros H. apply find_some in H. destruct H as [_ H].
  apply Nat.eqb_eq. exact H.
Qed.

(** The content tables only grow in a turn: by nothing, or by one
    conversation row of this job and the rows of its children. *)
Lemma turn_appends adapter api_key provider job summary st :
  clean (db st) ->
  let st' := snd (import_conversation adapter api_key provider job summary st) in
  exists cs ms ars,
    appended (committed (db st)) (committed (db st')) cs ms ars /\
    (forall c, In c cs -> exists cd,
       item_outcome adapter api_key provider job summary st = Persisted cd /\
       c = conversation_row provider job cd (next_uuid (world st))) /\
    (forall m, In m ms -> exists c, In c cs /\
       Message.conversation_id m = Conversation.id c) /\
    (forall a, In a ars -> exists c, In c cs /\
       Artifact.conversation_id a = Conversation.id c).
Proof.
  intros Hclean st'.
  destruct (import_conversation_spec adapter api_key provider job summary st
              Hclean) as (st1 & Hrun & _ & _ & _ & Heff).
  assert (Hst : st' = st1) by (unfold st'; rewrite Hrun; reflexivity).
  rewrite Hst. clear Hst st'.
  destruct (item_outcome adapter api_key provider job summary st)
    as [e| |e|cd e|cd]; simpl in Heff; destruct Heff as [Hc _]; rewrite Hc;
    try solve [exists [], [], []; unfold appended; rewrite !app_nil_r;
               repeat split; intros ? []].
  unfold stored, appended. simpl.
  eexists. eexists. eexists.
  split; [repeat split|].
  split; [intros c [<-|[]]; exists cd; split; reflexivity|].
  split.
  - intros m Hin. eexists. split; [left; reflexivity|]. simpl.
    revert Hin. generalize (S (next_uuid (world st))).
    induction (ProviderConversationDetail.messages cd) as [|x xs IH];
      simpl; intros n Hin; [contradiction|].
    destruct Hin as [<-|Hin]; [reflexivity|eapply IH; eassumption].
  - intros a0 Hin. eexists. split; [left; reflexivity|]. simpl.
    revert Hin.
    generalize (S (next_uuid (world st) +
       length (ProviderConversationDetail.messages cd))).
    induction (ProviderConversationDetail.artifacts cd) as [|x xs IH];
      simpl; intros n Hin; [contradiction|].
    destruct Hin as [<-|Hin]; [reflexivity|eapply IH; eassumption].
Qed.

Lemma after_turns_appends adapter api_key provider job summaries : forall st,
  clean (db st) ->
  let st' := after_turns adapter api_key provider job summaries st in
  exists cs ms ars,
    appended (committed (db st)) (committed (db st')) cs ms ars /\
    (forall c, In c cs -> exists cd key,
       c = conversation_row provider job cd key) /\
    (forall m, In m ms -> exists c, In c cs /\
       Message.conversation_id m = Conversation.id c) /\
    (forall a, In a ars -> exists c, In c cs /\
       Artifact.conversation_id a = Conversation.id c).
Proof.
  induction summaries as [|summary rest IH]; intros st Hclean; simpl.
  - exists [], [], []. unfold appended. rewrite !app_nil_r.
    repeat split; intros ? [].
  - destruct (import_conversation_spec adapter api_key provider job summary
                st Hclean) as (st1 & Hrun & _ & _ & Hclean1 & _).
    destruct (turn_appends adapter api_key provider job summary st Hclean)
      as (cs1 & ms1 & ars1 & (Hc1 & Hm1 & Ha1) & Hrow1 & Hmsg1 & Hart1).
    rewrite Hrun in *. simpl in *.
    destruct (IH st1 Hclean1)
      as (cs2 & ms2 & ars2 & (Hc2 & Hm2 & Ha2) & Hrow2 & Hmsg2 & Hart2).
    exists (cs1 ++ cs2), (ms1 ++ ms2), (ars1 ++ ars2).
    unfold appended. rewrite Hc2, Hm2, Ha2, Hc1, Hm1, Ha1, !app_assoc.
    split; [repeat split|].
    split.
    { intros c Hin. apply in_app_or in Hin. destruct Hin as [Hin|Hin].
      - destruct (Hrow1 c Hin) as (cd & _ & ->). eauto.
      - apply Hrow2. assumption. }
    split.
    { intros m Hin. apply in_app_or in Hin. destruct Hin as [Hin|Hin].
      - destruct (Hmsg1 m Hin) as (c & Hc & E). exists c.
        split; [apply in_or_app; left|]; assumption.
      - destruct (Hmsg2 m Hin) as (c & Hc & E). exists c.
        split; [apply in_or_app; right|]; assumption. }
    { intros a0 Hin. apply in_app_or in Hin. destruct Hin as [Hin|Hin].
      - destruct (Hart1 a0 Hin) as (c & Hc & E). exists c.
        split; [apply in_or_app; left|]; assumption.
      - destruct (Hart2 a0 Hin) as (c & Hc & E). exists c.
        split; [apply in_or_app; right|]; assumption. }
Qed.

(** What any run does to the three content tables. *)
Lemma run_tables env d w job_id :
  let d' := committed (db (snd (run_import_job env job_id (start d w)))) in
  exists cs ms ars,
    appended d d' cs ms ars /\
    (forall c, In c cs -> exists job provider cd key,
       find (fun j => ImportJob.id j =? job_id) (import_jobs d) = Some job /\
       find (fun p => Provider.id p =? ImportJob.provider_id job)
            (providers d) = Some provider /\
       c = conversation_row provider job cd key) /\
    (forall m, In m ms -> exists c, In c cs /\
       Message.conversation_id m = Conversation.id c) /\
    (forall a, In a ars -> exists c, In c cs /\
       Artifact.conversation_id a = Conversation.id c).
Proof.
  run_cases env d w job_id;
    try solve [exists [], [], []; unfold appended; simpl; rewrite !app_nil_r;
               repeat split; intros ? []].
  simpl.
  assert (Hclean : clean (db (after_list a
                     (build_options (ImportJob.requested_range j)) r d w)))
    by (split; reflexivity).
  destruct (after_turns_appends ad a p j ss _ Hclean)
    as (cs & ms & ars & Happ & Hrow & Hmsg & Hart).
  exists cs, ms, ars.
  split; [exact Happ|].
  split; [|split; assumption].
  intros c Hin. destruct (Hrow c Hin) as (cd & key & ->).
  destruct Hres as (Hj & _ & _ & Hp & _).
  exists j, p, cd, key. repeat split; assumption.
Qed.

(** X1. The run of an existing job whose credential decrypts always
    returns and leaves the job with a final status (["failed"],
    ["success"] or ["partial"]) and [finished_at] set, with nothing left
    in flight in the session, whatever the adapter does. *)
Theorem decryptable_run_reaches_final_status env d w job_id job :
  find (fun j => ImportJob.id j =? job_id) (import_jobs d) = Some job ->
  (forall api_key_record,
     find (fun k => APIKey.id k =? ImportJob.api_key_id job) (api_keys d)
       = Some api_key_record ->
     exists api_key,
       decrypt_api_key env (APIKey.key_encrypted api_key_record)
         = Ok api_key) ->
  exists st' job',
    run_import_job env job_id (start d w) = (Ok tt, st') /\
    clean (db st') /\
    job_after st' job_id = Some job' /\
    terminal job' /\
    ImportJob.id job' = job_id /\
    ImportJob.started_at job' = ImportJob.started_at job.
Proof.
  intros Hj Hdec.
  pose proof (find_job_id _ _ _ Hj) as Hid.
  run_cases env d w job_id;
    try (assert (j = job) by congruence; subst j);
    try (assert (j = job) by (destruct Hres as (H & _); congruence); subst j).
  - congruence.
  - eexists. eexists. split; [reflexivity|].
    split; [split; reflexivity|].
    split; [apply job_after_failed; assumption|].
    repeat split; auto. discriminate.
  - destruct (Hdec k H1) as (ak & Hak). congruence.
  - eexists. eexists. split; [reflexivity|].
    split; [split; reflexivity|].
    split; [apply job_after_failed; assumption|].
    repeat split; auto. discriminate.
  - eexists. eexists. split; [reflexivity|].
    split; [split; reflexivity|].
    split; [apply job_after_failed; assumption|].
    repeat split; auto. discriminate.
  - eexists. eexists. split; [reflexivity|].
    split; [split; reflexivity|].
    split; [apply job_after_failed; assumption|].
    repeat split; auto. discriminate.
  - destruct (run_finished env d w job_id job k a p ad ss r Hres Hl)
      as (st' & Hrun & _ & _ & _ & _ & Hjob & _).
    pose proof Hrun as Hrun'.
    rewrite (run_list_ok _ _ _ _ _ _ _ _ _ _ _ Hres Hl) in Hrun'.
    inversion Hrun' as [Hst]. cbv zeta. rewrite Hst.
    exists st', (finished_job job (frame st') (clock w)).
    split; [reflexivity|].
    split; [rewrite <- Hst; split; reflexivity|].
    split; [assumption|].
    repeat split; auto; try discriminate.
    simpl. destruct (errors (frame st')); [right; left|right; right];
      reflexivity.
Qed.

Lemma decryptable_run_reaches_final_status_witness :
  (find (fun j => ImportJob.id j =? 3) (import_jobs Sample.tables)
     = Some Sample.job /\
   forall api_key_record,
     find (fun k => APIKey.id k =? ImportJob.api_key_id Sample.job)
          (api_keys Sample.tables) = Some api_key_record ->
     exists api_key,
       decrypt_api_key Sample.env (APIKey.key_encrypted api_key_record)
         = Ok api_key) /\
  exists st' job',
    run_import_job Sample.env 3 (start Sample.tables Sample.world0)
      = (Ok tt, st') /\
    job_after st' 3 = Some job' /\
    terminal job'.
Proof.
  assert (Hdec : forall api_key_record,
     find (fun k => APIKey.id k =? ImportJob.api_key_id Sample.job)
          (api_keys Sample.tables) = Some api_key_record ->
     exists api_key,
       decrypt_api_key Sample.env (APIKey.key_encrypted api_key_record)
         = Ok api_key)
    by (intros; exists "sk-plain"; reflexivity).
  split; [split; [reflexivity|exact Hdec]|].
  destruct (decryptable_run_reaches_final_status Sample.env Sample.tables
              Sample.world0 3 Sample.job eq_refl Hdec)
    as (st' & job' & Hrun & _ & Hjob & Hterm & _).
  exists st', job'. split; [exact Hrun|]. split; [exact Hjob|exact Hterm].
Defined.

(** X2. When the adapter's list call raises, the run ends ["failed"]
    with [str(e)] in [error_details] and [finished_at] set; the list call
    is the only adapter call made, no conversation, message or artifact is
    written, the counters of the job row stay as they were and the
    credential's row is not touched. *)
Theorem list_failure_fails_the_run
    env d w job_id job api_key_record api_key provider adapter e remote' :
  Resolved env d job_id job api_key_record api_key provider adapter ->
  list_conversations adapter api_key
    (build_options (ImportJob.requested_range job)) (remote w) (clock w)
    = (Raise e, remote') ->
  exists st',
    run_import_job env job_id (start d w) = (Ok tt, st') /\
    job_after st' job_id =
      Some (ImportJob.set_failed job (str e) (clock w)) /\
    requests (world st') =
      requests w ++
      [ListConversations api_key
         (build_options (ImportJob.requested_range job))] /\
    conversations (committed (db st')) = conversations d /\
    messages (committed (db st')) = messages d /\
    artifacts (committed (db st')) = artifacts d /\
    api_keys (committed (db st')) = api_keys d.
Proof.
  intros Hres Hl.
  eexists. split; [apply (run_list_raises _ _ _ _ _ _ _ _ _ _ _ Hres Hl)|].
  destruct Hres as (Hj & _).
  cbv zeta.
  split;
    [exact (job_after_failed d
              (world (after_list api_key
                        (build_options (ImportJob.requested_range job))
                        remote' d w)) job_id job _ Hj)|].
  repeat split.
Qed.

Lemma list_failure_fails_the_run_witness :
  Resolved Fixture.env_down Sample.tables 3 Sample.job (Sample.key true)
    "sk-plain" Sample.acme_provider Fixture.acme_down /\
  exists st',
    run_import_job Fixture.env_down 3 (start Sample.tables Sample.world0)
      = (Ok tt, st') /\
    job_after st' 3 =
      Some (ImportJob.set_failed Sample.job "connection refused" 100%Z) /\
    requests (world st') = [ListConversations "sk-plain" []] /\
    conversations (committed (db st')) = [].
Proof.
  assert (Hres : Resolved Fixture.env_down Sample.tables 3 Sample.job
                   (Sample.key true) "sk-plain" Sample.acme_provider
                   Fixture.acme_down) by (repeat split; reflexivity).
  split; [exact Hres|].
  destruct (list_failure_fails_the_run Fixture.env_down Sample.tables
              Sample.world0 3 Sample.job (Sample.key true) "sk-plain"
              Sample.acme_provider Fixture.acme_down
              (Exc "ConnectError" "connection refused") 1 Hres eq_refl)
    as (st' & Hrun & Hjob & Hreq & Hconv & _).
  exists st'. repeat split; assumption.
Defined.

(** X3. When the job's provider row is missing (and the credential was
    found and decrypted), the run ends ["failed"] with
    ["Provider not found"], without any adapter call and without writing
    anything but the job row. *)
Theorem missing_provider_fails_the_run
    env d w job_id job api_key_record api_key :
  find (fun j => ImportJob.id j =? job_id) (import_jobs d) = Some job ->
  find (fun k => APIKey.id k =? ImportJob.api_key_id job) (api_keys d)
    = Some api_key_record ->
  decrypt_api_key env (APIKey.key_encrypted api_key_record) = Ok api_key ->
  find (fun p => Provider.id p =? ImportJob.provider_id job) (providers d)
    = None ->
  exists st',
    run_import_job env job_id (start d w) = (Ok tt, st') /\
    job_after st' job_id =
      Some (ImportJob.set_failed job "Provider not found" (clock w)) /\
    requests (world st') = requests w /\
    conversations (committed (db st')) = conversations d /\
    messages (committed (db st')) = messages d /\
    artifacts (committed (db st')) = artifacts d /\
    api_keys (committed (db st')) = api_keys d.
Proof.
  intros Hj Hk Hd Hp.
  eexists.
  split; [apply (run_no_provider env d w job_id job api_key_record api_key
                   Hj Hk Hd Hp)|].
  split; [apply (job_after_failed d w job_id job _ Hj)|].
  repeat split.
Qed.

Lemma missing_provider_fails_the_run_witness :
  (find (fun j => ImportJob.id j =? 3)
        (import_jobs Fixture.tables_no_provider) = Some Sample.job /\
   find (fun p => Provider.id p =? ImportJob.provider_id Sample.job)
        (providers Fixture.tables_no_provider) = None) /\
  exists st',
    run_import_job Sample.env 3
      (start Fixture.tables_no_provider Sample.world0) = (Ok tt, st') /\
    job_after st' 3 =
      Some (ImportJob.set_failed Sample.job "Provider not found" 100%Z) /\
    requests (world st') = [].
Proof.
  split; [split; reflexivity|].
  destruct (missing_provider_fails_the_run Sample.env
              Fixture.tables_no_provider Sample.world0 3 Sample.job
              (Sample.key true) "sk-plain" eq_refl eq_refl eq_refl eq_refl)
    as (st' & Hrun & Hjob & Hreq & _).
  exists st'. repeat split; assumption.
Defined.

(** X4. When no adapter is registered under the provider's name, the
    run ends ["failed"] with ["Unknown provider: <name>"], without any
    adapter call and without writing anything but the job row. *)
Theorem unknown_provider_name_fails_the_run
    env d w job_id job api_key_record api_key provider :
  find (fun j => ImportJob.id j =? job_id) (import_jobs d) = Some job ->
  find (fun k => APIKey.id k =? ImportJob.api_key_id job) (api_keys d)
    = Some api_key_record ->
  decrypt_api_key env (APIKey.key_encrypted api_key_record) = Ok api_key ->
  find (fun p => Provider.id p =? ImportJob.provider_id job) (providers d)
    = Some provider ->
  lookup_adapter (Provider.name provider) (provider_registry env) = None ->
  exists st',
    run_import_job env job_id (start d w) = (Ok tt, st') /\
    job_after st' job_id =
      Some (ImportJob.set_failed job
              (String.append "Unknown provider: " (Provider.name provider))
              (clock w)) /\
    requests (world st') = requests w /\
    conversations (committed (db st')) = conversations d /\
    messages (committed (db st')) = messages d /\
    artifacts (committed (db st')) = artifacts d /\
    api_keys (committed (db st')) = api_keys d.
Proof.
  intros Hj Hk Hd Hp Hnone.
  assert (Ha : get_adapter (provider_registry env) (Provider.name provider) =
               Raise (ValueError (String.append "Unknown provider: "
                                    (Provider.name provider)))).
  { unfold get_adapter. rewrite Hnone. reflexivity. }
  eexists.
  split; [apply (run_no_adapter env d w job_id job api_key_record api_key
                   provider _ Hj Hk Hd Hp Ha)|].
  split; [apply (job_after_failed d w job_id job _ Hj)|].
  repeat split.
Qed.

Lemma unknown_provider_name_fails_the_run_witness :
  lookup_adapter (Provider.name Sample.acme_provider)
    (provider_registry Fixture.env_builtin) = None /\
  exists st',
    run_import_job Fixture.env_builtin 3 (start Sample.tables Sample.world0)
      = (Ok tt, st') /\
    job_after st' 3 =
      Some (ImportJob.set_failed Sample.job "Unknown provider: acme" 100%Z) /\
    requests (world st') = [].
Proof.
  split; [reflexivity|].
  destruct (unknown_provider_name_fails_the_run Fixture.env_builtin
              Sample.tables Sample.world0 3 Sample.job (Sample.key true)
              "sk-plain" Sample.acme_provider
              eq_refl eq_refl eq_refl eq_refl eq_refl)
    as (st' & Hrun & Hjob & Hreq & _).
  exists st'. repeat split; assumption.
Defined.

Lemma replace_api_key_ids k' rows :
  map APIKey.id (replace_api_key k' rows) = map APIKey.id rows.
Proof.
  induction rows as [|r rows IH]; simpl; [reflexivity|].
  rewrite IH. destruct (APIKey.id r =? APIKey.id k') eqn:Hr;
    [apply Nat.eqb_eq in Hr; rewrite Hr|]; reflexivity.
Qed.

Lemma find_api_key_id rows key_id k :
  find (fun r => APIKey.id r =? key_id) rows = Some k -> APIKey.id k = key_id.
Proof.
  intros H. apply find_some in H. destruct H as [_ H].
  apply Nat.eqb_eq. exact H.
Qed.

(** X5. Whatever the job, the adapter and the outcome, a run leaves the
    providers table as it was, adds or removes no import job and no api
    key, changes no import job other than its own, changes nothing of an
    api key but [last_used_at], and only appends to the conversations,
    messages and artifacts tables. *)
Theorem run_touches_only_its_own_rows env d w job_id :
  let d' := committed (db (snd (run_import_job env job_id (start d w)))) in
  providers d' = providers d /\
  map ImportJob.id (import_jobs d') = map ImportJob.id (import_jobs d) /\
  (forall other, other <> job_id ->
     find (fun j => ImportJob.id j =? other) (import_jobs d') =
     find (fun j => ImportJob.id j =? other) (import_jobs d)) /\
  map APIKey.id (api_keys d') = map APIKey.id (api_keys d) /\
  (forall key_id k',
     find (fun k => APIKey.id k =? key_id) (api_keys d') = Some k' ->
     exists k,
       find (fun k => APIKey.id k =? key_id) (api_keys d) = Some k /\
       APIKey.set_last_used_at k' None = APIKey.set_last_used_at k None) /\
  exists cs ms ars, appended d d' cs ms ars.
Proof.
  intros d'.
  assert (Happ : exists cs ms ars, appended d d' cs ms ars).
  { destruct (run_tables env d w job_id) as (cs & ms & ars & H & _).
    exists cs, ms, ars. exact H. }
  unfold d' in *. clear d'.
  assert (Hfailed : forall job details w1,
    find (fun j => ImportJob.id j =? job_id) (import_jobs d) = Some job ->
    let d1 := failed_tables job details (clock w1) d in
    providers d1 = providers d /\
    map ImportJob.id (import_jobs d1) = map ImportJob.id (import_jobs d) /\
    (forall other, other <> job_id ->
       find (fun j => ImportJob.id j =? other) (import_jobs d1) =
       find (fun j => ImportJob.id j =? other) (import_jobs d)) /\
    map APIKey.id (api_keys d1) = map APIKey.id (api_keys d) /\
    (forall key_id k',
       find (fun k => APIKey.id k =? key_id) (api_keys d1) = Some k' ->
       exists k,
         find (fun k => APIKey.id k =? key_id) (api_keys d) = Some k /\
         APIKey.set_last_used_at k' None = APIKey.set_last_used_at k None)).
  { intros job details w1 Hj. simpl.
    pose proof (find_job_id _ _ _ Hj) as Hid.
    split; [reflexivity|].
    split; [apply replace_job_ids|].
    split; [intros other Hne; apply find_replace_job_other; simpl; congruence|].
    split; [reflexivity|].
    intros key_id k' Hk'. exists k'. split; [assumption|reflexivity]. }
  run_cases env d w job_id.
  - simpl. repeat split; auto.
    intros key_id k' Hk'. exists k'. split; [assumption|reflexivity].
  - destruct (Hfailed j "API key not found" w H0) as (A & B & C & D & E).
    simpl in *. repeat split; auto.
  - simpl. repeat split; auto.
    intros key_id k' Hk'. exists k'. split; [assumption|reflexivity].
  - destruct (Hfailed j "Provider not found" w H0) as (A & B & C & D & E).
    simpl in *. repeat split; auto.
  - destruct (Hfailed j (str e) w H0) as (A & B & C & D & E).
    simpl in *. repeat split; auto.
  - pose proof Hres as (Hj & _).
    destruct (Hfailed j (str e)
                (world (after_list a
                   (build_options (ImportJob.requested_range j)) r d w)) Hj)
      as (A & B & C & D & E).
    simpl in *. repeat split; auto.
  - pose proof Hres as (Hj & Hk & _).
    pose proof (find_job_id _ _ _ Hj) as Hid.
    pose proof (find_api_key_id _ _ _ Hk) as Hkid.
    assert (Hclean : clean (db (after_list a
                       (build_options (ImportJob.requested_range j)) r d w)))
      by (split; reflexivity).
    destruct (after_turns_static ad a p j ss _ Hclean) as (Hp' & Hk' & Hj').
    simpl in Hp', Hk', Hj'. simpl.
    rewrite Hp', Hk', Hj'.
    split; [reflexivity|].
    split; [apply replace_job_ids|].
    split; [intros other Hne; apply find_replace_job_other; simpl; congruence|].
    split; [apply replace_api_key_ids|].
    split; [|exact Happ].
    intros key_id k' Hfind.
    destruct (Nat.eq_dec key_id (ImportJob.api_key_id j)) as [->|Hne].
    + rewrite (find_replace_api_key _ k _ _ Hk) in Hfind by reflexivity.
      inversion Hfind. subst k'.
      exists k. split; [assumption|reflexivity].
    + rewrite find_replace_api_key_other in Hfind by (simpl; congruence).
      exists k'. split; [assumption|reflexivity].
Qed.

(** X6. Every conversation row a run adds belongs to the job: it has
    the job's provider, [import_job_id] set to the job, origin ["api"],
    is not archived and has its provider conversation id; and every
    message and artifact row the run adds belongs to one of these new
    conversations. *)
Theorem new_rows_belong_to_the_job env d w job_id job :
  find (fun j => ImportJob.id j =? job_id) (import_jobs d) = Some job ->
  let d' := committed (db (snd (run_import_job env job_id (start d w)))) in
  exists cs ms ars,
    appended d d' cs ms ars /\
    (forall c, In c cs -> created_by job c) /\
    (forall m, In m ms -> exists c, In c cs /\
       Message.conversation_id m = Conversation.id c) /\
    (forall a, In a ars -> exists c, In c cs /\
       Artifact.conversation_id a = Conversation.id c).
Proof.
  intros Hj d'.
  destruct (run_tables env d w job_id)
    as (cs & ms & ars & Happ & Hrow & Hmsg & Hart).
  exists cs, ms, ars.
  split; [exact Happ|].
  split; [|split; assumption].
  intros c Hin.
  destruct (Hrow c Hin) as (job0 & provider & cd & key & Hj0 & Hp & ->).
  assert (job0 = job) by congruence. subst job0.
  apply find_provider_id in Hp.
  unfold created_by, conversation_row. simpl.
  repeat split; auto. discriminate.
Qed.

Lemma new_rows_belong_to_the_job_witness :
  find (fun j => ImportJob.id j =? 3) (import_jobs Sample.tables)
    = Some Sample.job /\
  let d' := committed (db (snd (run_import_job Sample.env 3
              (start Sample.tables Sample.world0)))) in
  exists cs ms ars,
    appended Sample.tables d' cs ms ars /\
    length cs = 1 /\ length ms = 3 /\ length ars = 1 /\
    (forall c, In c cs -> created_by Sample.job c).
Proof.
  split; [reflexivity|].
  destruct (new_rows_belong_to_the_job Sample.env Sample.tables
              Sample.world0 3 Sample.job eq_refl)
    as (cs & ms & ars & Happ & Hcreated & _).
  exists cs, ms, ars.
  split; [exact Happ|].
  destruct Happ as (Hc & Hm & Ha).
  apply (f_equal (@length _)) in Hc, Hm, Ha.
  vm_compute in Hc, Hm, Ha.
  split; [exact (eq_sym Hc)|]. split; [exact (eq_sym Hm)|].
  split; [exact (eq_sym Ha)|exact Hcreated].
Defined.

(** ** The invariants of the content tables *)

Lemma pairs_app cs1 cs2 : pairs (cs1 ++ cs2) = pairs cs1 ++ pairs cs2.
Proof.
  induction cs1 as [|c cs1 IH]; simpl; [reflexivity|].
  destruct (Conversation.provider_conversation_id c); simpl; rewrite IH;
    reflexivity.
Qed.

Lemma in_pairs pid pcid cs :
  In (pid, pcid) (pairs cs) <->
  existsb (same_conversation pid pcid) cs = true.
Proof.
  induction cs as [|c cs IH]; simpl; [split; [intros []|discriminate]|].
  unfold same_conversation at 1.
  destruct (Conversation.provider_conversation_id c) as [x|] eqn:Hx; simpl.
  - rewrite orb_true_iff, <- IH, andb_true_iff, Nat.eqb_eq, String.eqb_eq.
    split; intros [H|H]; auto.
    + inversion H. auto.
    + destruct H as [-> ->]. auto.
  - rewrite andb_false_r. simpl. exact IH.
Qed.

Lemma NoDup_snoc {A} (l : list A) (x : A) :
  NoDup l -> ~ In x l -> NoDup (l ++ [x]).
Proof.
  induction 1 as [|y l Hy Hl IH]; simpl; intros Hx.
  - constructor; [intros []|constructor].
  - constructor.
    + intros Hin. apply in_app_or in Hin. destruct Hin as [Hin|[->|[]]].
      * contradiction.
      * apply Hx. left. reflexivity.
    + apply IH. intros Hin. apply Hx. right. assumption.
Qed.

Lemma turn_keeps_pairs_unique adapter api_key provider job summary st :
  clean (db st) ->
  NoDup (pairs (conversations (committed (db st)))) ->
  NoDup (pairs (conversations (committed (db
    (snd (import_conversation adapter api_key provider job summary st)))))).
Proof.
  intros Hclean Hnodup.
  destruct (import_conversation_spec adapter api_key provider job summary st
              Hclean) as (st' & Hrun & _ & _ & _ & Heff).
  rewrite Hrun. simpl.
  destruct (item_outcome adapter api_key provider job summary st)
    as [e| |e|cd e|cd] eqn:Ho; simpl in Heff; destruct Heff as [Hc _];
    rewrite Hc; try assumption.
  unfold stored. simpl. rewrite pairs_app. simpl.
  apply persisted_not_stored in Ho.
  destruct Hclean as [Htxn _]. rewrite Htxn in Ho.
  apply NoDup_snoc.
  - assumption.
  - intros Hin. apply in_pairs in Hin.
    apply existsb_exists in Hin. destruct Hin as (c0 & Hin & Hc0).
    rewrite (find_none _ _ Ho c0 Hin) in Hc0. discriminate.
Qed.

(** X7. Runs keep [uq_provider_conversation]: if no two stored
    conversations share a provider and a provider conversation id before
    a run, none do after it, also when the adapter lists the same
    conversation twice. *)
Theorem run_keeps_conversations_unique env d w job_id :
  NoDup (pairs (conversations d)) ->
  NoDup (pairs (conversations
    (committed (db (snd (run_import_job env job_id (start d w))))))).
Proof.
  intros Hnodup.
  run_cases env d w job_id; simpl; try assumption.
  assert (Hclean : clean (db (after_list a
                     (build_options (ImportJob.requested_range j)) r d w)))
    by (split; reflexivity).
  apply (after_turns_invariant ad a p j
           (fun st => NoDup (pairs (conversations (committed (db st))))));
    try assumption.
  intros summary st Hc Hn.
  apply turn_keeps_pairs_unique; assumption.
Qed.

Lemma run_keeps_conversations_unique_witness :
  NoDup (pairs (conversations Sample.tables_with_a)) /\
  let d' := committed (db (snd (run_import_job Fixture.env_three 3
              (start Sample.tables_with_a Sample.world0)))) in
  pairs (conversations d') = [(1, "a"); (1, "x"); (1, "y")] /\
  NoDup (pairs (conversations d')).
Proof.
  assert (H : NoDup (pairs (conversations Sample.tables_with_a))).
  { simpl. constructor; [intros []|constructor]. }
  split; [exact H|].
  split; [reflexivity|].
  exact (run_keeps_conversations_unique Fixture.env_three
           Sample.tables_with_a Sample.world0 3 H).
Defined.

Lemma has_conversation_app d d' cs cid :
  conversations d' = conversations d ++ cs ->
  has_conversation d cid = true \/
  (exists c, In c cs /\ Conversation.id c = cid) ->
  has_conversation d' cid = true.
Proof.
  intros Hc H. unfold has_conversation in *. rewrite Hc, existsb_app.
  apply orb_true_iff. destruct H as [H|(c & Hin & Hid)]; [left; exact H|].
  right. apply existsb_exists. exists c. split; [assumption|].
  apply Nat.eqb_eq. assumption.
Qed.

(** X8. Runs keep the foreign keys of the content tables: if every
    stored message and artifact belongs to a stored conversation before a
    run, every one does after it. *)
Theorem run_keeps_children_with_parents env d w job_id :
  children_have_parents d ->
  children_have_parents
    (committed (db (snd (run_import_job env job_id (start d w))))).
Proof.
  intros [Hm Ha].
  destruct (run_tables env d w job_id)
    as (cs & ms & ars & (Hc & Hms & Hars) & _ & Hmsg & Hart).
  split.
  - intros m Hin. rewrite Hms in Hin. apply in_app_or in Hin.
    apply (has_conversation_app d _ cs _ Hc).
    destruct Hin as [Hin|Hin]; [left; apply Hm; assumption|].
    right. destruct (Hmsg m Hin) as (c & Hcin & E). exists c. auto.
  - intros a0 Hin. rewrite Hars in Hin. apply in_app_or in Hin.
    apply (has_conversation_app d _ cs _ Hc).
    destruct Hin as [Hin|Hin]; [left; apply Ha; assumption|].
    right. destruct (Hart a0 Hin) as (c & Hcin & E). exists c. auto.
Qed.

Lemma run_keeps_children_with_parents_witness :
  children_have_parents Sample.tables /\
  let d' := committed (db (snd (run_import_job Sample.env 3
              (start Sample.tables Sample.world0)))) in
  length (messages d') = 3 /\ children_have_parents d'.
Proof.
  assert (H : children_have_parents Sample.tables)
    by (split; intros ? []).
  split; [exact H|].
  split; [reflexivity|].
  exact (run_keeps_children_with_parents Sample.env Sample.tables
           Sample.world0 3 H).
Defined.

(** ** The counters of a successful run *)

Lemma keyed_length {A B} (row : UUID -> A -> B) xs : forall key,
  length (keyed row key xs) = length xs.
Proof.
  induction xs as [|x xs IH]; intros key; simpl; [reflexivity|].
  rewrite IH. reflexivity.
Qed.

Lemma turn_counts_rows adapter api_key provider job summary st :
  clean (db st) ->
  is_failure (item_outcome adapter api_key provider job summary st) = false ->
  let st' := snd (import_conversation adapter api_key provider job summary st) in
  length (conversations (committed (db st'))) + conversations_count (frame st)
    = length (conversations (committed (db st)))
      + conversations_count (frame st') /\
  length (messages (committed (db st'))) + messages_count (frame st)
    = length (messages (committed (db st))) + messages_count (frame st') /\
  length (artifacts (committed (db st'))) + artifacts_count (frame st)
    = length (artifacts (committed (db st))) + artifacts_count (frame st').
Proof.
  intros Hclean Hok st'.
  destruct (import_conversation_spec adapter api_key provider job summary st
              Hclean) as (st1 & Hrun & _ & _ & _ & Heff).
  assert (Hst : st' = st1) by (unfold st'; rewrite Hrun; reflexivity).
  rewrite Hst. clear Hst st'.
  destruct (item_outcome adapter api_key provider job summary st)
    as [e| |e|cd e|cd]; simpl in Hok; try discriminate;
    simpl in Heff; destruct Heff as [Hc Hf]; rewrite Hc, Hf.
  - repeat split; lia.
  - unfold stored, add_counts. simpl.
    rewrite !length_app, !keyed_length. simpl. repeat split; lia.
Qed.

Lemma after_turns_count_rows adapter api_key provider job summaries :
  forall st,
  clean (db st) ->
  filter is_failure (outcomes adapter api_key provider job summaries st) = [] ->
  let st' := after_turns adapter api_key provider job summaries st in
  length (conversations (committed (db st'))) + conversations_count (frame st)
    = length (conversations (committed (db st)))
      + conversations_count (frame st') /\
  length (messages (committed (db st'))) + messages_count (frame st)
    = length (messages (committed (db st))) + messages_count (frame st') /\
  length (artifacts (committed (db st'))) + artifacts_count (frame st)
    = length (artifacts (committed (db st))) + artifacts_count (frame st').
Proof.
  induction summaries as [|summary rest IH]; intros st Hclean Hok; simpl.
  - repeat split; reflexivity.
  - simpl in Hok.
    destruct (is_failure (item_outcome adapter api_key provider job summary st))
      eqn:Ho; [discriminate|].
    destruct (import_conversation_spec adapter api_key provider job summary
                st Hclean) as (st1 & Hrun & _ & _ & Hclean1 & _).
    pose proof (turn_counts_rows adapter api_key provider job summary st
                  Hclean Ho) as H1.
    rewrite Hrun in *. simpl in *.
    pose proof (IH st1 Hclean1 Hok) as H2. simpl in H2.
    destruct H1 as (A1 & B1 & C1). destruct H2 as (A2 & B2 & C2).
    repeat split; lia.
Qed.

(** X9. When the list call returns and no turn fails, the run ends
    ["success"], leaves [error_details] as it was, and its three counters
    are exact: the conversations, messages and artifacts tables have
    grown by [conversations_imported], [messages_imported] and
    [artifacts_imported] rows, and [conversations_imported] is the number
    of summaries less those skipped as already stored. *)
Theorem successful_run_counts_are_exact
    env d w job_id job api_key_record api_key provider adapter summaries
    remote' :
  Resolved env d job_id job api_key_record api_key provider adapter ->
  list_conversations adapter api_key
    (build_options (ImportJob.requested_range job)) (remote w) (clock w)
    = (Ok summaries, remote') ->
  let os := outcomes adapter api_key provider job summaries
              (after_list api_key
                 (build_options (ImportJob.requested_range job))
                 remote' d w) in
  filter is_failure os = [] ->
  exists st' job',
    run_import_job env job_id (start d w) = (Ok tt, st') /\
    job_after st' job_id = Some job' /\
    ImportJob.status job' = "success" /\
    ImportJob.error_details job' = ImportJob.error_details job /\
    ImportJob.conversations_imported job' =
      length summaries - length (filter is_duplicate os) /\
    length (conversations (committed (db st'))) =
      length (conversations d) + ImportJob.conversations_imported job' /\
    length (messages (committed (db st'))) =
      length (messages d) + ImportJob.messages_imported job' /\
    length (artifacts (committed (db st'))) =
      length (artifacts d) + ImportJob.artifacts_imported job'.
Proof.
  intros Hres Hlist os Hok.
  destruct (run_finished env d w job_id job api_key_record api_key provider
              adapter summaries remote' Hres Hlist)
    as (st' & Hrun & Hframe & _ & Herr & Hcount & Hjob & _ & Hc & Hm & Ha).
  fold os in Herr, Hcount.
  assert (Hlen : length os = length summaries) by apply outcomes_length.
  assert (Herrs : errors (frame st') = []).
  { rewrite Herr. apply error_entries_nil; assumption. }
  assert (Hclean : clean (db (after_list api_key
                     (build_options (ImportJob.requested_range job))
                     remote' d w))) by (split; reflexivity).
  pose proof (after_turns_count_rows adapter api_key provider job summaries
                _ Hclean Hok) as Hrows.
  simpl in Hrows. rewrite <- Hframe, <- Hc, <- Hm, <- Ha in Hrows.
  destruct Hrows as (A & B & C).
  pose proof (outcomes_partition os) as Hpart.
  rewrite Hok in Hpart. simpl in Hpart.
  assert (Hafter : length (filter is_failure_after_insert os) = 0).
  { clear - Hok. induction os as [|o os IH]; simpl in *; [reflexivity|].
    destruct o; simpl in *; try discriminate; auto. }
  exists st', (finished_job job (frame st') (clock w)).
  split; [assumption|]. split; [assumption|].
  simpl. rewrite Herrs.
  repeat split; lia.
Qed.

Lemma successful_run_counts_are_exact_witness :
  let os := outcomes Fixture.acme_three "sk-plain" Sample.acme_provider
              Sample.job
              [Sample.summary "x"; Sample.summary "y"; Sample.summary "x"]
              (after_list "sk-plain" [] 0 Sample.tables_with_a
                 Sample.world0) in
  filter is_failure os = [] /\
  exists st' job',
    run_import_job Fixture.env_three 3
      (start Sample.tables_with_a Sample.world0) = (Ok tt, st') /\
    job_after st' 3 = Some job' /\
    ImportJob.status job' = "success" /\
    ImportJob.conversations_imported job' = 3 - 1 /\
    length (messages (committed (db st'))) =
      0 + ImportJob.messages_imported job'.
Proof.
  split; [reflexivity|].
  assert (Hres : Resolved Fixture.env_three Sample.tables_with_a 3 Sample.job
                   (Sample.key true) "sk-plain" Sample.acme_provider
                   Fixture.acme_three) by (repeat split; reflexivity).
  destruct (successful_run_counts_are_exact Fixture.env_three
              Sample.tables_with_a Sample.world0 3 Sample.job
              (Sample.key true) "sk-plain" Sample.acme_provider
              Fixture.acme_three
              [Sample.summary "x"; Sample.summary "y"; Sample.summary "x"]
              0 Hres eq_refl eq_refl)
    as (st' & job' & Hrun & Hjob & Hstatus & _ & Hcount & _ & Hmsgs & _).
  exists st', job'.
  split; [exact Hrun|]. split; [exact Hjob|]. split; [exact Hstatus|].
  split; [exact Hcount|exact Hmsgs].
Defined.

(** ** The built-in adapters *)

Lemma default_registry_adapters name adapter :
  get_adapter default_registry name = Ok adapter ->
  adapter = OpenAIAdapter \/ adapter = AnthropicAdapter.
Proof.
  unfold get_adapter.
  change default_registry
    with [("openai", OpenAIAdapter); ("anthropic", AnthropicAdapter)].
  cbn -[String.eqb].
  destruct (String.eqb "openai" name).
  { intros E. inversion E. left. reflexivity. }
  destruct (String.eqb "anthropic" name).
  { intros E. inversion E. right. reflexivity. }
  discriminate.
Qed.

(** X10. With only the built-in adapters registered (OpenAI and
    Anthropic, both placeholders whose list call returns nothing), every
    run that resolves its credential, provider and adapter ends
    ["success"] having imported nothing: one list call, no fetch, three
    counters at 0, and no conversation, message or artifact written. *)
Theorem builtin_adapters_import_nothing
    env d w job_id job api_key_record api_key provider adapter :
  provider_registry env = default_registry ->
  Resolved env d job_id job api_key_record api_key provider adapter ->
  exists st' job',
    run_import_job env job_id (start d w) = (Ok tt, st') /\
    job_after st' job_id = Some job' /\
    ImportJob.status job' = "success" /\
    ImportJob.conversations_imported job' = 0 /\
    ImportJob.messages_imported job' = 0 /\
    ImportJob.artifacts_imported job' = 0 /\
    ImportJob.summary job' =
      Some "Imported 0 conversations, 0 messages, 0 artifacts" /\
    requests (world st') =
      requests w ++
      [ListConversations api_key
         (build_options (ImportJob.requested_range job))] /\
    conversations (committed (db st')) = conversations d /\
    messages (committed (db st')) = messages d /\
    artifacts (committed (db st')) = artifacts d.
Proof.
  intros Hreg Hres.
  assert (Hl : list_conversations adapter api_key
                 (build_options (ImportJob.requested_range job)) (remote w)
                 (clock w) = (Ok [], remote w)).
  { destruct Hres as (_ & _ & _ & _ & Ha). rewrite Hreg in Ha.
    destruct (default_registry_adapters _ _ Ha) as [-> | ->]; reflexivity. }
  destruct (run_finished env d w job_id job api_key_record api_key provider
              adapter [] (remote w) Hres Hl)
    as (st' & Hrun & Hframe & Hreq & _ & _ & Hjob & _ & Hc & Hm & Ha).
  simpl in Hframe, Hreq, Hc, Hm, Ha.
  exists st', (finished_job job (frame st') (clock w)).
  split; [assumption|]. split; [assumption|].
  rewrite Hframe. simpl.
  repeat split; assumption.
Qed.

Lemma builtin_adapters_import_nothing_witness :
  Resolved Fixture.env_builtin Fixture.tables_openai 6 Fixture.openai_job
    (Sample.key true) "sk-plain" Sample.openai_provider OpenAIAdapter /\
  exists st' job',
    run_import_job Fixture.env_builtin 6
      (start Fixture.tables_openai Sample.world0) = (Ok tt, st') /\
    job_after st' 6 = Some job' /\
    ImportJob.status job' = "success" /\
    ImportJob.conversations_imported job' = 0 /\
    conversations (committed (db st')) = [Sample.stored_a].
Proof.
  assert (Hres : Resolved Fixture.env_builtin Fixture.tables_openai 6
                   Fixture.openai_job (Sample.key true) "sk-plain"
                   Sample.openai_provider OpenAIAdapter)
    by (repeat split; reflexivity).
  split; [exact Hres|].
  destruct (builtin_adapters_import_nothing Fixture.env_builtin
              Fixture.tables_openai Sample.world0 6 Fixture.openai_job
              (Sample.key true) "sk-plain" Sample.openai_provider
              OpenAIAdapter eq_refl Hres)
    as (st' & job' & Hrun & Hjob & Hstatus & Hcount & _ & _ & _ & _ & Hconv
        & _).
  exists st', job'. repeat split; assumption.
Defined.

(** ** The registry *)

Lemma lookup_register_same adapter reg :
  lookup_adapter (provider_name adapter) (register adapter reg) = Some adapter.
Proof.
  induction reg as [|[n a] reg IH]; simpl.
  - rewrite String.eqb_refl. reflexivity.
  - destruct (String.eqb n (provider_name adapter)) eqn:E; simpl; rewrite E.
    + reflexivity.
    + assumption.
Qed.

Lemma lookup_register_other adapter reg name :
  name <> provider_name adapter ->
  lookup_adapter name (register adapter reg) = lookup_adapter name reg.
Proof.
  intros Hne.
  induction reg as [|[n a] reg IH]; simpl.
  - replace (String.eqb (provider_name adapter) name) with false;
      [reflexivity|].
    symmetry. apply String.eqb_neq. congruence.
  - destruct (String.eqb n (provider_name adapter)) eqn:E; simpl.
    + apply String.eqb_eq in E. subst n.
      replace (String.eqb (provider_name adapter) name) with false;
        [reflexivity|].
      symmetry. apply String.eqb_neq. congruence.
    + rewrite IH. reflexivity.
Qed.

(** X11. Registering an adapter makes [get_adapter] return it under its
    provider name, replacing an adapter registered under that name
    before, and changes the answer for no other name. *)
Theorem get_adapter_after_register adapter reg :
  get_adapter (register adapter reg) (provider_name adapter) = Ok adapter /\
  forall name, name <> provider_name adapter ->
    get_adapter (register adapter reg) name = get_adapter reg name.
Proof.
  split.
  - unfold get_adapter. rewrite lookup_register_same. reflexivity.
  - intros name Hne. unfold get_adapter.
    rewrite lookup_register_other by assumption. reflexivity.
Qed.

Lemma in_list_registered name reg :
  In name (list_registered reg) <-> lookup_adapter name reg <> None.
Proof.
  induction reg as [|[n a] reg IH]; simpl.
  - split; [intros []|intros H; apply H; reflexivity].
  - destruct (String.eqb n name) eqn:E.
    + apply String.eqb_eq in E. split; [discriminate|auto].
    + apply String.eqb_neq in E. rewrite <- IH.
      split; [intros [H|H]; [contradiction|assumption]|auto].
Qed.

(** X12. [get_adapter] raises exactly for the names [list_providers] does
    not list, and then the exception is a [ValueError] saying
    ["Unknown provider: <name>"]. *)
Theorem get_adapter_raises_iff_not_listed reg name :
  (~ In name (list_registered reg) <->
   get_adapter reg name =
     Raise (ValueError (String.append "Unknown provider: " name))) /\
  (In name (list_registered reg) <->
   exists adapter, get_adapter reg name = Ok adapter).
Proof.
  unfold get_adapter. rewrite in_list_registered.
  destruct (lookup_adapter name reg) as [a|]; split; split.
  - intros H. exfalso. apply H. discriminate.
  - discriminate.
  - intros _. exists a. reflexivity.
  - discriminate.
  - reflexivity.
  - intros _ H. apply H. reflexivity.
  - intros H. exfalso. apply H. reflexivity.
  - intros (a & H). discriminate.
Qed.

Lemma register_names adapter reg :
  list_registered (register adapter reg) =
  if existsb (String.eqb (provider_name adapter)) (list_registered reg)
  then list_registered reg
  else list_registered reg ++ [provider_name adapter].
Proof.
  unfold list_registered.
  induction reg as [|[n a] reg IH]; cbn -[String.eqb]; [reflexivity|].
  rewrite (String.eqb_sym (provider_name adapter) n).
  destruct (String.eqb n (provider_name adapter)) eqn:E; cbn -[String.eqb].
  - reflexivity.
  - rewrite IH.
    destruct (existsb _ (map fst reg)); reflexivity.
Qed.

(** X13. The registry behaves as a dict: registering under a name that
    is listed keeps the list of names as it is, registering under a new
    name adds it at the end, and the names stay distinct. *)
Theorem register_keeps_names_distinct adapter reg :
  NoDup (list_registered reg) ->
  NoDup (list_registered (register adapter reg)) /\
  (In (provider_name adapter) (list_registered reg) ->
   list_registered (register adapter reg) = list_registered reg) /\
  (~ In (provider_name adapter) (list_registered reg) ->
   list_registered (register adapter reg) =
     list_registered reg ++ [provider_name adapter]).
Proof.
  intros Hnodup. rewrite register_names.
  destruct (existsb (String.eqb (provider_name adapter)) (list_registered reg))
    eqn:E.
  - apply existsb_exists in E. destruct E as (n & Hin & Hn).
    apply String.eqb_eq in Hn. subst n.
    repeat split; auto. intros H. contradiction.
  - assert (Hnot : ~ In (provider_name adapter) (list_registered reg)).
    { intros Hin.
      assert (existsb (String.eqb (provider_name adapter))
                (list_registered reg) = true).
      { apply existsb_exists. exists (provider_name adapter).
        split; [assumption|apply String.eqb_refl]. }
      congruence. }
    split; [apply NoDup_snoc; assumption|].
    split; [intros H; contradiction|reflexivity].
Qed.

Lemma register_keeps_names_distinct_witness :
  NoDup (list_registered default_registry) /\
  list_registered (register Sample.acme default_registry) =
    ["openai"; "anthropic"; "acme"] /\
  NoDup (list_registered (register Sample.acme default_registry)).
Proof.
  assert (H : NoDup (list_registered default_registry)).
  { simpl. constructor.
    - intros [H|[]]. discriminate.
    - constructor; [intros []|constructor]. }
  split; [exact H|]. split; [reflexivity|].
  exact (proj1 (register_keeps_names_distinct Sample.acme default_registry H)).
Defined.

(** ** Sorting *)

Lemma insert_sorted_perm {A} (le : A -> A -> bool) x l :
  Permutation (insert_sorted le x l) (x :: l).
Proof.
  induction l as [|y l IH]; simpl; [reflexivity|].
  destruct (le x y); [reflexivity|].
  rewrite IH. apply perm_swap.
Qed.

Lemma sort_by_perm {A} (le : A -> A -> bool) l :
  Permutation (sort_by le l) l.
Proof.
  induction l as [|x l IH]; simpl; [reflexivity|].
  rewrite insert_sorted_perm. constructor. assumption.
Qed.

Section SortSpec.

Variable A : Type.
Variable le : A -> A -> bool.
Hypothesis le_total : forall x y, le x y = true \/ le y x = true.
Hypothesis le_trans :
  forall x y z, le x y = true -> le y z = true -> le x z = true.

Lemma insert_sorted_sorted x l :
  StronglySorted (fun a b => le a b = true) l ->
  StronglySorted (fun a b => le a b = true) (insert_sorted le x l).
Proof.
  induction 1 as [|y l Hl IH Hy]; simpl.
  - constructor; constructor.
  - destruct (le x y) eqn:E.
    + constructor; [constructor; assumption|].
      constructor; [assumption|].
      rewrite Forall_forall in *. intros z Hz.
      eapply le_trans; [exact E|apply Hy; assumption].
    + constructor; [assumption|].
      rewrite Forall_forall in *. intros z Hz.
      apply (Permutation_in _ (insert_sorted_perm le x l)) in Hz.
      destruct Hz as [<-|Hz]; [|apply Hy; assumption].
      destruct (le_total x y) as [H|H]; [congruence|assumption].
Qed.

Lemma sort_by_sorted l :
  StronglySorted (fun a b => le a b = true) (sort_by le l).
Proof.
  induction l as [|x l IH]; simpl; [constructor|].
  apply insert_sorted_sorted. assumption.
Qed.

End SortSpec.

(** ** Creating and reading import jobs *)

Lemma find_has_provider d pid p :
  find (fun p => Provider.id p =? pid) (providers d) = Some p ->
  has_provider d pid = true.
Proof.
  intros H. apply find_some in H. destruct H as [Hin Hp].
  unfold has_provider. apply existsb_exists. exists p. auto.
Qed.

Lemma find_has_api_key d kid k :
  find (fun k => APIKey.id k =? kid) (api_keys d) = Some k ->
  has_api_key d kid = true.
Proof.
  intros H. apply find_some in H. destruct H as [Hin Hk].
  unfold has_api_key. apply existsb_exists. exists k. auto.
Qed.

Lemma find_app_fresh job_id rows job :
  find (fun j => ImportJob.id j =? job_id) rows = None ->
  ImportJob.id job = job_id ->
  find (fun j => ImportJob.id j =? job_id) (rows ++ [job]) = Some job.
Proof.
  intros Hnone Hid.
  induction rows as [|r rows IH]; simpl in *.
  - rewrite Hid, Nat.eqb_refl. reflexivity.
  - destruct (ImportJob.id r =? job_id); [discriminate|]. apply IH. assumption.
Qed.

Lemma create_import_job_ok env d w job_data api_key provider :
  find (fun k => APIKey.id k =? ImportJobCreate.api_key_id job_data)
       (api_keys d) = Some api_key ->
  APIKey.is_active api_key = true ->
  find (fun p => Provider.id p =? ImportJobCreate.provider_id job_data)
       (providers d) = Some provider ->
  find (fun j => ImportJob.id j =? next_uuid w) (import_jobs d) = None ->
  let job := created_job env job_data (next_uuid w) (clock w) in
  create_import_job env job_data (start d w) =
  (Ok job,
   mkSt (mkWorld (clock w + 1)%Z (S (next_uuid w)) (remote w) (requests w))
        (SessionLocal (with_import_job d job)) (mkLocals 0 0 0 [])).
Proof.
  intros Hk Hact Hp Hfresh job.
  pose proof (find_has_provider _ _ _ Hp) as Hhp.
  pose proof (find_has_api_key _ _ _ Hk) as Hhk.
  unfold create_import_job, bind, query_api_key, query_provider. simpl.
  rewrite Hk, Hact. simpl. rewrite Hp.
  unfold datetime_now, db_add, db_commit_keys, db_flush, query_import_job,
    set_world, set_db.
  simpl. unfold insert_import_job. simpl. rewrite Hhp, Hhk. simpl.
  erewrite find_app_fresh; [reflexivity|assumption|reflexivity].
Qed.

(** X14. [create_import_job], given an active credential, an existing
    provider and a fresh key, stores exactly one new job row and returns
    it: status ["running"], no [finished_at], counters at 0, the given
    provider and credential, and [requested_range] holding the dates that
    were given ([None] when neither was). Nothing else is written. *)
Theorem create_import_job_stores_a_running_job
    env d w job_data api_key provider :
  find (fun k => APIKey.id k =? ImportJobCreate.api_key_id job_data)
       (api_keys d) = Some api_key ->
  APIKey.is_active api_key = true ->
  find (fun p => Provider.id p =? ImportJobCreate.provider_id job_data)
       (providers d) = Some provider ->
  find (fun j => ImportJob.id j =? next_uuid w) (import_jobs d) = None ->
  exists job st',
    create_import_job env job_data (start d w) = (Ok job, st') /\
    clean (db st') /\
    committed (db st') = with_import_job d job /\
    ImportJob.status job = "running" /\
    ImportJob.finished_at job = None /\
    ImportJob.provider_id job = ImportJobCreate.provider_id job_data /\
    ImportJob.api_key_id job = ImportJobCreate.api_key_id job_data /\
    ImportJob.conversations_imported job = 0 /\
    ImportJob.messages_imported job = 0 /\
    ImportJob.artifacts_imported job = 0 /\
    (ImportJob.requested_range job = None <->
     ImportJobCreate.from_date job_data = None /\
     ImportJobCreate.to_date job_data = None) /\
    build_options (ImportJob.requested_range job) =
      build_requested_range env job_data.
Proof.
  intros Hk Hact Hp Hfresh.
  eexists. eexists.
  split; [apply (create_import_job_ok env d w job_data api_key provider);
          assumption|].
  split; [split; reflexivity|].
  split; [reflexivity|].
  do 7 (split; [reflexivity|]).
  split.
  - simpl. unfold build_requested_range.
    destruct (ImportJobCreate.from_date job_data),
             (ImportJobCreate.to_date job_data); simpl;
      split; try discriminate; try (intros [? ?]; discriminate); auto.
  - simpl. destruct (build_requested_range env job_data); reflexivity.
Qed.

Lemma create_import_job_stores_a_running_job_witness :
  (find (fun k => APIKey.id k =? ImportJobCreate.api_key_id Sample.job_data)
        (api_keys Sample.tables) = Some (Sample.key true) /\
   find (fun j => ImportJob.id j =? next_uuid Sample.world0)
        (import_jobs Sample.tables) = None) /\
  exists job st',
    create_import_job Sample.env Sample.job_data
      (start Sample.tables Sample.world0) = (Ok job, st') /\
    ImportJob.status job = "running" /\
    import_jobs (committed (db st')) = [Sample.job; job].
Proof.
  split; [split; reflexivity|].
  destruct (create_import_job_stores_a_running_job Sample.env Sample.tables
              Sample.world0 Sample.job_data (Sample.key true)
              Sample.acme_provider eq_refl eq_refl eq_refl eq_refl)
    as (job & st' & Hrun & _ & Hd & Hstatus & _).
  exists job, st'. split; [exact Hrun|]. split; [exact Hstatus|].
  rewrite Hd. reflexivity.
Defined.

Lemma find_app_last job_id rows job :
  ImportJob.id job = job_id ->
  find (fun j => ImportJob.id j =? job_id) (rows ++ [job]) <> None.
Proof.
  intros Hid.
  induction rows as [|r rows IH]; simpl.
  - rewrite Hid, Nat.eqb_refl. discriminate.
  - destruct (ImportJob.id r =? job_id); [discriminate|assumption].
Qed.

Lemma find_app_other job_id rows job :
  ImportJob.id job <> job_id ->
  find (fun j => ImportJob.id j =? job_id) (rows ++ [job]) =
  find (fun j => ImportJob.id j =? job_id) rows.
Proof.
  intros Hne.
  induction rows as [|r rows IH]; simpl.
  - replace (ImportJob.id job =? job_id) with false; [reflexivity|].
    symmetry. apply Nat.eqb_neq. assumption.
  - destruct (ImportJob.id r =? job_id); [reflexivity|assumption].
Qed.

(** X15. When [create_import_job] refuses a request it has written
    nothing, and the refusal is one of three, checked in this order:
    404 ["API key not found"] when no key has the id, whatever the
    provider; 400 ["API key is not active"] when the key is found
    inactive; 404 ["Provider not found"] when the key is found active and
    no provider has the id. *)
Theorem refused_creation_writes_nothing env d w job_data e st' :
  create_import_job env job_data (start d w) = (Raise e, st') ->
  st' = start d w /\
  (e = HTTPException 404 "API key not found" /\
   find (fun k => APIKey.id k =? ImportJobCreate.api_key_id job_data)
        (api_keys d) = None
   \/
   e = HTTPException 400 "API key is not active" /\
   (exists k,
      find (fun k => APIKey.id k =? ImportJobCreate.api_key_id job_data)
           (api_keys d) = Some k /\ APIKey.is_active k = false)
   \/
   e = HTTPException 404 "Provider not found" /\
   (exists k,
      find (fun k => APIKey.id k =? ImportJobCreate.api_key_id job_data)
           (api_keys d) = Some k /\ APIKey.is_active k = true) /\
   find (fun p => Provider.id p =? ImportJobCreate.provider_id job_data)
        (providers d) = None).
Proof.
  unfold create_import_job, bind, query_api_key, query_provider. simpl.
  destruct (find (fun k => APIKey.id k =? ImportJobCreate.api_key_id job_data)
              (api_keys d)) as [k|] eqn:Hk.
  2:{ intros H. inversion H. split; [reflexivity|]. left. auto. }
  destruct (APIKey.is_active k) eqn:Hact; simpl.
  2:{ intros H. inversion H. split; [reflexivity|]. right. left.
      split; [reflexivity|]. exists k. auto. }
  destruct (find (fun p => Provider.id p =? ImportJobCreate.provider_id job_data)
              (providers d)) as [p|] eqn:Hp.
  2:{ intros H. inversion H. split; [reflexivity|]. right. right.
      split; [reflexivity|]. split; [exists k; auto|reflexivity]. }
  pose proof (find_has_provider _ _ _ Hp) as Hhp.
  pose proof (find_has_api_key _ _ _ Hk) as Hhk.
  unfold datetime_now, db_add, db_commit_keys, db_flush, query_import_job,
    set_world, set_db.
  simpl. unfold insert_import_job. simpl. rewrite Hhp, Hhk. simpl.
  match goal with
  | |- context [find ?f (import_jobs d ++ [?j])] =>
      pose proof (find_app_last (next_uuid w) (import_jobs d) j eq_refl) as Hf;
      destruct (find f (import_jobs d ++ [j]))
  end.
  - discriminate.
  - contradiction.
Qed.

Lemma refused_creation_writes_nothing_witness :
  create_import_job Sample.env Sample.job_data
    (start Sample.tables_no_key Sample.world0) =
    (Raise (HTTPException 404 "API key not found"),
     start Sample.tables_no_key Sample.world0) /\
  start Sample.tables_no_key Sample.world0 =
    start Sample.tables_no_key Sample.world0.
Proof.
  split; [reflexivity|].
  exact (proj1 (refused_creation_writes_nothing Sample.env
                  Sample.tables_no_key Sample.world0 Sample.job_data
                  _ _ eq_refl)).
Defined.

(** X16. A job just created is what [get_import_job] returns for its
    id, in a new session; [get_import_job] writes nothing, and for the
    other ids it answers as before the creation. *)
Theorem get_import_job_after_create
    env d w job_data api_key provider :
  find (fun k => APIKey.id k =? ImportJobCreate.api_key_id job_data)
       (api_keys d) = Some api_key ->
  APIKey.is_active api_key = true ->
  find (fun p => Provider.id p =? ImportJobCreate.provider_id job_data)
       (providers d) = Some provider ->
  find (fun j => ImportJob.id j =? next_uuid w) (import_jobs d) = None ->
  exists job st',
    create_import_job env job_data (start d w) = (Ok job, st') /\
    let st1 := start (committed (db st')) (world st') in
    get_import_job (ImportJob.id job) st1 = (Ok job, st1) /\
    forall other, other <> ImportJob.id job ->
      fst (get_import_job other st1) = fst (get_import_job other (start d w)).
Proof.
  intros Hk Hact Hp Hfresh.
  eexists. eexists.
  split; [apply (create_import_job_ok env d w job_data api_key provider);
          assumption|].
  cbv zeta. simpl.
  split.
  - unfold get_import_job, bind, query_import_job. simpl.
    erewrite find_app_fresh; [reflexivity|assumption|reflexivity].
  - intros other Hne.
    unfold get_import_job, bind, query_import_job. simpl.
    rewrite find_app_other by (simpl; congruence).
    destruct (find (fun j => ImportJob.id j =? other) (import_jobs d));
      reflexivity.
Qed.

Lemma get_import_job_after_create_witness :
  find (fun j => ImportJob.id j =? next_uuid Sample.world0)
       (import_jobs Sample.tables) = None /\
  exists job st',
    create_import_job Sample.env Sample.job_data
      (start Sample.tables Sample.world0) = (Ok job, st') /\
    get_import_job (ImportJob.id job)
      (start (committed (db st')) (world st')) =
      (Ok job, start (committed (db st')) (world st')).
Proof.
  split; [reflexivity|].
  destruct (get_import_job_after_create Sample.env Sample.tables
              Sample.world0 Sample.job_data (Sample.key true)
              Sample.acme_provider eq_refl eq_refl eq_refl eq_refl)
    as (job & st' & Hrun & Hget & _).
  exists job, st'. split; [exact Hrun|exact Hget].
Defined.

Lemma started_later_total a b :
  started_later a b = true \/ started_later b a = true.
Proof.
  unfold started_later.
  destruct (Z.leb_spec (ImportJob.started_at b) (ImportJob.started_at a));
    [left; reflexivity|right; apply Z.leb_le; lia].
Qed.

Lemma started_later_trans a b c :
  started_later a b = true -> started_later b c = true ->
  started_later a c = true.
Proof.
  unfold started_later. rewrite !Z.leb_le. lia.
Qed.

(** X17. [list_import_jobs] writes nothing and returns the stored jobs,
    each exactly once, those of the given provider when one is given,
    latest [started_at] first. *)
Theorem list_import_jobs_sorted_and_complete provider_id st :
  exists rows,
    list_import_jobs provider_id st = (Ok rows, st) /\
    Permutation rows
      (match provider_id with
       | Some pid =>
           filter (fun j => ImportJob.provider_id j =? pid)
                  (import_jobs (txn (db st)))
       | None => import_jobs (txn (db st))
       end) /\
    (forall j, In j rows <->
       In j (import_jobs (txn (db st))) /\
       match provider_id with
       | Some pid => ImportJob.provider_id j = pid
       | None => True
       end) /\
    StronglySorted
      (fun a b => (ImportJob.started_at b <= ImportJob.started_at a)%Z) rows.
Proof.
  eexists. split; [reflexivity|].
  split; [apply sort_by_perm|].
  split.
  - intros j0. split.
    + intros Hin. apply (Permutation_in _ (sort_by_perm _ _)) in Hin.
      destruct provider_id as [pid|]; [|auto].
      apply filter_In in Hin. destruct Hin as [Hin Hp].
      apply Nat.eqb_eq in Hp. auto.
    + intros [Hin Hp].
      apply (Permutation_in _ (Permutation_sym (sort_by_perm _ _))).
      destruct provider_id as [pid|]; [|assumption].
      apply filter_In. split; [assumption|]. apply Nat.eqb_eq. assumption.
  - pose proof (sort_by_sorted _ started_later started_later_total
                  started_later_trans
                  (match provider_id with
                   | Some pid =>
                       filter (fun j => ImportJob.provider_id j =? pid)
                              (import_jobs (txn (db st)))
                   | None => import_jobs (txn (db st))
                   end)) as Hs.
    induction Hs as [|x l Hl IH Hx]; constructor; [assumption|].
    rewrite Forall_forall in *. intros y Hy.
    specialize (Hx y Hy). unfold started_later in Hx.
    apply Z.leb_le. assumption.
Qed.

(** X18. Creating a job and then running it always ends the job: when
    [create_import_job] accepts the request and the credential decrypts,
    [run_import_job] on the returned id, in its own session, finds the
    job and leaves it with a final status and [finished_at] set. *)
Theorem created_job_runs_to_a_final_status
    env d w job_data api_key provider plain :
  find (fun k => APIKey.id k =? ImportJobCreate.api_key_id job_data)
       (api_keys d) = Some api_key ->
  APIKey.is_active api_key = true ->
  find (fun p => Provider.id p =? ImportJobCreate.provider_id job_data)
       (providers d) = Some provider ->
  find (fun j => ImportJob.id j =? next_uuid w) (import_jobs d) = None ->
  decrypt_api_key env (APIKey.key_encrypted api_key) = Ok plain ->
  exists job st',
    create_import_job env job_data (start d w) = (Ok job, st') /\
    ImportJob.status job = "running" /\
    exists job',
      job_after
        (snd (run_import_job env (ImportJob.id job)
                (start (committed (db st')) (world st'))))
        (ImportJob.id job) = Some job' /\
      terminal job' /\
      ImportJob.status job' <> "running".
Proof.
  intros Hk Hact Hp Hfresh Hdec.
  eexists. eexists.
  split; [apply (create_import_job_ok env d w job_data api_key provider);
          assumption|].
  split; [reflexivity|].
  simpl.
  set (job := created_job env job_data (next_uuid w) (clock w)).
  destruct (run_terminal_unless_decrypt_raises env (with_import_job d job)
              (mkWorld (clock w + 1)%Z (S (next_uuid w)) (remote w)
                 (requests w)) (next_uuid w) job)
    as (job' & Hjob & Hterm).
  - simpl. apply find_app_fresh; [assumption|reflexivity].
  - simpl. intros k e Hk'. rewrite Hk in Hk'. inversion Hk'. subst k.
    rewrite Hdec. discriminate.
  - exists job'. split; [exact Hjob|]. split; [exact Hterm|].
    destruct Hterm as [[H|[H|H]] _]; rewrite H; discriminate.
Qed.

Lemma created_job_runs_to_a_final_status_witness :
  (find (fun j => ImportJob.id j =? next_uuid Sample.world0)
        (import_jobs Sample.tables) = None /\
   decrypt_api_key Sample.env (APIKey.key_encrypted (Sample.key true))
     = Ok "sk-plain") /\
  exists job st',
    create_import_job Sample.env Sample.job_data
      (start Sample.tables Sample.world0) = (Ok job, st') /\
    exists job',
      job_after
        (snd (run_import_job Sample.env (ImportJob.id job)
                (start (committed (db st')) (world st'))))
        (ImportJob.id job) = Some job' /\
      terminal job'.
Proof.
  split; [split; reflexivity|].
  destruct (created_job_runs_to_a_final_status Sample.env Sample.tables
              Sample.world0 Sample.job_data (Sample.key true)
              Sample.acme_provider "sk-plain"
              eq_refl eq_refl eq_refl eq_refl eq_refl)
    as (job & st' & Hrun & _ & job' & Hjob & Hterm & _).
  exists job, st'. split; [exact Hrun|].
  exists job'. split; [exact Hjob|exact Hterm].
Defined.

(** ** Updating an api key *)

Lemma update_api_key_ok verdict d w api_key_id update_data api_key :
  find (fun k => APIKey.id k =? api_key_id) (api_keys d) = Some api_key ->
  verdict (apply_update api_key update_data) = None ->
  ApiKeys.update_api_key verdict api_key_id update_data (start d w) =
  (Ok (apply_update api_key update_data),
   mkSt w
     (SessionLocal
        (with_api_keys d
           (replace_api_key (apply_update api_key update_data) (api_keys d))))
     (mkLocals 0 0 0 [])).
Proof.
  intros Hk Hfit.
  assert (Hid : APIKey.id (apply_update api_key update_data)
                = APIKey.id api_key).
  { unfold apply_update.
    destruct (APIKeyUpdate.label update_data),
             (APIKeyUpdate.is_active update_data); reflexivity. }
  unfold ApiKeys.update_api_key, bind, query_api_key. simpl.
  rewrite Hk. unfold update_api_key. simpl. rewrite Hfit.
  unfold db_commit, db_commit_keys, db_flush, set_db. simpl.
  rewrite (find_replace_api_key _ api_key _ _ Hk Hid).
  destruct w. reflexivity.
Qed.

(** X19. [update_api_key] on an existing key, when the database takes
    the UPDATE, returns and stores the key with the given label and
    active flag (each kept when not given) and with its id, provider,
    ciphertext, [created_at] and [last_used_at] untouched; the other
    keys and the other tables are left as they were. *)
Theorem update_api_key_changes_label_and_flag_only
    verdict d w api_key_id update_data api_key :
  find (fun k => APIKey.id k =? api_key_id) (api_keys d) = Some api_key ->
  verdict (apply_update api_key update_data) = None ->
  exists api_key' st',
    ApiKeys.update_api_key verdict api_key_id update_data (start d w)
      = (Ok api_key', st') /\
    let d' := committed (db st') in
    find (fun k => APIKey.id k =? api_key_id) (api_keys d') = Some api_key' /\
    APIKey.label api_key' =
      match APIKeyUpdate.label update_data with
      | Some v => v
      | None => APIKey.label api_key
      end /\
    APIKey.is_active api_key' =
      match APIKeyUpdate.is_active update_data with
      | Some v => v
      | None => APIKey.is_active api_key
      end /\
    APIKey.id api_key' = APIKey.id api_key /\
    APIKey.provider_id api_key' = APIKey.provider_id api_key /\
    APIKey.key_encrypted api_key' = APIKey.key_encrypted api_key /\
    APIKey.created_at api_key' = APIKey.created_at api_key /\
    APIKey.last_used_at api_key' = APIKey.last_used_at api_key /\
    (forall other, other <> api_key_id ->
       find (fun k => APIKey.id k =? other) (api_keys d') =
       find (fun k => APIKey.id k =? other) (api_keys d)) /\
    map APIKey.id (api_keys d') = map APIKey.id (api_keys d) /\
    providers d' = providers d /\ import_jobs d' = import_jobs d /\
    conversations d' = conversations d /\ messages d' = messages d /\
    artifacts d' = artifacts d.
Proof.
  intros Hk Hfit.
  pose proof (find_api_key_id _ _ _ Hk) as Hkid.
  assert (Hid : APIKey.id (apply_update api_key update_data)
                = APIKey.id api_key).
  { unfold apply_update.
    destruct (APIKeyUpdate.label update_data),
             (APIKeyUpdate.is_active update_data); reflexivity. }
  eexists. eexists.
  split; [apply (update_api_key_ok verdict d w api_key_id update_data api_key
                   Hk Hfit)|].
  cbv zeta. simpl.
  split; [apply (find_replace_api_key _ api_key _ _ Hk Hid)|].
  split; [unfold apply_update;
          destruct (APIKeyUpdate.label update_data),
                   (APIKeyUpdate.is_active update_data); reflexivity|].
  split; [unfold apply_update;
          destruct (APIKeyUpdate.label update_data),
                   (APIKeyUpdate.is_active update_data); reflexivity|].
  split; [assumption|].
  do 4 (split; [unfold apply_update;
                destruct (APIKeyUpdate.label update_data),
                         (APIKeyUpdate.is_active update_data); reflexivity|]).
  split.
  { intros other Hne. apply find_replace_api_key_other. congruence. }
  split; [apply replace_api_key_ids|].
  repeat split.
Qed.

Lemma update_api_key_changes_label_and_flag_only_witness :
  (find (fun k => APIKey.id k =? 2) (api_keys Sample.tables)
     = Some (Sample.key true) /\
   label_verdict
     (apply_update (Sample.key true) (APIKeyUpdate.mk (Some "renamed") None))
     = None) /\
  exists api_key' st',
    ApiKeys.update_api_key label_verdict 2
      (APIKeyUpdate.mk (Some "renamed") None)
      (start Sample.tables Sample.world0) = (Ok api_key', st') /\
    APIKey.label api_key' = "renamed" /\
    APIKey.is_active api_key' = true /\
    APIKey.key_encrypted api_key' = "gAAAAAB-ciphertext".
Proof.
  split; [split; reflexivity|].
  destruct (update_api_key_changes_label_and_flag_only label_verdict
              Sample.tables Sample.world0 2
              (APIKeyUpdate.mk (Some "renamed") None)
              (Sample.key true) eq_refl eq_refl)
    as (k' & st' & Hrun & _ & Hlabel & Hact & _ & _ & Henc & _).
  exists k', st'. repeat split; assumption.
Defined.

(** X20. A refused [update_api_key] writes nothing. When it raises,
    the committed tables are as before the request, and either no key
    has the id and the exception is the 404 ["API key not found"], or
    the key exists and the exception is the one the database raised for
    the UPDATE of the commit. *)
Theorem refused_key_update_writes_nothing
    verdict d w api_key_id update_data e st' :
  ApiKeys.update_api_key verdict api_key_id update_data (start d w)
    = (Raise e, st') ->
  committed (db st') = d /\
  (e = HTTPException 404 "API key not found" /\
   find (fun k => APIKey.id k =? api_key_id) (api_keys d) = None
   \/
   exists api_key,
     find (fun k => APIKey.id k =? api_key_id) (api_keys d) = Some api_key /\
     verdict (apply_update api_key update_data) = Some e).
Proof.
  unfold ApiKeys.update_api_key, bind, query_api_key. simpl.
  destruct (find (fun k => APIKey.id k =? api_key_id) (api_keys d))
    as [k|] eqn:Hk.
  2:{ intros H. inversion H. split; [reflexivity|]. left. auto. }
  unfold update_api_key. simpl.
  destruct (verdict (apply_update k update_data)) as [e0|] eqn:Hv.
  - intros H. inversion H. subst. simpl. split; [reflexivity|].
    right. exists k. auto.
  - unfold db_commit, db_commit_keys, db_flush, set_db. simpl.
    assert (Hid : APIKey.id (apply_update k update_data) = APIKey.id k).
    { unfold apply_update.
      destruct (APIKeyUpdate.label update_data),
               (APIKeyUpdate.is_active update_data); reflexivity. }
    rewrite (find_replace_api_key _ k _ _ Hk Hid). discriminate.
Qed.

Lemma refused_key_update_writes_nothing_witness :
  let update_data := APIKeyUpdate.mk (Some long_label) (Some false) in
  let st' := snd (ApiKeys.update_api_key label_verdict 2 update_data
                    (start Sample.tables Sample.world0)) in
  fst (ApiKeys.update_api_key label_verdict 2 update_data
         (start Sample.tables Sample.world0)) = Raise too_long /\
  committed (db st') = Sample.tables /\
  find (fun k => APIKey.id k =? 2) (api_keys (committed (db st')))
    = Some (Sample.key true).
Proof.
  assert (H : ApiKeys.update_api_key label_verdict 2
                (APIKeyUpdate.mk (Some long_label) (Some false))
                (start Sample.tables Sample.world0)
              = (Raise too_long,
                 snd (ApiKeys.update_api_key label_verdict 2
                        (APIKeyUpdate.mk (Some long_label) (Some false))
                        (start Sample.tables Sample.world0))))
    by reflexivity.
  pose proof (proj1 (refused_key_update_writes_nothing label_verdict
                       Sample.tables Sample.world0 2
                       (APIKeyUpdate.mk (Some long_label) (Some false))
                       _ _ H)) as Hc.
  split; [reflexivity|]. split; [exact Hc|].
  rewrite Hc. reflexivity.
Defined.

(** X21. Deactivating a credential closes the creation gate: after
    [update_api_key] has set [is_active] to false, the database taking
    the UPDATE, [create_import_job] with that credential is refused with
    400 and creates no job. *)
Theorem deactivated_key_cannot_start_a_job
    verdict env d w job_data api_key label :
  find (fun k => APIKey.id k =? ImportJobCreate.api_key_id job_data)
       (api_keys d) = Some api_key ->
  verdict (apply_update api_key (APIKeyUpdate.mk label (Some false)))
    = None ->
  exists api_key' st',
    ApiKeys.update_api_key verdict (ImportJobCreate.api_key_id job_data)
      (APIKeyUpdate.mk label (Some false)) (start d w) = (Ok api_key', st') /\
    let st1 := start (committed (db st')) (world st') in
    create_import_job env job_data st1 =
      (Raise (HTTPException 400 "API key is not active"), st1) /\
    import_jobs (committed (db st')) = import_jobs d.
Proof.
  intros Hk Hfit.
  eexists. eexists.
  split; [apply (update_api_key_ok verdict d w _
                   (APIKeyUpdate.mk label (Some false)) api_key Hk Hfit)|].
  cbv zeta. simpl.
  split; [|reflexivity].
  apply create_import_job_inactive
    with (api_key := apply_update api_key (APIKeyUpdate.mk label (Some false))).
  - simpl. apply (find_replace_api_key _ api_key _ _ Hk).
    unfold apply_update. simpl. destruct label; reflexivity.
  - unfold apply_update. simpl. destruct label; reflexivity.
Qed.

Lemma deactivated_key_cannot_start_a_job_witness :
  find (fun k => APIKey.id k =? ImportJobCreate.api_key_id Sample.job_data)
       (api_keys Sample.tables) = Some (Sample.key true) /\
  exists api_key' st',
    ApiKeys.update_api_key label_verdict 2
      (APIKeyUpdate.mk None (Some false))
      (start Sample.tables Sample.world0) = (Ok api_key', st') /\
    create_import_job Sample.env Sample.job_data
      (start (committed (db st')) (world st')) =
      (Raise (HTTPException 400 "API key is not active"),
       start (committed (db st')) (world st')).
Proof.
  split; [reflexivity|].
  destruct (deactivated_key_cannot_start_a_job label_verdict Sample.env
              Sample.tables Sample.world0 Sample.job_data (Sample.key true)
              None eq_refl eq_refl)
    as (k' & st' & Hupd & Hcreate & _).
  exists k', st'. split; [exact Hupd|exact Hcreate].
Defined.

(** ** The manual import *)

Lemma keyed_manual_indices msgs : forall idx,
  map ProviderMessage.sequence_index (keyed manual_message idx msgs) =
  map Z.of_nat (seq idx (length msgs)).
Proof.
  induction msgs as [|m msgs IH]; intros idx; simpl; [reflexivity|].
  rewrite IH. reflexivity.
Qed.

(** X22. [import_manual_conversation] numbers the messages 0, 1, ...,
    n-1 in the order given, so their sequence indices are distinct and
    ascending; it keeps every message, fills a missing role with
    ["user"] and a missing content with the empty string, and returns no
    artifacts. It changes nothing but the clock it reads. *)
Theorem manual_import_numbers_messages_in_order
    timestamp title msgs metadata st :
  exists conv_detail st',
    import_manual_conversation timestamp title msgs metadata st
      = (Ok conv_detail, st') /\
    db st' = db st /\
    map ProviderMessage.sequence_index
        (ProviderConversationDetail.messages conv_detail) =
      map Z.of_nat (seq 0 (length msgs)) /\
    NoDup (map ProviderMessage.sequence_index
             (ProviderConversationDetail.messages conv_detail)) /\
    map ProviderMessage.role (ProviderConversationDetail.messages conv_detail)
      = map (fun m => match ManualMessage.role m with
                      | Some r => r
                      | None => "user"
                      end) msgs /\
    map ProviderMessage.content
        (ProviderConversationDetail.messages conv_detail)
      = map (fun m => match ManualMessage.content m with
                      | Some c => c
                      | None => ""
                      end) msgs /\
    ProviderConversationDetail.artifacts conv_detail = [] /\
    ProviderConversationDetail.title conv_detail = Some title.
Proof.
  eexists. eexists. split; [reflexivity|]. simpl.
  split; [reflexivity|].
  split; [apply keyed_manual_indices|].
  split.
  { rewrite keyed_manual_indices.
    apply Finite.Injective_map_NoDup; [|apply seq_NoDup].
    intros x y. apply Nat2Z.inj. }
  split.
  { generalize 0. induction msgs as [|m msgs IH]; intros n; simpl;
      [reflexivity|]. rewrite IH. reflexivity. }
  split.
  { generalize 0. induction msgs as [|m msgs IH]; intros n; simpl;
      [reflexivity|]. rewrite IH. reflexivity. }
  split; reflexivity.
Qed.

(** ** Reading a conversation back *)

Lemma by_sequence_index_total a b :
  by_sequence_index a b = true \/ by_sequence_index b a = true.
Proof.
  unfold by_sequence_index.
  destruct (Z.leb_spec (Message.sequence_index a) (Message.sequence_index b));
    [left; reflexivity|right; apply Z.leb_le; lia].
Qed.

Lemma by_sequence_index_trans a b c :
  by_sequence_index a b = true -> by_sequence_index b c = true ->
  by_sequence_index a c = true.
Proof.
  unfold by_sequence_index. rewrite !Z.leb_le. lia.
Qed.

Lemma projects_of_ok pt cps :
  (forall cp, In cp cps ->
     find (fun p => Project.id p =? ConversationProject.project_id cp)
          (projects pt) <> None) ->
  exists ps, projects_of pt cps = Ok ps /\ length ps = length cps.
Proof.
  induction cps as [|cp cps IH]; simpl; intros H.
  - exists []. auto.
  - destruct (find _ (projects pt)) as [p|] eqn:Hp.
    + destruct IH as (ps & -> & Hlen); [intros; apply H; auto|].
      exists (p :: ps). simpl. auto.
    + exfalso. apply (H cp); auto.
Qed.

(** X23. [get_conversation] answers 404 when no conversation has the
    id; otherwise, the assignments pointing at stored projects, it returns
    the conversation's own fields, all its stored messages and no others,
    each once, in ascending order of [sequence_index] whatever their order
    in the table, and all its stored artifacts. *)
Theorem get_conversation_sorts_messages d pt conversation_id :
  assignments_have_projects pt ->
  match find (fun c => Conversation.id c =? conversation_id)
             (conversations d) with
  | None =>
      get_conversation d pt conversation_id
        = Raise (HTTPException 404 "Conversation not found")
  | Some c =>
      exists r,
        get_conversation d pt conversation_id = Ok r /\
        ConversationDetail.id r = conversation_id /\
        ConversationDetail.title r = Conversation.title c /\
        ConversationDetail.provider_conversation_id r =
          Conversation.provider_conversation_id c /\
        Permutation (ConversationDetail.messages r)
          (map MessageResponse.model_validate
               (messages_of d conversation_id)) /\
        StronglySorted
          (fun a b => (MessageResponse.sequence_index a
                       <= MessageResponse.sequence_index b)%Z)
          (ConversationDetail.messages r) /\
        ConversationDetail.artifacts r =
          map ArtifactResponse.model_validate
              (artifacts_of d conversation_id)
  end.
Proof.
  intros Hpt. unfold get_conversation.
  destruct (find (fun c => Conversation.id c =? conversation_id)
              (conversations d)) as [c|] eqn:Hc; [|reflexivity].
  assert (Hid : Conversation.id c = conversation_id).
  { apply find_some in Hc. destruct Hc as [_ H]. apply Nat.eqb_eq. exact H. }
  rewrite Hid.
  destruct (projects_of_ok pt
              (filter (fun cp => ConversationProject.conversation_id cp
                                 =? conversation_id)
                      (conversation_projects pt))) as (ps & Hps & _).
  { intros cp Hin. apply filter_In in Hin. apply Hpt. tauto. }
  rewrite Hps.
  eexists. split; [reflexivity|]. simpl.
  split; [reflexivity|]. split; [reflexivity|]. split; [reflexivity|].
  split; [apply Permutation_map; apply sort_by_perm|].
  split; [|reflexivity].
  pose proof (sort_by_sorted _ by_sequence_index by_sequence_index_total
                by_sequence_index_trans (messages_of d conversation_id))
    as Hs.
  induction Hs as [|x l Hl IH Hx]; simpl; constructor; [assumption|].
  rewrite Forall_forall in *. intros y Hy.
  apply in_map_iff in Hy. destruct Hy as (m & <- & Hm).
  specialize (Hx m Hm). unfold by_sequence_index in Hx.
  apply Z.leb_le in Hx. exact Hx.
Qed.

Lemma get_conversation_sorts_messages_witness :
  assignments_have_projects no_projects /\
  let d' := committed (db (snd (run_import_job Sample.env 3
              (start Sample.tables Sample.world0)))) in
  exists r,
    get_conversation d' no_projects 1000 = Ok r /\
    map MessageResponse.sequence_index (ConversationDetail.messages r)
      = [0; 1; 2]%Z.
Proof.
  assert (H : assignments_have_projects no_projects) by (intros ? []).
  split; [exact H|].
  pose proof (get_conversation_sorts_messages
                (committed (db (snd (run_import_job Sample.env 3
                   (start Sample.tables Sample.world0)))))
                no_projects 1000 H) as Hget.
  vm_compute in Hget.
  destruct Hget as (r & Hr & _).
  exists r. split; [exact Hr|].
  vm_compute in Hr. inversion Hr. reflexivity.
Defined.

Lemma filter_all {A} (f : A -> bool) l :
  (forall x, In x l -> f x = true) -> filter f l = l.
Proof.
  induction l as [|x l IH]; simpl; intros H; [reflexivity|].
  rewrite (H x) by auto. rewrite IH; [reflexivity|]. intros; apply H; auto.
Qed.

Lemma filter_none {A} (f : A -> bool) l :
  (forall x, In x l -> f x = false) -> filter f l = [].
Proof.
  induction l as [|x l IH]; simpl; intros H; [reflexivity|].
  rewrite (H x) by auto. apply IH. intros; apply H; auto.
Qed.

Lemma keyed_in {A B} (row : UUID -> A -> B) xs : forall key y,
  In y (keyed row key xs) -> exists k x, In x xs /\ y = row k x.
Proof.
  induction xs as [|x xs IH]; simpl; intros key y Hin; [contradiction|].
  destruct Hin as [<-|Hin]; [exists key, x; auto|].
  destruct (IH _ _ Hin) as (k & x' & Hx & ->). exists k, x'. auto.
Qed.

Lemma keyed_messages_back cid msgs : forall key,
  map as_provider_message
      (map MessageResponse.model_validate (keyed (message_row cid) key msgs))
  = msgs.
Proof.
  induction msgs as [|m msgs IH]; intros key; simpl; [reflexivity|].
  rewrite IH. destruct m. reflexivity.
Qed.

Section ReadBack.

Variable provider : Provider.t.
Variable job : ImportJob.t.
Variable conv_detail : ProviderConversationDetail.t.
Variable key : UUID.
Variable d : Database.

Hypothesis Hfresh : has_conversation d key = false.
Hypothesis Hparents : children_have_parents d.

Let d' := stored provider job conv_detail key d.

Lemma find_stored :
  find (fun c => Conversation.id c =? key) (conversations d')
  = Some (conversation_row provider job conv_detail key).
Proof.
  unfold d', stored. simpl.
  unfold has_conversation in Hfresh.
  induction (conversations d) as [|c cs IH]; simpl in *.
  - rewrite Nat.eqb_refl. reflexivity.
  - apply orb_false_iff in Hfresh. destruct Hfresh as [Hc Hrest].
    rewrite Hc. apply IH. assumption.
Qed.

Lemma messages_of_stored :
  messages_of d' key =
  keyed (message_row key) (S key)
    (ProviderConversationDetail.messages conv_detail).
Proof.
  destruct Hparents as [Hpm _].
  unfold messages_of, d', stored. simpl. rewrite filter_app.
  rewrite filter_none, filter_all; [reflexivity| |].
  - intros m Hin. apply keyed_in in Hin.
    destruct Hin as (k & x & _ & ->). simpl. apply Nat.eqb_refl.
  - intros m Hin. apply Nat.eqb_neq. intros E.
    specialize (Hpm m Hin). rewrite E in Hpm. congruence.
Qed.

Lemma artifacts_of_stored :
  artifacts_of d' key =
  keyed (artifact_row key)
    (S key + length (ProviderConversationDetail.messages conv_detail))
    (ProviderConversationDetail.artifacts conv_detail).
Proof.
  destruct Hparents as [_ Hpa].
  unfold artifacts_of, d', stored. simpl. rewrite filter_app.
  rewrite filter_none, filter_all; [reflexivity| |].
  - intros a0 Hin. apply keyed_in in Hin.
    destruct Hin as (k & x & _ & ->). simpl. apply Nat.eqb_refl.
  - intros a0 Hin. apply Nat.eqb_neq. intros E.
    specialize (Hpa a0 Hin). rewrite E in Hpa. congruence.
Qed.

End ReadBack.

(** X24. A conversation just stored by a turn of the import reads back
    whole and in order: [get_conversation] on its new id returns the
    title and provider conversation id of the fetched conversation,
    exactly the adapter's messages, sorted by ascending [sequence_index]
    whatever order the adapter gave them in, and as many artifacts as
    were fetched. It is assumed that the key drawn is fresh, that stored
    messages and artifacts belong to stored conversations, and that no
    project is assigned to the new id. *)
Theorem imported_conversation_reads_back_in_order
    adapter api_key provider job summary st pt conv_detail :
  clean (db st) ->
  item_outcome adapter api_key provider job summary st
    = Persisted conv_detail ->
  has_conversation (committed (db st)) (next_uuid (world st)) = false ->
  children_have_parents (committed (db st)) ->
  (forall cp, In cp (conversation_projects pt) ->
     ConversationProject.conversation_id cp <> next_uuid (world st)) ->
  let d' := committed (db (snd (import_conversation adapter api_key provider
                                  job summary st))) in
  exists r,
    get_conversation d' pt (next_uuid (world st)) = Ok r /\
    ConversationDetail.title r = ProviderConversationDetail.title conv_detail /\
    ConversationDetail.provider_conversation_id r =
      Some (ProviderConversationDetail.provider_conversation_id conv_detail) /\
    Permutation (map as_provider_message (ConversationDetail.messages r))
      (ProviderConversationDetail.messages conv_detail) /\
    StronglySorted
      (fun a b => (MessageResponse.sequence_index a
                   <= MessageResponse.sequence_index b)%Z)
      (ConversationDetail.messages r) /\
    length (ConversationDetail.artifacts r) =
      length (ProviderConversationDetail.artifacts conv_detail) /\
    ConversationDetail.projects r = [].
Proof.
  intros Hclean Ho Hfresh Hparents Hcp d'.
  destruct (import_conversation_spec adapter api_key provider job summary st
              Hclean) as (st1 & Hrun & _ & _ & _ & Heff).
  rewrite Ho in Heff. simpl in Heff. destruct Heff as [Hd _].
  assert (Hd' : d' = stored provider job conv_detail (next_uuid (world st))
                       (committed (db st)))
    by (unfold d'; rewrite Hrun; exact Hd).
  clearbody d'. subst d'. clear Hrun Hd st1.
  unfold get_conversation.
  rewrite (find_stored provider job conv_detail _ _ Hfresh).
  change (Conversation.id (conversation_row provider job conv_detail
                             (next_uuid (world st))))
    with (next_uuid (world st)).
  rewrite (messages_of_stored provider job conv_detail _ _ Hfresh Hparents).
  rewrite (artifacts_of_stored provider job conv_detail _ _ Hfresh Hparents).
  rewrite (filter_none _ (conversation_projects pt)).
  2:{ intros cp Hin. apply Nat.eqb_neq. apply Hcp. assumption. }
  cbn [projects_of].
  eexists. split; [reflexivity|]. simpl.
  split; [reflexivity|]. split; [reflexivity|].
  split.
  { rewrite <- (keyed_messages_back (next_uuid (world st))
                  (ProviderConversationDetail.messages conv_detail)
                  (S (next_uuid (world st)))) at 2.
    apply Permutation_map. apply Permutation_map. apply sort_by_perm. }
  split.
  { pose proof (sort_by_sorted _ by_sequence_index by_sequence_index_total
                  by_sequence_index_trans
                  (keyed (message_row (next_uuid (world st)))
                     (S (next_uuid (world st)))
                     (ProviderConversationDetail.messages conv_detail)))
      as Hs.
    induction Hs as [|x l Hl IH Hx]; simpl; constructor; [assumption|].
    rewrite Forall_forall in *. intros y Hy.
    apply in_map_iff in Hy. destruct Hy as (m & <- & Hm).
    specialize (Hx m Hm). unfold by_sequence_index in Hx.
    apply Z.leb_le in Hx. exact Hx. }
  split; [|reflexivity].
  rewrite length_map, keyed_length. reflexivity.
Qed.

Lemma imported_conversation_reads_back_in_order_witness :
  let st := after_list "sk-plain" [] 0 Sample.tables Sample.world0 in
  let d' := committed (db (snd (import_conversation acme_shuffled "sk-plain"
              Sample.acme_provider Sample.job (Sample.summary "s") st))) in
  (clean (db st) /\
   item_outcome acme_shuffled "sk-plain" Sample.acme_provider Sample.job
     (Sample.summary "s") st = Persisted (shuffled_detail "s") /\
   has_conversation (committed (db st)) (next_uuid (world st)) = false /\
   children_have_parents (committed (db st))) /\
  map Message.sequence_index (messages d') = [2; 0; 1]%Z /\
  exists r,
    get_conversation d' no_projects 1000 = Ok r /\
    map MessageResponse.sequence_index (ConversationDetail.messages r)
      = [0; 1; 2]%Z.
Proof.
  assert (Hclean : clean (db (after_list "sk-plain" [] 0 Sample.tables
                                Sample.world0))) by (split; reflexivity).
  assert (Hparents : children_have_parents
            (committed (db (after_list "sk-plain" [] 0 Sample.tables
                              Sample.world0))))
    by (split; intros ? []).
  split; [split; [exact Hclean|split; [reflexivity|split;
          [reflexivity|exact Hparents]]]|].
  split; [reflexivity|].
  destruct (imported_conversation_reads_back_in_order acme_shuffled
              "sk-plain" Sample.acme_provider Sample.job (Sample.summary "s")
              (after_list "sk-plain" [] 0 Sample.tables Sample.world0)
              no_projects (shuffled_detail "s")
              Hclean eq_refl eq_refl Hparents (fun cp (H : False) => match H with end))
    as (r & Hget & _).
  exists r. split; [exact Hget|].
  vm_compute in Hget. inversion Hget. reflexivity.
Defined.

(** ** What a refused flush depends on *)

Lemma find_existsb {A} (f : A -> bool) (l : list A) :
  existsb f l = match find f l with Some _ => true | None => false end.
Proof.
  induction l as [|x l IH]; simpl; [reflexivity|].
  destruct (f x); simpl; [reflexivity|assumption].
Qed.

(** Whether the flush of the messages of a stored conversation is
    refused does not depend on the keys nor on the other rows. *)
Lemma flush_messages_same cid cid' msgs : forall d d' key key',
  has_conversation d cid = true ->
  has_conversation d' cid' = true ->
  match flush_rows (map (new_message cid) msgs) d key,
        flush_rows (map (new_message cid') msgs) d' key' with
  | (Ok _, d2, _), (Ok _, d2', _) =>
      has_conversation d2 cid = true /\ has_conversation d2' cid' = true
  | (Raise _, _, _), (Raise _, _, _) => True
  | _, _ => False
  end.
Proof.
  induction msgs as [|m msgs IH]; intros d d' key key' Hcid Hcid'; simpl.
  - split; assumption.
  - unfold insert_message. simpl. rewrite Hcid, Hcid'. simpl.
    destruct (varchar_ok 50 (ProviderMessage.role m)); simpl; [|trivial].
    destruct (int4_ok (ProviderMessage.sequence_index m)); simpl; [|trivial].
    match goal with
    | |- context [flush_rows _ ?d1 (S key)] =>
        match goal with
        | |- context [flush_rows _ ?d1' (S key')] =>
            specialize (IH d1 d1' (S key) (S key') Hcid Hcid')
        end
    end.
    destruct (flush_rows (map (new_message cid) msgs) _ (S key))
      as [[[keys|e] d2] key2];
    destruct (flush_rows (map (new_message cid') msgs) _ (S key'))
      as [[[keys'|e'] d2'] key2']; assumption.
Qed.

Lemma flush_artifacts_same cid cid' arts : forall d d' key key',
  has_conversation d cid = true ->
  has_conversation d' cid' = true ->
  match flush_rows (map (new_artifact cid) arts) d key,
        flush_rows (map (new_artifact cid') arts) d' key' with
  | (Ok _, _, _), (Ok _, _, _) => True
  | (Raise _, _, _), (Raise _, _, _) => True
  | _, _ => False
  end.
Proof.
  induction arts as [|a arts IH]; intros d d' key key' Hcid Hcid'; simpl.
  - trivial.
  - unfold insert_artifact. simpl. rewrite Hcid, Hcid'. simpl.
    destruct (varchar_ok 50 (ProviderArtifact.artifact_type a)); simpl;
      [|trivial].
    destruct (varchar_opt_ok 200 (ProviderArtifact.mime_type a)); simpl;
      [|trivial].
    destruct (varchar_ok 50 (ProviderArtifact.download_status a)); simpl;
      [|trivial].
    match goal with
    | |- context [flush_rows _ ?d1 (S key)] =>
        match goal with
        | |- context [flush_rows _ ?d1' (S key')] =>
            specialize (IH d1 d1' (S key) (S key') Hcid Hcid')
        end
    end.
    destruct (flush_rows (map (new_artifact cid) arts) _ (S key))
      as [[[keys|e] d2] key2];
    destruct (flush_rows (map (new_artifact cid') arts) _ (S key'))
      as [[[keys'|e'] d2'] key2']; assumption.
Qed.

Lemma flush_children_same cid cid' conv_detail d d' key key' :
  has_conversation d cid = true ->
  has_conversation d' cid' = true ->
  match flush_rows (children cid conv_detail) d key,
        flush_rows (children cid' conv_detail) d' key' with
  | (Ok _, _, _), (Ok _, _, _) => True
  | (Raise _, _, _), (Raise _, _, _) => True
  | _, _ => False
  end.
Proof.
  intros Hcid Hcid'. unfold children. rewrite !flush_rows_app.
  pose proof (flush_messages_same cid cid'
                (ProviderConversationDetail.messages conv_detail)
                d d' key key' Hcid Hcid') as Hm.
  destruct (flush_rows (map (new_message cid) _) d key)
    as [[[keys1|e1] d1] key1];
  destruct (flush_rows (map (new_message cid') _) d' key')
    as [[[keys1'|e1'] d1'] key1']; try contradiction; [|trivial].
  destruct Hm as [H1 H1'].
  pose proof (flush_artifacts_same cid cid'
                (ProviderConversationDetail.artifacts conv_detail)
                d1 d1' key1 key1' H1 H1') as Ha.
  destruct (flush_rows (map (new_artifact cid) _) d1 key1)
    as [[[keys2|e2] d2] key2];
  destruct (flush_rows (map (new_artifact cid') _) d1' key1')
    as [[[keys2'|e2'] d2'] key2']; assumption.
Qed.

(** A flush that is refused once is refused wherever the conversation
    is stored. *)
Lemma children_refused_always conv_detail d cid key :
  children_refused conv_detail ->
  has_conversation d cid = true ->
  exists e d2 key2,
    flush_rows (children cid conv_detail) d key = (Raise e, d2, key2).
Proof.
  intros (d0 & cid0 & key0 & e0 & d2 & key2 & Hcid0 & Hflush) Hcid.
  pose proof (flush_children_same cid0 cid conv_detail d0 d key0 key
                Hcid0 Hcid) as H.
  rewrite Hflush in H.
  destruct (flush_rows (children cid conv_detail) d key)
    as [[[keys|e] d3] key3]; [contradiction|].
  eauto.
Qed.

(** The INSERT of the conversation row of a turn is not refused in the
    model: its provider and its job are stored, and the dedup query has
    found no row of the pair. *)
Lemma insert_conversation_accepted d provider job conv_detail key :
  has_provider d (Provider.id provider) = true ->
  has_import_job d (ImportJob.id job) = true ->
  is_stored provider d conv_detail = false ->
  insert_conversation d (conversation_row provider job conv_detail key) =
  Ok (mkDatabase (providers d) (api_keys d) (import_jobs d)
        (conversations d ++ [conversation_row provider job conv_detail key])
        (messages d) (artifacts d)).
Proof.
  unfold is_stored. intros Hp Hj Hs.
  unfold insert_conversation, uq_provider_conversation. simpl.
  rewrite Hp, Hj, Hs. reflexivity.
Qed.

(** What each outcome of a turn says of the adapter's answer. *)
Lemma item_outcome_cases adapter api_key provider job summary st :
  has_provider (txn (db st)) (Provider.id provider) = true ->
  has_import_job (txn (db st)) (ImportJob.id job) = true ->
  let answer :=
    fst (fetch_conversation adapter api_key
           (ProviderConversationSummary.provider_conversation_id summary)
           (remote (world st)) (clock (world st))) in
  match item_outcome adapter api_key provider job summary st with
  | FetchFailed e => answer = Raise e
  | Duplicate =>
      exists conv_detail,
        answer = Ok conv_detail /\
        is_stored provider (txn (db st)) conv_detail = true
  | InsertFailed _ => False
  | CommitFailed conv_detail _ =>
      answer = Ok conv_detail /\ children_refused conv_detail
  | Persisted conv_detail =>
      answer = Ok conv_detail /\
      is_stored provider (txn (db st)) conv_detail = false /\
      ~ children_refused conv_detail
  end.
Proof.
  intros Hp Hj. cbv zeta. unfold item_outcome.
  destruct (fetch_conversation _ _ _ _ _) as [[cd|e] r']; simpl;
    [|reflexivity].
  destruct (find _ (conversations (txn (db st)))) eqn:Hfind.
  { exists cd. split; [reflexivity|].
    unfold is_stored. rewrite find_existsb, Hfind. reflexivity. }
  assert (Hs : is_stored provider (txn (db st)) cd = false)
    by (unfold is_stored; rewrite find_existsb, Hfind; reflexivity).
  rewrite (insert_conversation_accepted _ _ _ _ _ Hp Hj Hs).
  match goal with
  | |- context [flush_rows (children ?cid cd) ?d1 ?k] =>
      assert (Hcid : has_conversation d1 cid = true)
        by (unfold has_conversation; simpl; rewrite existsb_app; simpl;
            rewrite Nat.eqb_refl, orb_true_r; reflexivity);
      destruct (flush_rows (children cid cd) d1 k)
        as [[[keys|e] d2] key2] eqn:Hflush
  end.
  - split; [reflexivity|]. split; [assumption|].
    intros Href.
    destruct (children_refused_always cd _ _ (S (next_uuid (world st)))
                Href Hcid) as (e & d3 & key3 & H).
    rewrite Hflush in H. discriminate.
  - split; [reflexivity|]. red. eauto 10.
Qed.

(** ** Running an import again *)

Lemma persisted_fits adapter api_key provider job summary st conv_detail :
  item_outcome adapter api_key provider job summary st
    = Persisted conv_detail ->
  fst (fetch_conversation adapter api_key
         (ProviderConversationSummary.provider_conversation_id summary)
         (remote (world st)) (clock (world st))) = Ok conv_detail /\
  is_stored provider (txn (db st)) conv_detail = false /\
  ~ children_refused conv_detail.
Proof.
  unfold item_outcome, is_stored.
  destruct (fetch_conversation _ _ _ _ _) as [[cd|e] r']; [|discriminate].
  rewrite find_existsb.
  destruct (find _ (conversations (txn (db st)))) eqn:Hfind; [discriminate|].
  destruct (insert_conversation _ _) as [d1|e] eqn:Hins; [|discriminate].
  apply insert_conversation_rows in Hins.
  assert (Hcid : has_conversation d1 (next_uuid (world st)) = true).
  { rewrite Hins. unfold has_conversation. simpl. rewrite existsb_app. simpl.
    rewrite Nat.eqb_refl, orb_true_r. reflexivity. }
  destruct (flush_rows _ _ _) as [[[keys|e] d2] key2] eqn:Hflush;
    [|discriminate].
  intros H. inversion H. subst. simpl. rewrite Hfind.
  split; [reflexivity|]. split; [reflexivity|].
  intros Href.
  destruct (children_refused_always conv_detail _ _
              (S (next_uuid (world st))) Href Hcid) as (e & d3 & key3 & H').
  rewrite Hflush in H'. discriminate.
Qed.

Lemma is_stored_appended provider d d' cs conv_detail :
  conversations d' = conversations d ++ cs ->
  is_stored provider d conv_detail = true ->
  is_stored provider d' conv_detail = true.
Proof.
  unfold is_stored. intros -> H. rewrite existsb_app, H. reflexivity.
Qed.

Lemma settled_appended provider d d' cs answer :
  conversations d' = conversations d ++ cs ->
  settled provider d answer -> settled provider d' answer.
Proof.
  intros Hc. destruct answer as [cd|e]; simpl; [|trivial].
  intros [H|H]; [left; eapply is_stored_appended; eassumption|right; exact H].
Qed.

Lemma is_stored_row provider job conv_detail key d :
  is_stored provider
    (stored provider job conv_detail key d) conv_detail = true.
Proof.
  unfold is_stored, stored. simpl. rewrite existsb_app. simpl.
  unfold same_conversation at 2. simpl.
  rewrite Nat.eqb_refl, String.eqb_refl. simpl.
  rewrite orb_true_r. reflexivity.
Qed.

Section Rerun.

Variable adapter : ConversationProviderAdapter.
Variable provider : Provider.t.
Variable detail : string -> Res ProviderConversationDetail.t.

Hypothesis Hpure : forall k pcid r c,
  fst (fetch_conversation adapter k pcid r c) = detail pcid.

Let answer (summary : ProviderConversationSummary.t) :=
  detail (ProviderConversationSummary.provider_conversation_id summary).

(** After its turn nothing is left to store for a summary; and if the
    turn logged no error, its conversation is stored. *)
Lemma turn_settles api_key job summary st :
  clean (db st) ->
  has_provider (committed (db st)) (Provider.id provider) = true ->
  has_import_job (committed (db st)) (ImportJob.id job) = true ->
  let st' :=
    snd (import_conversation adapter api_key provider job summary st) in
  settled provider (committed (db st')) (answer summary) /\
  (errors (frame st') = errors (frame st) ->
   exists conv_detail,
     answer summary = Ok conv_detail /\
     is_stored provider (committed (db st')) conv_detail = true).
Proof.
  intros Hclean Hp Hj st'.
  destruct (import_conversation_spec adapter api_key provider job summary st
              Hclean) as (st1 & Hrun & _ & _ & _ & Heff).
  assert (Hst : st' = st1) by (unfold st'; rewrite Hrun; reflexivity).
  rewrite Hst. clear Hst st'.
  pose proof (turn_effect_errors _ _ _ _ _ _ Heff) as Herr.
  destruct Hclean as [Htxn _].
  pose proof (item_outcome_cases adapter api_key provider job summary st)
    as Hcases.
  rewrite Htxn in Hcases. specialize (Hcases Hp Hj). cbv zeta in Hcases.
  rewrite Hpure in Hcases. fold (answer summary) in Hcases.
  assert (Hgrew : forall msg,
            errors (frame st1) = errors (frame st) ++ [msg] ->
            errors (frame st1) <> errors (frame st)).
  { intros msg E E'. rewrite E' in E. apply (f_equal (@length _)) in E.
    rewrite length_app in E. simpl in E. lia. }
  destruct (item_outcome adapter api_key provider job summary st)
    as [e| |e|cd e|cd]; simpl in Heff, Herr.
  - rewrite Hcases. simpl. split; [trivial|].
    intros E. exfalso. eapply Hgrew; eassumption.
  - destruct Hcases as (cd & Ha & Hs). destruct Heff as [Hc _].
    rewrite Ha, Hc. simpl. split; [left; assumption|].
    intros _. exists cd. auto.
  - contradiction.
  - destruct Hcases as (Ha & Href). rewrite Ha. simpl.
    split; [right; assumption|].
    intros E. exfalso. eapply Hgrew; eassumption.
  - destruct Hcases as (Ha & _ & _). destruct Heff as [Hc _].
    rewrite Ha, Hc. simpl. split; [left; apply is_stored_row|].
    intros _. exists cd. split; [reflexivity|apply is_stored_row].
Qed.

Lemma after_turns_settles api_key job summaries : forall st,
  clean (db st) ->
  has_provider (committed (db st)) (Provider.id provider) = true ->
  has_import_job (committed (db st)) (ImportJob.id job) = true ->
  let st' := after_turns adapter api_key provider job summaries st in
  (forall s, In s summaries ->
     settled provider (committed (db st')) (answer s)) /\
  (errors (frame st') = errors (frame st) ->
   forall s, In s summaries ->
     exists conv_detail,
       answer s = Ok conv_detail /\
       is_stored provider (committed (db st')) conv_detail = true).
Proof.
  induction summaries as [|summary rest IH]; intros st Hclean Hp Hj; simpl.
  - split; [intros s []|intros _ s []].
  - destruct (import_conversation_spec adapter api_key provider job summary
                st Hclean) as (st1 & Hrun & _ & _ & Hclean1 & Heff).
    pose proof (turn_settles api_key job summary st Hclean Hp Hj) as Hturn.
    pose proof (turn_effect_errors _ _ _ _ _ _ Heff) as Herr1.
    destruct (turn_effect_static _ _ _ _ _ _ Heff) as (Hprov & _ & Hjobs).
    rewrite Hrun in *. simpl in *.
    assert (Hp1 : has_provider (committed (db st1)) (Provider.id provider)
                  = true)
      by (unfold has_provider in *; rewrite Hprov; assumption).
    assert (Hj1 : has_import_job (committed (db st1)) (ImportJob.id job)
                  = true)
      by (unfold has_import_job in *; rewrite Hjobs; assumption).
    destruct (IH st1 Hclean1 Hp1 Hj1) as [IHs IHe].
    destruct (after_turns_appends adapter api_key provider job rest st1
                Hclean1) as (cs & ms & ars & (Hc & _ & _) & _).
    pose proof (after_turns_errors adapter api_key provider job rest st1
                  Hclean1) as Herr2.
    destruct Hturn as [Hset Hsto].
    split.
    + intros s [<-|Hin]; [|apply IHs; assumption].
      eapply settled_appended; eassumption.
    + intros E.
      rewrite Herr2, Herr1, <- app_assoc in E.
      rewrite <- (app_nil_r (errors (frame st))) in E at 2.
      apply app_inv_head in E. apply app_eq_nil in E. destruct E as [E1 E2].
      assert (F1 : errors (frame st1) = errors (frame st))
        by (rewrite Herr1, E1, app_nil_r; reflexivity).
      assert (F2 : errors (frame (after_turns adapter api_key provider job
                                    rest st1)) = errors (frame st1))
        by (rewrite Herr2, E2, app_nil_r; reflexivity).
      intros s [<-|Hin]; [|apply IHe; assumption].
      destruct (Hsto F1) as (cd & Ha & Hs). exists cd.
      split; [assumption|]. eapply is_stored_appended; eassumption.
Qed.

(** A turn for a settled summary commits nothing. *)
Lemma settled_turn api_key job summary st :
  clean (db st) ->
  settled provider (committed (db st)) (answer summary) ->
  committed
    (db (snd (import_conversation adapter api_key provider job summary st)))
  = committed (db st).
Proof.
  intros Hclean Hset.
  destruct (import_conversation_spec adapter api_key provider job summary st
              Hclean) as (st1 & Hrun & _ & _ & _ & Heff).
  rewrite Hrun. simpl.
  destruct (item_outcome adapter api_key provider job summary st)
    as [e| |e|cd e|cd] eqn:Ho; simpl in Heff;
    try solve [destruct Heff as [Hc _]; exact Hc].
  exfalso. apply persisted_fits in Ho. destruct Ho as (Hf & Hs & Hce).
  rewrite Hpure in Hf. fold (answer summary) in Hf.
  rewrite Hf in Hset. simpl in Hset.
  destruct Hclean as [Htxn _]. rewrite Htxn in Hs.
  destruct Hset as [H|H]; [congruence|contradiction].
Qed.

(** A turn for a stored conversation is skipped. *)
Lemma stored_turn api_key job summary st conv_detail :
  clean (db st) ->
  answer summary = Ok conv_detail ->
  is_stored provider (committed (db st)) conv_detail = true ->
  let st' :=
    snd (import_conversation adapter api_key provider job summary st) in
  committed (db st') = committed (db st) /\ frame st' = frame st.
Proof.
  intros Hclean Ha Hs st'.
  destruct (import_conversation_spec adapter api_key provider job summary st
              Hclean) as (st1 & Hrun & _ & _ & _ & Heff).
  assert (Hst : st' = st1) by (unfold st'; rewrite Hrun; reflexivity).
  rewrite Hst. clear Hst st'.
  assert (Ho : item_outcome adapter api_key provider job summary st
               = Duplicate).
  { unfold item_outcome.
    pose proof (Hpure api_key
                  (ProviderConversationSummary.provider_conversation_id
                     summary)
                  (remote (world st)) (clock (world st))) as Hf.
    fold (answer summary) in Hf. rewrite Ha in Hf.
    destruct (fetch_conversation _ _ _ _ _) as [r0 r']. simpl in Hf.
    subst r0.
    destruct Hclean as [Htxn _]. rewrite Htxn.
    unfold is_stored in Hs. rewrite find_existsb in Hs.
    destruct (find _ (conversations (committed (db st))));
      [reflexivity|discriminate]. }
  rewrite Ho in Heff. exact Heff.
Qed.

Lemma after_turns_settled api_key job summaries : forall st,
  clean (db st) ->
  (forall s, In s summaries ->
     settled provider (committed (db st)) (answer s)) ->
  committed (db (after_turns adapter api_key provider job summaries st))
  = committed (db st).
Proof.
  induction summaries as [|summary rest IH]; intros st Hclean Hall; simpl.
  - reflexivity.
  - destruct (import_conversation_spec adapter api_key provider job summary
                st Hclean) as (st1 & Hrun & _ & _ & Hclean1 & _).
    pose proof (settled_turn api_key job summary st Hclean
                  (Hall summary (or_introl eq_refl))) as Hc.
    rewrite Hrun in *. simpl in Hc. simpl.
    rewrite IH; [assumption|assumption|].
    intros s Hin. rewrite Hc. apply Hall. right. assumption.
Qed.

Lemma after_turns_stored api_key job summaries : forall st,
  clean (db st) ->
  (forall s, In s summaries ->
     exists conv_detail,
       answer s = Ok conv_detail /\
       is_stored provider (committed (db st)) conv_detail = true) ->
  frame (after_turns adapter api_key provider job summaries st) = frame st.
Proof.
  induction summaries as [|summary rest IH]; intros st Hclean Hall; simpl.
  - reflexivity.
  - destruct (import_conversation_spec adapter api_key provider job summary
                st Hclean) as (st1 & Hrun & _ & _ & Hclean1 & _).
    destruct (Hall summary (or_introl eq_refl)) as (cd & Ha & Hs).
    destruct (stored_turn api_key job summary st cd Hclean Ha Hs)
      as [Hc Hf].
    rewrite Hrun in *. simpl in Hc, Hf. simpl.
    rewrite IH; [assumption|assumption|].
    intros s Hin. rewrite Hc. apply Hall. right. assumption.
Qed.

End Rerun.

Lemma find_has_import_job d job_id job :
  find (fun j => ImportJob.id j =? job_id) (import_jobs d) = Some job ->
  has_import_job d (ImportJob.id job) = true.
Proof.
  intros H. apply find_some in H. destruct H as [Hin _].
  unfold has_import_job. apply existsb_exists. exists job.
  split; [assumption|apply Nat.eqb_refl].
Qed.

Lemma resolved_rows env d job_id job api_key_record api_key provider adapter :
  Resolved env d job_id job api_key_record api_key provider adapter ->
  has_provider d (Provider.id provider) = true /\
  has_import_job d (ImportJob.id job) = true.
Proof.
  intros (Hj & _ & _ & Hp & _). split.
  - rewrite (find_provider_id _ _ _ Hp).
    eapply find_has_provider; eassumption.
  - eapply find_has_import_job; eassumption.
Qed.

(** X26. Running an import again stores nothing. Let a run reach its
    final block, with an adapter whose answer to a fetch depends only on
    the conversation id. Then a second run for the same provider, started
    on the tables and in the world the first run left and listing no
    conversation the first did not list, leaves the conversations,
    messages and artifacts tables exactly as the first run left them; and
    if the first run ended ["success"], the second ends ["success"] with
    its three counters at 0. *)
Theorem rerun_stores_nothing
    env d w job_id job api_key_record api_key provider adapter summaries
    remote1 detail job_id2 job2 api_key_record2 api_key2 summaries2 remote2 :
  Resolved env d job_id job api_key_record api_key provider adapter ->
  list_conversations adapter api_key
    (build_options (ImportJob.requested_range job)) (remote w) (clock w)
    = (Ok summaries, remote1) ->
  (forall k pcid r c,
     fst (fetch_conversation adapter k pcid r c) = detail pcid) ->
  Resolved env (committed (db (after_run env job_id d w))) job_id2 job2
    api_key_record2 api_key2 provider adapter ->
  list_conversations adapter api_key2
    (build_options (ImportJob.requested_range job2))
    (remote (world (after_run env job_id d w)))
    (clock (world (after_run env job_id d w)))
    = (Ok summaries2, remote2) ->
  incl (map ProviderConversationSummary.provider_conversation_id summaries2)
       (map ProviderConversationSummary.provider_conversation_id summaries) ->
  let st1 := after_run env job_id d w in
  let st2 := snd (run_import_job env job_id2 (next_session st1)) in
  conversations (committed (db st2)) = conversations (committed (db st1)) /\
  messages (committed (db st2)) = messages (committed (db st1)) /\
  artifacts (committed (db st2)) = artifacts (committed (db st1)) /\
  (forall j1,
     job_after st1 job_id = Some j1 -> ImportJob.status j1 = "success" ->
     exists j2,
       job_after st2 job_id2 = Some j2 /\
       ImportJob.status j2 = "success" /\
       ImportJob.conversations_imported j2 = 0 /\
       ImportJob.messages_imported j2 = 0 /\
       ImportJob.artifacts_imported j2 = 0).
Proof.
  intros Hres1 Hlist1 Hpure Hres2 Hlist2 Hincl.
  destruct (run_finished env d w job_id job api_key_record api_key provider
              adapter summaries remote1 Hres1 Hlist1)
    as (st1 & Hrun1 & Hframe1 & _ & _ & _ & Hjob1 & _ & Hc1 & _ & _).
  unfold after_run in *. rewrite Hrun1 in *. simpl snd in *.
  unfold next_session.
  destruct (run_finished env (committed (db st1)) (world st1) job_id2 job2
              api_key_record2 api_key2 provider adapter summaries2 remote2
              Hres2 Hlist2)
    as (st2 & Hrun2 & Hframe2 & _ & _ & _ & Hjob2 & _ & Hc2 & Hm2 & Ha2).
  rewrite Hrun2. simpl snd.
  set (a1 := after_list api_key
               (build_options (ImportJob.requested_range job)) remote1 d w)
    in *.
  set (a2 := after_list api_key2
               (build_options (ImportJob.requested_range job2)) remote2
               (committed (db st1)) (world st1)) in *.
  assert (Hclean1 : clean (db a1)) by (split; reflexivity).
  assert (Hclean2 : clean (db a2)) by (split; reflexivity).
  destruct (resolved_rows _ _ _ _ _ _ _ _ Hres1) as [Hp Hj].
  destruct (after_turns_settles adapter provider detail Hpure api_key job
              summaries a1 Hclean1 Hp Hj) as [Hset Hsto].
  (* every summary of the second list was settled by the first run *)
  assert (Hlisted : forall s, In s summaries2 ->
            exists s', In s' summaries /\
              ProviderConversationSummary.provider_conversation_id s' =
              ProviderConversationSummary.provider_conversation_id s).
  { intros s Hin.
    apply (in_map ProviderConversationSummary.provider_conversation_id)
      in Hin.
    apply Hincl in Hin. apply in_map_iff in Hin.
    destruct Hin as (s' & E & Hin). exists s'. auto. }
  assert (Hset2 : forall s, In s summaries2 ->
            settled provider (committed (db a2))
              (detail
                 (ProviderConversationSummary.provider_conversation_id s))).
  { intros s Hin. destruct (Hlisted s Hin) as (s' & Hin' & <-).
    apply settled_appended with (d := committed (db (after_turns adapter
            api_key provider job summaries a1))) (cs := []).
    - simpl. rewrite app_nil_r. exact Hc1.
    - apply Hset. assumption. }
  pose proof (after_turns_settled adapter provider detail Hpure api_key2 job2
                summaries2 a2 Hclean2 Hset2) as Hsame.
  rewrite Hsame in Hc2, Hm2, Ha2. simpl in Hc2, Hm2, Ha2.
  split; [exact Hc2|]. split; [exact Hm2|]. split; [exact Ha2|].
  intros j1 Hj1 Hstatus.
  rewrite Hjob1 in Hj1. inversion Hj1. subst j1. clear Hj1.
  assert (Herrs : errors (frame st1) = []).
  { unfold finished_job in Hstatus. simpl in Hstatus.
    destruct (errors (frame st1)); [reflexivity|discriminate]. }
  rewrite Hframe1 in Herrs.
  assert (Hsto2 : forall s, In s summaries2 ->
            exists conv_detail,
              detail
                (ProviderConversationSummary.provider_conversation_id s)
                = Ok conv_detail /\
              is_stored provider (committed (db a2)) conv_detail = true).
  { intros s Hin. destruct (Hlisted s Hin) as (s' & Hin' & <-).
    destruct (Hsto Herrs s' Hin') as (cd & Hd & Hs).
    exists cd. split; [assumption|].
    apply is_stored_appended with (d := committed (db (after_turns adapter
            api_key provider job summaries a1))) (cs := []);
      [simpl; rewrite app_nil_r; exact Hc1|assumption]. }
  pose proof (after_turns_stored adapter provider detail Hpure api_key2 job2
                summaries2 a2 Hclean2 Hsto2) as Hf.
  rewrite Hf in Hframe2.
  eexists. split; [exact Hjob2|].
  rewrite Hframe2. simpl. auto.
Qed.

Lemma rerun_stores_nothing_witness :
  let st1 := after_run Fixture.env_three 3 Fixture.tables_two_jobs
               Sample.world0 in
  let st2 := snd (run_import_job Fixture.env_three 7 (next_session st1)) in
  (Resolved Fixture.env_three Fixture.tables_two_jobs 3 Sample.job
     (Sample.key true) "sk-plain" Sample.acme_provider Fixture.acme_three /\
   Resolved Fixture.env_three (committed (db st1)) 7 Fixture.second_job
     (APIKey.set_last_used_at (Sample.key true) (Some 101%Z)) "sk-plain"
     Sample.acme_provider Fixture.acme_three) /\
  length (conversations (committed (db st1))) = 2 /\
  conversations (committed (db st2)) = conversations (committed (db st1)) /\
  messages (committed (db st2)) = messages (committed (db st1)) /\
  exists j2,
    job_after st2 7 = Some j2 /\
    ImportJob.status j2 = "success" /\
    ImportJob.conversations_imported j2 = 0.
Proof.
  assert (Hres1 : Resolved Fixture.env_three Fixture.tables_two_jobs 3
                    Sample.job (Sample.key true) "sk-plain"
                    Sample.acme_provider Fixture.acme_three)
    by (repeat split; reflexivity).
  assert (Hres2 : Resolved Fixture.env_three
                    (committed (db (after_run Fixture.env_three 3
                                      Fixture.tables_two_jobs Sample.world0)))
                    7 Fixture.second_job
                    (APIKey.set_last_used_at (Sample.key true) (Some 101%Z))
                    "sk-plain" Sample.acme_provider Fixture.acme_three)
    by (repeat split; reflexivity).
  split; [split; assumption|].
  split; [reflexivity|].
  destruct (rerun_stores_nothing Fixture.env_three Fixture.tables_two_jobs
              Sample.world0 3 Sample.job (Sample.key true) "sk-plain"
              Sample.acme_provider Fixture.acme_three
              [Sample.summary "x"; Sample.summary "y"; Sample.summary "x"] 0
              (fun pcid => Ok (Sample.detail pcid "user"))
              7 Fixture.second_job
              (APIKey.set_last_used_at (Sample.key true) (Some 101%Z))
              "sk-plain"
              [Sample.summary "x"; Sample.summary "y"; Sample.summary "x"] 0
              Hres1 eq_refl (fun _ _ _ _ => eq_refl) Hres2 eq_refl
              (fun x H => H))
    as (Hc & Hm & _ & Hsucc).
  split; [exact Hc|]. split; [exact Hm|].
  destruct (Hsucc
              (finished_job Sample.job (mkLocals 2 6 2 []) 100%Z)
              eq_refl eq_refl)
    as (j2 & Hj2 & Hst & Hn & _).
  exists j2. auto.
Defined.

(** ** Projects *)

Lemma NoDup_map_inj {A B} (f : A -> B) (l : list A) a b :
  NoDup (map f l) -> In a l -> In b l -> f a = f b -> a = b.
Proof.
  induction l as [|x l IH]; simpl; intros Hnd Ha Hb E; [contradiction|].
  inversion Hnd as [|? ? Hnotin Hnd']; subst.
  destruct Ha as [->|Ha], Hb as [->|Hb]; auto.
  - exfalso. apply Hnotin. rewrite E. apply in_map. assumption.
  - exfalso. apply Hnotin. rewrite <- E. apply in_map. assumption.
Qed.

Lemma replace_project_ids p rows :
  map Project.id (replace_project p rows) = map Project.id rows.
Proof.
  induction rows as [|r rows IH]; simpl; [reflexivity|].
  rewrite IH. destruct (Project.id r =? Project.id p) eqn:Hr;
    [apply Nat.eqb_eq in Hr; rewrite Hr|]; reflexivity.
Qed.

Lemma replace_project_absent p rows :
  ~ In (Project.id p) (map Project.id rows) ->
  replace_project p rows = rows.
Proof.
  induction rows as [|r rows IH]; simpl; intros Hn; [reflexivity|].
  destruct (Project.id r =? Project.id p) eqn:Hr.
  - apply Nat.eqb_eq in Hr. exfalso. apply Hn. left. assumption.
  - rewrite IH; [reflexivity|]. intros H. apply Hn. right. assumption.
Qed.

Lemma in_replace_project p rows r :
  In r (replace_project p rows) -> r = p \/ In r rows.
Proof.
  unfold replace_project. intros H. apply in_map_iff in H.
  destruct H as (x & E & Hin).
  destruct (Project.id x =? Project.id p); subst; auto.
Qed.

(** An UPDATE by primary key keeps the names distinct when no other
    row has the new name. *)
Lemma replace_project_names p rows :
  NoDup (map Project.id rows) ->
  NoDup (map Project.name rows) ->
  (forall r, In r rows -> Project.id r <> Project.id p ->
     Project.name r <> Project.name p) ->
  NoDup (map Project.name (replace_project p rows)).
Proof.
  induction rows as [|r rows IH]; simpl; intros Hid Hname Hother;
    [constructor|].
  inversion Hid as [|? ? Hid1 Hid2]; subst.
  inversion Hname as [|? ? Hname1 Hname2]; subst.
  destruct (Project.id r =? Project.id p) eqn:Hr.
  - apply Nat.eqb_eq in Hr.
    rewrite replace_project_absent by (rewrite <- Hr; assumption).
    constructor; [|assumption].
    intros Hin. apply in_map_iff in Hin. destruct Hin as (r' & E & Hin).
    apply (Hother r'); [right; assumption| |assumption].
    intros E'. apply Hid1. rewrite Hr, <- E'. apply in_map. assumption.
  - apply Nat.eqb_neq in Hr.
    constructor; [|apply IH; auto].
    intros Hin. apply in_map_iff in Hin. destruct Hin as (r' & E & Hin).
    apply in_replace_project in Hin. destruct Hin as [->|Hin].
    + apply (Hother r); [left; reflexivity|assumption|symmetry; assumption].
    + apply Hname1. rewrite <- E. apply in_map. assumption.
Qed.

Lemma find_name_taken v rows :
  In v (map Project.name rows) <->
  find (fun p => String.eqb (Project.name p) v) rows <> None.
Proof.
  split.
  - intros Hin Hnone. apply in_map_iff in Hin. destruct Hin as (r & E & Hin).
    pose proof (find_none _ _ Hnone r Hin) as H. simpl in H.
    rewrite E, String.eqb_refl in H. discriminate.
  - destruct (find _ rows) as [r|] eqn:Hf; [intros _|intros H; congruence].
    apply find_some in Hf. destruct Hf as [Hin E].
    apply String.eqb_eq in E. rewrite <- E. apply in_map. assumption.
Qed.

(** X27. The project endpoints keep the names of the projects
    distinct, and do what they are asked or nothing. [create_project]
    answers 400 and writes nothing when the name is taken; otherwise it
    adds exactly the one row it returns, with the given name and
    description, unless the database refuses the row, and then it writes
    nothing. [update_project] answers 404 for an unknown id and 400 when
    another project has the new name, writing nothing; otherwise it
    stores and returns the project with the given name and description
    (each kept when not given), every other row left as it was, unless
    the database refuses the row. Ids and names stay without duplicates
    in every case. *)
Theorem project_names_stay_unique verdict pt :
  NoDup (map Project.id (projects pt)) ->
  NoDup (map Project.name (projects pt)) ->
  (forall project_data key now,
     ~ In key (map Project.id (projects pt)) ->
     let r := create_project verdict project_data key now pt in
     let row := Project.mk key (ProjectCreate.name project_data)
                  (ProjectCreate.description project_data) now in
     (In (ProjectCreate.name project_data)
         (map Project.name (projects pt)) ->
      r = (Raise (HTTPException 400 "Project with this name already exists"),
           pt)) /\
     (~ In (ProjectCreate.name project_data)
           (map Project.name (projects pt)) ->
      match verdict row with
      | Some e => r = (Raise e, pt)
      | None =>
          r = (Ok row,
               mkProjectTables (projects pt ++ [row])
                 (conversation_projects pt))
      end) /\
     NoDup (map Project.id (projects (snd r))) /\
     NoDup (map Project.name (projects (snd r)))) /\
  (forall project_id update_data,
     let r := update_project verdict project_id update_data pt in
     (find (fun p => Project.id p =? project_id) (projects pt) = None ->
      r = (Raise (HTTPException 404 "Project not found"), pt)) /\
     (forall project, In project (projects pt) ->
        Project.id project = project_id ->
        let taken v :=
          exists other, In other (projects pt) /\
            Project.name other = v /\ Project.id other <> project_id in
        let row :=
          Project.mk project_id
            (match ProjectUpdate.name update_data with
             | Some v => v
             | None => Project.name project
             end)
            (match ProjectUpdate.description update_data with
             | Some v => Some v
             | None => Project.description project
             end)
            (Project.created_at project) in
        (forall v, ProjectUpdate.name update_data = Some v -> taken v ->
           r = (Raise (HTTPException 400
                         "Project with this name already exists"), pt)) /\
        ((forall v, ProjectUpdate.name update_data = Some v -> ~ taken v) ->
         match verdict row with
         | Some e => r = (Raise e, pt)
         | None =>
             r = (Ok row,
                  mkProjectTables (replace_project row (projects pt))
                    (conversation_projects pt)) /\
             In row (projects (snd r)) /\
             (forall other, In other (projects pt) ->
                Project.id other <> project_id ->
                In other (projects (snd r)))
         end)) /\
     map Project.id (projects (snd r)) = map Project.id (projects pt) /\
     NoDup (map Project.name (projects (snd r)))).
Proof.
  intros Hid Hname. split.
  - intros project_data key now Hfresh r row. unfold r, create_project.
    fold row.
    destruct (find (fun p => String.eqb (Project.name p)
                               (ProjectCreate.name project_data))
                (projects pt)) as [p0|] eqn:Hf.
    + simpl. split; [reflexivity|].
      split; [|split; assumption].
      intros Hnot. exfalso. apply Hnot. apply find_name_taken.
      rewrite Hf. discriminate.
    + assert (Hfree : ~ In (ProjectCreate.name project_data)
                        (map Project.name (projects pt)))
        by (rewrite find_name_taken, Hf; auto).
      split; [intros Hin; contradiction|].
      unfold insert_project.
      destruct (verdict row) as [e|] eqn:Hv; simpl.
      { split; [reflexivity|]. split; assumption. }
      unfold row at 1. simpl. rewrite find_existsb, Hf. simpl.
      split; [reflexivity|].
      rewrite !map_app. simpl.
      split; apply NoDup_snoc; assumption.
  - intros project_id update_data r. unfold r, update_project.
    destruct (find (fun p => Project.id p =? project_id) (projects pt))
      as [project|] eqn:Hp.
    2:{ simpl. split; [reflexivity|].
        split; [|split; [reflexivity|assumption]].
        intros project Hin Hpid. exfalso.
        pose proof (find_none _ _ Hp project Hin) as H. simpl in H.
        rewrite Hpid, Nat.eqb_refl in H. discriminate. }
    pose proof (find_some _ _ Hp) as [Hin Hpid]. apply Nat.eqb_eq in Hpid.
    split; [discriminate|].
    (* the row the request asks for *)
    set (asked := Project.mk project_id
            (match ProjectUpdate.name update_data with
             | Some v => v
             | None => Project.name project
             end)
            (match ProjectUpdate.description update_data with
             | Some v => Some v
             | None => Project.description project
             end)
            (Project.created_at project)).
    assert (Hasked :
      match ProjectUpdate.name update_data with
      | Some v => describe (with_name project v) update_data
      | None => describe project update_data
      end = asked).
    { unfold asked, describe, with_description, with_name.
      destruct (ProjectUpdate.name update_data),
               (ProjectUpdate.description update_data); simpl;
        rewrite <- ?Hpid; try reflexivity.
      destruct project; reflexivity. }
    (* the conflict query decides [taken] *)
    assert (Hconf : forall v,
      find (fun p => String.eqb (Project.name p) v &&
                     negb (Project.id p =? project_id)) (projects pt) = None
      <-> ~ (exists other, In other (projects pt) /\
               Project.name other = v /\ Project.id other <> project_id)).
    { intros v. split.
      - intros Hnone (other & Hino & Hn & Hi).
        pose proof (find_none _ _ Hnone other Hino) as H. simpl in H.
        rewrite Hn, String.eqb_refl in H. apply Nat.eqb_neq in Hi.
        rewrite Hi in H. discriminate.
      - intros Hno.
        destruct (find (fun p => String.eqb (Project.name p) v &&
                                 negb (Project.id p =? project_id))
                       (projects pt)) as [o|] eqn:Hf; [|reflexivity].
        exfalso. apply Hno. apply find_some in Hf. destruct Hf as [Hino H].
        apply andb_true_iff in H. destruct H as [Hn Hi].
        apply String.eqb_eq in Hn. apply negb_true_iff in Hi.
        apply Nat.eqb_neq in Hi. exists o. auto. }
    (* what a commit of [asked] does, when no other project has its name *)
    assert (Hcommit :
      (forall other, In other (projects pt) ->
         Project.id other <> project_id ->
         Project.name other <> Project.name asked) ->
      let c := commit_project verdict asked pt in
      match verdict asked with
      | Some e => c = (Raise e, pt)
      | None =>
          c = (Ok asked,
               mkProjectTables (replace_project asked (projects pt))
                 (conversation_projects pt))
      end /\
      map Project.id (projects (snd c)) = map Project.id (projects pt) /\
      NoDup (map Project.name (projects (snd c)))).
    { intros Hother. cbv zeta. unfold commit_project, update_project_row.
      destruct (verdict asked) as [e|];
        [simpl; split; [reflexivity|split; [reflexivity|assumption]]|].
      assert (Hex : existsb
                (fun r0 => String.eqb (Project.name r0) (Project.name asked)
                           && negb (Project.id r0 =? Project.id asked))
                (projects pt) = false).
      { rewrite find_existsb.
        destruct (find (fun r0 => String.eqb (Project.name r0)
                                    (Project.name asked) &&
                                  negb (Project.id r0 =? Project.id asked))
                       (projects pt)) as [o|] eqn:Hf; [|reflexivity].
        exfalso. apply find_some in Hf. destruct Hf as [Hino H].
        apply andb_true_iff in H. destruct H as [Hn Hi].
        apply String.eqb_eq in Hn. apply negb_true_iff in Hi.
        apply Nat.eqb_neq in Hi. apply (Hother o Hino Hi Hn). }
      rewrite Hex. simpl.
      split; [reflexivity|]. split; [apply replace_project_ids|].
      apply replace_project_names; assumption. }
    (* the rows of an accepted commit *)
    assert (Hrows :
      In asked (replace_project asked (projects pt)) /\
      (forall other, In other (projects pt) ->
         Project.id other <> project_id ->
         In other (replace_project asked (projects pt)))).
    { unfold replace_project. split.
      - apply in_map_iff. exists project. split; [|assumption].
        simpl. rewrite Hpid, Nat.eqb_refl. reflexivity.
      - intros other Hino Hne. apply in_map_iff. exists other.
        split; [|assumption]. simpl.
        apply Nat.eqb_neq in Hne. rewrite Hne. reflexivity. }
    (* a project with the id is the one that was found *)
    assert (Hsame : forall q, In q (projects pt) ->
              Project.id q = project_id -> q = project).
    { intros q Hq Hqid.
      apply (NoDup_map_inj Project.id _ _ _ Hid Hq Hin). congruence. }
    destruct (ProjectUpdate.name update_data) as [v|] eqn:Hv.
    + destruct (find (fun p => String.eqb (Project.name p) v &&
                               negb (Project.id p =? project_id))
                     (projects pt)) as [p0|] eqn:Hq.
      * simpl. split; [|split; [reflexivity|assumption]].
        intros q Hqin Hqid. cbv zeta. split; [reflexivity|].
        intros Hfree. exfalso.
        apply (Hfree v eq_refl).
        apply find_some in Hq. destruct Hq as [Hino H].
        apply andb_true_iff in H. destruct H as [Hn Hi].
        apply String.eqb_eq in Hn. apply negb_true_iff in Hi.
        apply Nat.eqb_neq in Hi. exists p0. auto.
      * rewrite Hasked.
        assert (Hother : forall other, In other (projects pt) ->
                  Project.id other <> project_id ->
                  Project.name other <> Project.name asked).
        { intros other Hino Hne Hn. apply (proj1 (Hconf v) Hq).
          exists other. auto. }
        destruct (Hcommit Hother) as (Hc & Hids & Hnames).
        split; [|split; assumption].
        intros q Hqin Hqid. cbv zeta.
        rewrite (Hsame q Hqin Hqid). fold asked.
        split.
        { intros v0 E Htaken. inversion E. subst v0. exfalso.
          apply (proj1 (Hconf v) Hq). exact Htaken. }
        intros _.
        destruct (verdict asked) as [e|]; [exact Hc|].
        split; [exact Hc|]. rewrite Hc. simpl. exact Hrows.
    + rewrite Hasked.
      assert (Hother : forall other, In other (projects pt) ->
                Project.id other <> project_id ->
                Project.name other <> Project.name asked).
      { intros other Hino Hne Hn. simpl in Hn.
        apply (NoDup_map_inj Project.name _ _ _ Hname Hino Hin) in Hn.
        apply Hne. rewrite Hn. assumption. }
      destruct (Hcommit Hother) as (Hc & Hids & Hnames).
      split; [|split; assumption].
      intros q Hqin Hqid. cbv zeta.
      rewrite (Hsame q Hqin Hqid). fold asked.
      split; [intros v0 E; discriminate|].
      intros _.
      destruct (verdict asked) as [e|]; [exact Hc|].
      split; [exact Hc|]. rewrite Hc. simpl. exact Hrows.
Qed.
Lemma project_names_stay_unique_witness :
  let renamed := Project.mk 60 "notes" None 30%Z in
  let inbox := Project.mk 62 "inbox" None 40%Z in
  (NoDup (map Project.id (projects two_projects)) /\
   NoDup (map Project.name (projects two_projects)) /\
   ~ In 62 (map Project.id (projects two_projects))) /\
  create_project name_verdict (ProjectCreate.mk "archive" None) 62 40%Z
    two_projects
    = (Raise (HTTPException 400 "Project with this name already exists"),
       two_projects) /\
  create_project name_verdict (ProjectCreate.mk "inbox" None) 62 40%Z
    two_projects
    = (Ok inbox,
       mkProjectTables [research; archive; inbox]
         (conversation_projects two_projects)) /\
  update_project name_verdict 60 (ProjectUpdate.mk (Some "archive") None)
    two_projects
    = (Raise (HTTPException 400 "Project with this name already exists"),
       two_projects) /\
  update_project name_verdict 60 (ProjectUpdate.mk (Some "notes") None)
    two_projects
    = (Ok renamed,
       mkProjectTables [renamed; archive]
         (conversation_projects two_projects)).
Proof.
  assert (Hid : NoDup (map Project.id (projects two_projects))).
  { simpl. repeat constructor; simpl; intuition discriminate. }
  assert (Hname : NoDup (map Project.name (projects two_projects))).
  { simpl. repeat constructor; simpl; intuition discriminate. }
  assert (Hfresh : ~ In 62 (map Project.id (projects two_projects))).
  { simpl. intuition discriminate. }
  destruct (project_names_stay_unique name_verdict two_projects Hid Hname)
    as [Hcreate Hupdate].
  split; [repeat split; assumption|].
  split.
  { apply (proj1 (Hcreate (ProjectCreate.mk "archive" None) 62 40%Z Hfresh)).
    simpl. auto. }
  split.
  { apply (proj1 (proj2 (Hcreate (ProjectCreate.mk "inbox" None) 62 40%Z
                            Hfresh))).
    simpl. intuition discriminate. }
  split.
  { destruct (Hupdate 60 (ProjectUpdate.mk (Some "archive") None))
      as (_ & H & _).
    apply (proj1 (H research (or_introl eq_refl) eq_refl) "archive" eq_refl).
    exists archive. simpl. repeat split; auto; discriminate. }
  destruct (Hupdate 60 (ProjectUpdate.mk (Some "notes") None))
    as (_ & H & _).
  apply (proj2 (H research (or_introl eq_refl) eq_refl)).
  intros v E (other & [<-|[<-|[]]] & Hn & Hi); inversion E; subst;
    simpl in *; try discriminate; congruence.
Defined.

(** ** Assigning projects to conversations *)

Lemma find_conversation_has d conversation_id c :
  find (fun c => Conversation.id c =? conversation_id) (conversations d)
    = Some c ->
  has_conversation d conversation_id = true.
Proof.
  intros H. unfold has_conversation. rewrite find_existsb, H. reflexivity.
Qed.

(** Once the conversation and the project are found and no assignment
    of the pair is, the INSERT of the assignment is never refused. *)
Lemma assign_project_cases d pt conversation_id project_id c p :
  find (fun c => Conversation.id c =? conversation_id) (conversations d)
    = Some c ->
  find (fun p => Project.id p =? project_id) (projects pt) = Some p ->
  assign_project_to_conversation d conversation_id project_id pt =
  match find (same_assignment conversation_id project_id)
             (conversation_projects pt) with
  | Some _ => (Ok "Project already assigned to conversation", pt)
  | None =>
      (Ok "Project assigned successfully",
       mkProjectTables (projects pt)
         (conversation_projects pt ++
          [ConversationProject.mk conversation_id project_id]))
  end.
Proof.
  intros Hc Hp. unfold assign_project_to_conversation. rewrite Hc, Hp.
  destruct (find (same_assignment conversation_id project_id) _) eqn:Hcp;
    [reflexivity|].
  unfold insert_conversation_project. simpl.
  rewrite (find_conversation_has _ _ _ Hc). simpl.
  rewrite !find_existsb, Hp, Hcp. reflexivity.
Qed.

Lemma find_same_assignment_last conversation_id project_id cps :
  find (same_assignment conversation_id project_id) cps = None ->
  find (same_assignment conversation_id project_id)
       (cps ++ [ConversationProject.mk conversation_id project_id]) =
  Some (ConversationProject.mk conversation_id project_id).
Proof.
  induction cps as [|cp cps IH]; simpl.
  - intros _. unfold same_assignment. simpl. rewrite !Nat.eqb_refl.
    reflexivity.
  - destruct (same_assignment conversation_id project_id cp);
      [discriminate|assumption].
Qed.

Lemma same_assignment_eq conversation_id project_id cp :
  same_assignment conversation_id project_id cp = true <->
  cp = ConversationProject.mk conversation_id project_id.
Proof.
  unfold same_assignment. rewrite andb_true_iff, !Nat.eqb_eq.
  destruct cp as [c p]; simpl. split.
  - intros [-> ->]. reflexivity.
  - intros H. inversion H. auto.
Qed.

(** X28. Assigning a project to a conversation is idempotent. When the
    conversation and the project exist the endpoint returns, the project
    table is untouched and the pair is assigned afterwards; asking again
    answers that the project is already assigned and changes nothing.
    The assignments stay free of duplicates, and each one still points
    at a stored project. *)
Theorem assign_project_is_idempotent
    d pt conversation_id project_id c p :
  find (fun c => Conversation.id c =? conversation_id) (conversations d)
    = Some c ->
  find (fun p => Project.id p =? project_id) (projects pt) = Some p ->
  exists msg pt',
    assign_project_to_conversation d conversation_id project_id pt
      = (Ok msg, pt') /\
    projects pt' = projects pt /\
    In (ConversationProject.mk conversation_id project_id)
       (conversation_projects pt') /\
    assign_project_to_conversation d conversation_id project_id pt'
      = (Ok "Project already assigned to conversation", pt') /\
    (NoDup (conversation_projects pt) ->
     NoDup (conversation_projects pt')) /\
    (assignments_have_projects pt -> assignments_have_projects pt').
Proof.
  intros Hc Hp.
  rewrite (assign_project_cases _ _ _ _ _ _ Hc Hp).
  destruct (find (same_assignment conversation_id project_id)
                 (conversation_projects pt)) as [cp|] eqn:Hcp.
  - exists "Project already assigned to conversation", pt.
    split; [reflexivity|]. split; [reflexivity|].
    apply find_some in Hcp as Hfound. destruct Hfound as [Hin Hsame].
    apply same_assignment_eq in Hsame. subst cp.
    split; [assumption|].
    split; [|split; auto].
    rewrite (assign_project_cases _ _ _ _ _ _ Hc Hp), Hcp. reflexivity.
  - eexists. eexists. split; [reflexivity|]. simpl.
    split; [reflexivity|].
    split; [apply in_or_app; right; left; reflexivity|].
    split.
    + rewrite (assign_project_cases d _ _ _ c p); [|assumption|assumption].
      simpl. rewrite find_same_assignment_last by assumption. reflexivity.
    + split.
      * intros Hnd. apply NoDup_snoc; [assumption|].
        intros Hin. pose proof (find_none _ _ Hcp _ Hin) as H.
        unfold same_assignment in H. simpl in H.
        rewrite !Nat.eqb_refl in H. discriminate.
      * unfold assignments_have_projects. simpl. intros Hall cp Hin.
        apply in_app_or in Hin. destruct Hin as [Hin|[<-|[]]];
          [apply Hall; assumption|].
        simpl. rewrite Hp. discriminate.
Qed.

Lemma assign_project_is_idempotent_witness :
  exists msg pt',
    assign_project_to_conversation Sample.tables_with_a 50 60 two_projects
      = (Ok msg, pt') /\
    conversation_projects pt' =
      [ConversationProject.mk 50 61; ConversationProject.mk 50 60] /\
    assign_project_to_conversation Sample.tables_with_a 50 60 pt'
      = (Ok "Project already assigned to conversation", pt').
Proof.
  destruct (assign_project_is_idempotent Sample.tables_with_a two_projects
              50 60 Sample.stored_a research eq_refl eq_refl)
    as (msg & pt' & Hrun & _ & _ & Hagain & _).
  exists msg, pt'. split; [exact Hrun|]. split; [|exact Hagain].
  vm_compute in Hrun. inversion Hrun. reflexivity.
Defined.

Lemma filter_not_same_assignment conversation_id project_id cps :
  find (same_assignment conversation_id project_id) cps = None ->
  filter (fun cp => negb (same_assignment conversation_id project_id cp)) cps
  = cps.
Proof.
  induction cps as [|cp cps IH]; simpl; [reflexivity|].
  destruct (same_assignment conversation_id project_id cp);
    [discriminate|]. simpl. intros H. rewrite IH by assumption. reflexivity.
Qed.

(** X29. Removing an assignment undoes assigning it: when the
    conversation and the project exist and the pair is not assigned,
    [assign_project_to_conversation] followed by
    [remove_project_from_conversation] gives back the tables as they
    were, while removing the pair without assigning it first raises 404
    and changes nothing. *)
Theorem assign_then_remove_restores
    d pt conversation_id project_id c p :
  find (fun c => Conversation.id c =? conversation_id) (conversations d)
    = Some c ->
  find (fun p => Project.id p =? project_id) (projects pt) = Some p ->
  find (same_assignment conversation_id project_id)
       (conversation_projects pt) = None ->
  remove_project_from_conversation conversation_id project_id pt
    = (Raise (HTTPException 404 "Project assignment not found"), pt) /\
  exists pt',
    assign_project_to_conversation d conversation_id project_id pt
      = (Ok "Project assigned successfully", pt') /\
    remove_project_from_conversation conversation_id project_id pt'
      = (Ok "Project removed from conversation", pt).
Proof.
  intros Hc Hp Hcp. split.
  - unfold remove_project_from_conversation. rewrite Hcp. reflexivity.
  - rewrite (assign_project_cases _ _ _ _ _ _ Hc Hp), Hcp.
    eexists. split; [reflexivity|].
    unfold remove_project_from_conversation. simpl.
    rewrite find_same_assignment_last by assumption.
    rewrite filter_app, filter_not_same_assignment by assumption.
    simpl. unfold same_assignment at 1. simpl. rewrite !Nat.eqb_refl. simpl.
    rewrite app_nil_r. destruct pt; reflexivity.
Qed.

Lemma assign_then_remove_restores_witness :
  find (same_assignment 50 60) (conversation_projects two_projects) = None /\
  exists pt',
    assign_project_to_conversation Sample.tables_with_a 50 60 two_projects
      = (Ok "Project assigned successfully", pt') /\
    remove_project_from_conversation 50 60 pt'
      = (Ok "Project removed from conversation", two_projects).
Proof.
  split; [reflexivity|].
  exact (proj2 (assign_then_remove_restores Sample.tables_with_a
                  two_projects 50 60 Sample.stored_a research
                  eq_refl eq_refl eq_refl)).
Defined.

(** ** The projects of a conversation that is read back *)

Lemma projects_of_ids pt cps : forall ps,
  projects_of pt cps = Ok ps ->
  map Project.id ps = map ConversationProject.project_id cps.
Proof.
  induction cps as [|cp cps IH]; simpl; intros ps H.
  - inversion H. reflexivity.
  - destruct (find _ (projects pt)) as [p|] eqn:Hp; [|discriminate].
    destruct (projects_of pt cps) as [ps'|e]; [|discriminate].
    inversion H. subst. simpl. rewrite (IH ps' eq_refl).
    apply find_some in Hp. destruct Hp as [_ Hp]. apply Nat.eqb_eq in Hp.
    rewrite Hp. reflexivity.
Qed.

Lemma projects_of_in pt cps cp p : forall ps,
  projects_of pt cps = Ok ps ->
  In cp cps ->
  find (fun p => Project.id p =? ConversationProject.project_id cp)
       (projects pt) = Some p ->
  In p ps.
Proof.
  induction cps as [|cp0 cps IH]; simpl; intros ps H Hin Hp;
    [contradiction|].
  destruct (find (fun p => Project.id p
                           =? ConversationProject.project_id cp0)
                 (projects pt)) as [p0|] eqn:Hp0; [|discriminate].
  destruct (projects_of pt cps) as [ps'|e]; [|discriminate].
  inversion H. subst. destruct Hin as [->|Hin].
  - left. congruence.
  - right. apply (IH ps' eq_refl); assumption.
Qed.

Lemma get_conversation_projects d pt conversation_id c :
  find (fun c => Conversation.id c =? conversation_id) (conversations d)
    = Some c ->
  assignments_have_projects pt ->
  exists r,
    get_conversation d pt conversation_id = Ok r /\
    projects_of pt
      (filter (fun cp => ConversationProject.conversation_id cp
                         =? conversation_id)
              (conversation_projects pt))
    = Ok (ConversationDetail.projects r).
Proof.
  intros Hc Hpt. unfold get_conversation. rewrite Hc.
  assert (Hid : Conversation.id c = conversation_id).
  { apply find_some in Hc. destruct Hc as [_ H]. apply Nat.eqb_eq. exact H. }
  rewrite Hid.
  destruct (projects_of_ok pt
              (filter (fun cp => ConversationProject.conversation_id cp
                                 =? conversation_id)
                      (conversation_projects pt))) as (ps & Hps & _).
  { intros cp Hin. apply filter_In in Hin. apply Hpt. tauto. }
  rewrite Hps. eexists. split; reflexivity.
Qed.

Lemma assign_project_assigned d pt conversation_id project_id c p :
  find (fun c => Conversation.id c =? conversation_id) (conversations d)
    = Some c ->
  find (fun p => Project.id p =? project_id) (projects pt) = Some p ->
  assignments_have_projects pt ->
  let pt' :=
    snd (assign_project_to_conversation d conversation_id project_id pt) in
  projects pt' = projects pt /\
  In (ConversationProject.mk conversation_id project_id)
     (conversation_projects pt') /\
  assignments_have_projects pt'.
Proof.
  intros Hc Hp Hpt. cbv zeta.
  rewrite (assign_project_cases _ _ _ _ _ _ Hc Hp).
  destruct (find (same_assignment conversation_id project_id)
                 (conversation_projects pt)) as [cp|] eqn:Hcp; simpl.
  - apply find_some in Hcp. destruct Hcp as [Hin Hsame].
    apply same_assignment_eq in Hsame. subst cp. auto.
  - split; [reflexivity|].
    split; [apply in_or_app; right; left; reflexivity|].
    unfold assignments_have_projects. simpl. intros cp Hin.
    apply in_app_or in Hin. destruct Hin as [Hin|[<-|[]]];
      [apply Hpt; assumption|].
    simpl. rewrite Hp. discriminate.
Qed.

Lemma remove_project_removed conversation_id project_id pt :
  assignments_have_projects pt ->
  let pt' :=
    snd (remove_project_from_conversation conversation_id project_id pt) in
  (forall cp, In cp (conversation_projects pt') ->
     same_assignment conversation_id project_id cp = false) /\
  assignments_have_projects pt'.
Proof.
  intros Hpt. cbv zeta. unfold remove_project_from_conversation.
  destruct (find (same_assignment conversation_id project_id)
                 (conversation_projects pt)) as [cp0|] eqn:Hcp; simpl.
  - split.
    + intros cp Hin. apply filter_In in Hin. destruct Hin as [_ H].
      apply negb_true_iff. exact H.
    + unfold assignments_have_projects. simpl. intros cp Hin.
      apply filter_In in Hin. apply Hpt. tauto.
  - split; [|assumption]. intros cp Hin.
    exact (find_none _ _ Hcp cp Hin).
Qed.

(** X30. What [get_conversation] lists follows the assignments: after
    [assign_project_to_conversation] the project is among the projects
    of the conversation that is read back, and after
    [remove_project_from_conversation] no project with that id is,
    whether the requests changed the tables or not. The conversation and
    the project exist and every assignment points at a stored project. *)
Theorem assigned_project_is_listed d pt conversation_id project_id c p :
  find (fun c => Conversation.id c =? conversation_id) (conversations d)
    = Some c ->
  find (fun p => Project.id p =? project_id) (projects pt) = Some p ->
  assignments_have_projects pt ->
  (exists r,
     get_conversation d
       (snd (assign_project_to_conversation d conversation_id project_id pt))
       conversation_id = Ok r /\
     In p (ConversationDetail.projects r)) /\
  (exists r,
     get_conversation d
       (snd (remove_project_from_conversation conversation_id project_id pt))
       conversation_id = Ok r /\
     ~ In project_id (map Project.id (ConversationDetail.projects r))).
Proof.
  intros Hc Hp Hpt. split.
  - destruct (assign_project_assigned d pt conversation_id project_id c p
                Hc Hp Hpt) as (Hprojects & Hin & Hpt').
    destruct (get_conversation_projects d _ conversation_id c Hc Hpt')
      as (r & Hget & Hps).
    exists r. split; [exact Hget|].
    apply (projects_of_in _ _
             (ConversationProject.mk conversation_id project_id) p _ Hps).
    + apply filter_In. split; [assumption|]. simpl. apply Nat.eqb_refl.
    + simpl. rewrite Hprojects. assumption.
  - destruct (remove_project_removed conversation_id project_id pt Hpt)
      as (Hgone & Hpt').
    destruct (get_conversation_projects d _ conversation_id c Hc Hpt')
      as (r & Hget & Hps).
    exists r. split; [exact Hget|].
    rewrite (projects_of_ids _ _ _ Hps). intros Hin.
    apply in_map_iff in Hin. destruct Hin as (cp & Hpid & Hin).
    apply filter_In in Hin. destruct Hin as [Hin Hcid].
    specialize (Hgone cp Hin). unfold same_assignment in Hgone.
    rewrite Hcid, Hpid, Nat.eqb_refl in Hgone. discriminate.
Qed.

Lemma assigned_project_is_listed_witness :
  assignments_have_projects two_projects /\
  (exists r,
     get_conversation Sample.tables_with_a
       (snd (assign_project_to_conversation Sample.tables_with_a 50 60
               two_projects)) 50 = Ok r /\
     ConversationDetail.projects r = [archive; research]) /\
  (exists r,
     get_conversation Sample.tables_with_a
       (snd (remove_project_from_conversation 50 61 two_projects)) 50
       = Ok r /\
     ConversationDetail.projects r = []).
Proof.
  assert (Hpt : assignments_have_projects two_projects).
  { intros cp [<-|[]]. discriminate. }
  split; [exact Hpt|]. split.
  - destruct (proj1 (assigned_project_is_listed Sample.tables_with_a
                       two_projects 50 60 Sample.stored_a research
                       eq_refl eq_refl Hpt)) as (r & Hget & _).
    exists r. split; [exact Hget|].
    vm_compute in Hget. inversion Hget. reflexivity.
  - destruct (proj2 (assigned_project_is_listed Sample.tables_with_a
                       two_projects 50 61 Sample.stored_a archive
                       eq_refl eq_refl Hpt)) as (r & Hget & _).
    exists r. split; [exact Hget|].
    vm_compute in Hget. inversion Hget. reflexivity.
Defined.
